(** * MatrixCity camera-trajectory generators

    A shallow embedding of the four trajectory generators of
    [MatrixCityPlugin/Content/Python/utils_sequencer.py]:
    [generate_train_box], [generate_test_box], [generate_train_line] and
    [generate_test_line], and of the functions of the same file that write
    the generated keyframes into a transform section.

    Modelling choices.
    - Frame indices, lane counts and random draws are Python integers: [Z].
    - Coordinates, altitudes and angles are Python floats, that is doubles.
      A finite double is the real number it denotes, a value of [R]; every
      arithmetic operation of the code that feeds a count, a cursor or a
      branch rounds its exact result, and [math.dist], [math.cos] and
      [math.sin] are the functions of the C library.  Rounding and library
      functions are the fields of a record [FloatLib], together with the
      properties of them the development relies on; every theorem holds for
      every such library.  Overflow, infinities and NaN are left out.
    - [np.linspace] is given by the formula that defines its samples.
    - Python lists passed as arguments ([line1], [line2], [point1],
      [point2]) are objects in a store; an argument is a reference into it,
      so that in-place item assignment is visible to the caller.
    - [np.random] is a stream of raw integers together with the number of
      draws consumed so far.
    - Exceptions are values of [exn]; a computation returns the final state
      together with either an exception or a result. *)

From Stdlib Require Import ZArith Reals Lra Lia List Sorted.
From stdpp Require Import base gmap list strings.

Local Open Scope Z_scope.

(** ** Floating-point arithmetic *)

(** What the code takes from the machine and the C library.

    [fl x] is the double nearest to the real number [x]: the result of an
    IEEE 754 operation is [fl] of its exact result.  Rounding is monotone,
    and a number [m * 2^e] with a mantissa [m] of at most 53 bits and an
    exponent in the range of the doubles is a double, so that rounding
    leaves it as it is.

    [libm_cos] and [libm_sin] are [math.cos] and [math.sin], [deg_to_rad]
    the constant [math.radians] multiplies by.

    [norm v] is what [math.dist] computes from the differences [v] of the
    coordinates: a non-negative double, and the absolute value of the
    difference when the two points differ in one coordinate only. *)
Record FloatLib : Type := mkFloatLib {
  fl : R -> R;
  fl_monotone : forall x y : R, (x <= y)%R -> (fl x <= fl y)%R;
  fl_exact : forall m e : Z,
    Z.abs m <= 2 ^ 53 -> -1074 <= e <= 970 ->
    fl (IZR m * powerRZ 2 e) = (IZR m * powerRZ 2 e)%R;
  libm_cos : R -> R;
  libm_sin : R -> R;
  libm_cos_0 : libm_cos 0 = 1%R;
  libm_sin_0 : libm_sin 0 = 0%R;
  deg_to_rad : R;
  norm : list R -> R;
  norm_nonneg : forall v : list R, (0 <= norm v)%R;
  norm_first : forall d : R, norm [d; 0%R] = Rabs d;
  norm_second : forall d : R, norm [0%R; d] = Rabs d
}.

(** The Euclidean norm, computed exactly. *)
Definition exact_norm (v : list R) : R :=
  sqrt (foldr Rplus 0%R (map (fun d => d * d)%R v)).

(** Arithmetic without rounding error: the library in which every result
    is exact. *)
Definition exact_lib : FloatLib :=
  {| fl := fun x => x;
     fl_monotone := fun x y H => H;
     fl_exact := fun m e _ _ => eq_refl;
     libm_cos := cos;
     libm_sin := sin;
     libm_cos_0 := cos_0;
     libm_sin_0 := sin_0;
     deg_to_rad := (PI / 180)%R;
     norm := exact_norm;
     norm_nonneg := fun v => sqrt_pos _;
     norm_first := fun d =>
       ltac:(unfold exact_norm; cbn [map foldr];
             rewrite <- sqrt_Rsqr_abs; f_equal; unfold Rsqr; lra);
     norm_second := fun d =>
       ltac:(unfold exact_norm; cbn [map foldr];
             rewrite <- sqrt_Rsqr_abs; f_equal; unfold Rsqr; lra) |}.

Section Generators.
(** The arithmetic the generators run on. *)
Variable lib : FloatLib.

(** [a + b], [a - b], [a * b] and [a / b] on floats. *)
Definition fadd (a b : R) : R := fl lib (a + b).

Definition fsub (a b : R) : R := fl lib (a - b).

Definition fmul (a b : R) : R := fl lib (a * b).

Definition fdiv (a b : R) : R := fl lib (a / b).

(** ** Python values and the store *)

Inductive exn : Type :=
| AssertionError
| ValueError
| IndexError
| UnboundRef.  (* a reference outside the store; no Python counterpart *)

Definition loc := positive.

Record State : Type := mkState {
  heap : gmap loc (list R);
  rand_src : nat -> Z;
  rand_pos : nat
}.

Definition M (A : Type) : Type := State -> State * (exn + A).

Definition ret {A} (a : A) : M A := fun s => (s, inr a).

Definition raise {A} (e : exn) : M A := fun s => (s, inl e).

Definition bind {A B} (m : M A) (k : A -> M B) : M B :=
  fun s =>
    match m s with
    | (s', inr a) => k a s'
    | (s', inl e) => (s', inl e)
    end.

Definition lift {A} (r : exn + A) : M A := fun s => (s, r).

Notation "'let*' p ':=' c 'in' k" := (bind c (fun p => k))
  (at level 10, p pattern, c at level 100, k at level 200, only parsing).
Notation "'run' c 'in' k" := (bind c (fun _ => k))
  (at level 10, c at level 100, k at level 200, only parsing).

(** [assert(b)] *)
Definition py_assert (b : bool) : M unit :=
  if b then ret tt else raise AssertionError.

(** [a == b] on numbers *)
Definition py_eq (a b : R) : bool :=
  if Req_dec_T a b then true else false.

(** [xs[i]] on a list or array, with Python's negative indices. *)
Definition py_getitem {A} (xs : list A) (i : Z) : exn + A :=
  let j := if i <? 0 then i + Z.of_nat (length xs) else i in
  if j <? 0 then inl IndexError
  else match xs !! Z.to_nat j with
       | Some x => inr x
       | None => inl IndexError
       end.

(** [xs[i] = v] on a list. *)
Definition py_setitem {A} (xs : list A) (i : Z) (v : A) : exn + list A :=
  let j := if i <? 0 then i + Z.of_nat (length xs) else i in
  if j <? 0 then inl IndexError
  else if (Z.to_nat j <? length xs)%nat then inr (<[Z.to_nat j := v]> xs)
       else inl IndexError.

(** The list object a reference points to. *)
Definition deref (l : loc) : M (list R) :=
  fun s =>
    match heap s !! l with
    | Some xs => (s, inr xs)
    | None => (s, inl UnboundRef)
    end.

(** [p[i]] where [p] is a reference to a list. *)
Definition ref_getitem (p : loc) (i : Z) : M R :=
  let* xs := deref p in lift (py_getitem xs i).

(** [p[i] = v] where [p] is a reference to a list: the object is updated
    in place. *)
Definition ref_setitem (p : loc) (i : Z) (v : R) : M unit :=
  let* xs := deref p in
  let* xs' := lift (py_setitem xs i v) in
  fun s => (mkState (<[p := xs']> (heap s)) (rand_src s) (rand_pos s), inr tt).

(** [a, b, c, d = line] *)
Definition unpack4 (line : list R) : exn + (R * R * R * R) :=
  match line with
  | [a; b; c; d] => inr (a, b, c, d)
  | _ => inl ValueError
  end.

(** [int(x)]: truncation towards zero. *)
Definition py_int (x : R) : Z :=
  if Rle_dec 0 x then Int_part x else - Int_part (- x).

(** [range(n)] *)
Definition py_range (n : Z) : list Z := seqZ 0 n.

(** [for x in xs: st = body(x, st)] *)
Fixpoint for_each {A St} (xs : list A) (body : A -> St -> M St) (st : St)
  : M St :=
  match xs with
  | [] => ret st
  | x :: xs' => let* st' := body x st in for_each xs' body st'
  end.

(** ** Library functions *)

(** [math.dist(p, q)] *)
Definition math_dist (p q : list R) : exn + R :=
  if Nat.eqb (length p) (length q)
  then inr (norm lib (zip_with fsub p q))
  else inl ValueError.

(** [math.radians(x)] *)
Definition math_radians (x : R) : R := fmul x (deg_to_rad lib).

(** [math.cos(x)] and [math.sin(x)] *)
Definition math_cos (x : R) : R := libm_cos lib x.

Definition math_sin (x : R) : R := libm_sin lib x.

(** The [i]-th sample of [np.linspace(start, stop, num)]. *)
Definition linspace_at (start stop : R) (num : Z) (i : Z) : R :=
  (start + IZR i * ((stop - start) / IZR (num - 1)))%R.

(** [np.linspace(start, stop, num)] *)
Definition np_linspace (start stop : R) (num : Z) : exn + list R :=
  if num <? 0 then inl ValueError
  else inr (map (linspace_at start stop num) (seqZ 0 num)).

(** The value [np.random.randint(low, high)] computes from one raw draw. *)
Definition randint_of (low high raw : Z) : Z := low + raw `mod` (high - low).

(** [np.random.randint(low, high, size=1)] *)
Definition np_random_randint (low high : Z) : M Z :=
  fun s =>
    if high <=? low then (s, inl ValueError)
    else (mkState (heap s) (rand_src s) (S (rand_pos s)),
          inr (randint_of low high (rand_src s (rand_pos s)))).

(** ** Keyframes *)

(** Modelled from the spec: [pydantic_model.SequenceKey], a keyframe made of
    a frame index, a location (x, y, z) and a rotation (roll, pitch, yaw). *)
Record SequenceKey : Type := mkSequenceKey {
  frame : Z;
  location : R * R * R;
  rotation : R * R * R
}.

(** ** The generators *)

(** The body shared by every lane loop of the box generators: lines 533-548
    of the source, repeated with another yaw at 550-565, 567-582, 584-599
    and with drawn angles at 625-640. *)
Definition box_lane (x_start y_start x_end y_end : list R) (z : R)
    (h_instance : Z) (rot : R * R * R) (i : Z) (st : list SequenceKey * Z)
  : M (list SequenceKey * Z) :=
  let '(camera_trans, current_frame) := st in
  let* xs := lift (py_getitem x_start i) in
  let* ys := lift (py_getitem y_start i) in
  let camera_trans :=
    camera_trans ++ [mkSequenceKey current_frame (xs, ys, z) rot] in
  let current_frame := current_frame + h_instance in
  let* xe := lift (py_getitem x_end i) in
  let* ye := lift (py_getitem y_end i) in
  let camera_trans :=
    camera_trans ++ [mkSequenceKey current_frame (xe, ye, z) rot] in
  let current_frame := current_frame + 1 in
  ret (camera_trans, current_frame).

Definition generate_train_box (line1 line2 : loc) (z : R) (current_frame : Z)
  : M (list SequenceKey * Z) :=
  let* l1 := deref line1 in
  let* (x11, y11, x12, y12) := lift (unpack4 l1) in
  let* l2 := deref line2 in
  let* (x21, y21, x22, y22) := lift (unpack4 l2) in
  run py_assert (py_eq y11 y12) in
  run py_assert (py_eq y21 y22) in
  run py_assert (py_eq x11 x21) in
  run py_assert (py_eq x12 x22) in
  let* w := lift (math_dist [x11; y11] [x12; y12]) in
  let* h := lift (math_dist [x11; y11] [x21; y21]) in
  let interval := 4000%R in
  let w_instance := py_int (fdiv w interval) + 2 in
  let h_instance := py_int (fdiv h interval) + 1 in
  let* x_start := lift (np_linspace x11 x12 w_instance) in
  let* y_start := lift (np_linspace y11 y12 w_instance) in
  let* x_end := lift (np_linspace x21 x22 w_instance) in
  let* y_end := lift (np_linspace y21 y22 w_instance) in
  let camera_trans := [] in
  let pitch := if Rgt_dec z 25000 then -60 else -45 in
  let* st := for_each (py_range w_instance)
          (box_lane x_start y_start x_end y_end z h_instance
             (0%R, IZR pitch, 0%R))
          (camera_trans, current_frame) in
  let* st := for_each (py_range w_instance)
          (box_lane x_start y_start x_end y_end z h_instance
             (0%R, IZR pitch, 90%R)) st in
  let* st := for_each (py_range w_instance)
          (box_lane x_start y_start x_end y_end z h_instance
             (0%R, IZR pitch, 180%R)) st in
  let* st := for_each (py_range w_instance)
          (box_lane x_start y_start x_end y_end z h_instance
             (0%R, IZR pitch, 270%R)) st in
  ret st.

(** The loop body of the test box, lines 623-640: two draws, then the lane
    emission with the drawn angles. *)
Definition test_box_lane (x_start y_start x_end y_end : list R) (z : R)
    (h_instance : Z) (i : Z) (st : list SequenceKey * Z)
  : M (list SequenceKey * Z) :=
  let* pitch := np_random_randint (-60) (-44) in
  let* yaw := np_random_randint 0 361 in
  box_lane x_start y_start x_end y_end z h_instance
    (0%R, IZR pitch, IZR yaw) i st.

Definition generate_test_box (line1 line2 : loc) (z : R) (current_frame : Z)
  : M (list SequenceKey * Z) :=
  let* l1 := deref line1 in
  let* (x11, y11, x12, y12) := lift (unpack4 l1) in
  let* l2 := deref line2 in
  let* (x21, y21, x22, y22) := lift (unpack4 l2) in
  run py_assert (py_eq y11 y12) in
  run py_assert (py_eq y21 y22) in
  run py_assert (py_eq x11 x21) in
  run py_assert (py_eq x12 x22) in
  let* w := lift (math_dist [x11; y11] [x12; y12]) in
  let* h := lift (math_dist [x11; y11] [x21; y21]) in
  let interval := 4501%R in
  let w_instance := py_int (fdiv w interval) + 2 in
  let h_instance := py_int (fdiv h interval) + 1 in
  let* x_start := lift (np_linspace x11 x12 w_instance) in
  let* y_start := lift (np_linspace y11 y12 w_instance) in
  let* x_end := lift (np_linspace x21 x22 w_instance) in
  let* y_end := lift (np_linspace y21 y22 w_instance) in
  let camera_trans := [] in
  let* st := for_each (py_range w_instance)
          (test_box_lane x_start y_start x_end y_end z h_instance)
          (camera_trans, current_frame) in
  ret st.

(** One [camera_trans.append(SequenceKey(frame=current_frame,
    location=(point[0], point[1], z), rotation=rot))]. *)
Definition append_key (camera_trans : list SequenceKey) (current_frame : Z)
    (point : loc) (z : R) (rot : R * R * R) : M (list SequenceKey) :=
  let* x := ref_getitem point 0 in
  let* y := ref_getitem point 1 in
  ret (camera_trans ++ [mkSequenceKey current_frame (x, y, z) rot]).

(** The emission shared by the two line generators: lines 652-749 of the
    source, repeated word for word at 762-859. *)
Definition line_emission (point1 point2 : loc) (z yaw : R) (instance : Z)
    (current_frame : Z) : M (list SequenceKey * Z) :=
  let camera_trans := [] in
  let* camera_trans := append_key camera_trans current_frame point1 z
                    (0, 0, yaw)%R in
  let current_frame := current_frame + instance in
  let* camera_trans := append_key camera_trans current_frame point2 z
                    (0, 0, yaw)%R in
  let current_frame := current_frame + 1 in
  let* camera_trans := append_key camera_trans current_frame point1 z
                    (0%R, 0%R, fadd 90 yaw) in
  let current_frame := current_frame + instance in
  let* camera_trans := append_key camera_trans current_frame point2 z
                    (0%R, 0%R, fadd 90 yaw) in
  let current_frame := current_frame + 1 in
  let* camera_trans := append_key camera_trans current_frame point1 z
                    (0%R, 0%R, fadd 180 yaw) in
  let current_frame := current_frame + instance in
  let* camera_trans := append_key camera_trans current_frame point2 z
                    (0%R, 0%R, fadd 180 yaw) in
  let current_frame := current_frame + 1 in
  let* camera_trans := append_key camera_trans current_frame point1 z
                    (0%R, 0%R, fadd 270 yaw) in
  let current_frame := current_frame + instance in
  let* camera_trans := append_key camera_trans current_frame point2 z
                    (0%R, 0%R, fadd 270 yaw) in
  let current_frame := current_frame + 1 in
  let* camera_trans := append_key camera_trans current_frame point1 z
                    (0, 90, yaw)%R in
  let current_frame := current_frame + instance in
  let* camera_trans := append_key camera_trans current_frame point2 z
                    (0, 90, yaw)%R in
  let current_frame := current_frame + 1 in
  ret (camera_trans, current_frame).

Definition generate_train_line (point1 point2 : loc) (z yaw : R)
    (current_frame : Z) (dense : bool) : M (list SequenceKey * Z) :=
  let* p1 := deref point1 in
  let* p2 := deref point2 in
  let* distance := lift (math_dist p1 p2) in
  let instance :=
    if dense then py_int (fdiv distance 100) + 1
    else py_int (fdiv distance 500) + 1 in
  line_emission point1 point2 z yaw instance current_frame.

Definition generate_test_line (point1 point2 : loc) (z yaw : R)
    (current_frame : Z) : M (list SequenceKey * Z) :=
  let* v := ref_getitem point1 0 in
  run ref_setitem point1 0 (fadd v (fmul (math_cos (math_radians yaw)) 570))
  in
  let* v := ref_getitem point1 1 in
  run ref_setitem point1 1 (fadd v (fmul (math_sin (math_radians yaw)) 570))
  in
  let* v := ref_getitem point2 0 in
  run ref_setitem point2 0 (fsub v (fmul (math_cos (math_radians yaw)) 570))
  in
  let* v := ref_getitem point2 1 in
  run ref_setitem point2 1 (fsub v (fmul (math_sin (math_radians yaw)) 570))
  in
  let* yaw := np_random_randint 0 90 in
  let* p1 := deref point1 in
  let* p2 := deref point2 in
  let* distance := lift (math_dist p1 p2) in
  let instance := py_int (fdiv distance 4830) + 1 in
  line_emission point1 point2 z (IZR yaw) instance current_frame.

(** ** The emission pattern, as the design describes it

    A lane is a start point, an end point and an orientation.  A sweep
    visits the lanes in order; for each one it emits a keyframe at the start
    point at the cursor, advances the cursor by the dwell, emits a keyframe
    at the end point with the same orientation, and advances the cursor by
    one. *)

Abbreviation point := (R * R)%type.

Record Lane : Type := mkLane {
  lane_start : point;
  lane_end : point;
  lane_rot : R * R * R
}.

Fixpoint sweep (z : R) (dwell : Z) (lanes : list Lane) (cursor : Z)
  : list SequenceKey * Z :=
  match lanes with
  | [] => ([], cursor)
  | l :: ls =>
      let k1 := mkSequenceKey cursor
                  (fst (lane_start l), snd (lane_start l), z) (lane_rot l) in
      let cursor := cursor + dwell in
      let k2 := mkSequenceKey cursor
                  (fst (lane_end l), snd (lane_end l), z) (lane_rot l) in
      let cursor := cursor + 1 in
      let '(ks, cursor') := sweep z dwell ls cursor in
      (k1 :: k2 :: ks, cursor')
  end.

(** The lanes of a box at one fixed orientation. *)
Definition fixed_lanes (rot : R * R * R) (pts : list (point * point))
  : list Lane :=
  map (fun pq => mkLane (fst pq) (snd pq) rot) pts.

(** One full sweep per yaw value, in the order of [yaws]. *)
Fixpoint yaw_passes (z : R) (dwell : Z) (pitch : R)
    (pts : list (point * point)) (yaws : list R) (cursor : Z)
  : list SequenceKey * Z :=
  match yaws with
  | [] => ([], cursor)
  | yaw :: rest =>
      let '(ks1, cursor) :=
        sweep z dwell (fixed_lanes (0%R, pitch, yaw) pts) cursor in
      let '(ks2, cursor) := yaw_passes z dwell pitch pts rest cursor in
      (ks1 ++ ks2, cursor)
  end.

(** The lanes of a test box: one pitch and one yaw drawn per lane, from the
    raw stream [src] read from position [pos] on. *)
Fixpoint drawn_lanes (src : nat -> Z) (pos : nat)
    (pts : list (point * point)) : list Lane :=
  match pts with
  | [] => []
  | pq :: rest =>
      mkLane (fst pq) (snd pq)
        (0%R, IZR (randint_of (-60) (-44) (src pos)),
         IZR (randint_of 0 361 (src (S pos))))
      :: drawn_lanes src (S (S pos)) rest
  end.

(** The five orientations of a line pattern around a base yaw. *)
Definition line_lanes (p1 p2 : point) (yaw : R) : list Lane :=
  [ mkLane p1 p2 (0, 0, yaw)%R;
    mkLane p1 p2 (0%R, 0%R, fadd 90 yaw);
    mkLane p1 p2 (0%R, 0%R, fadd 180 yaw);
    mkLane p1 p2 (0%R, 0%R, fadd 270 yaw);
    mkLane p1 p2 (0, 90, yaw)%R ].

(** What [math.dist] returns on two points of the plane. *)
Definition dist2 (x1 y1 x2 y2 : R) : R :=
  norm lib [fsub x1 x2; fsub y1 y2].

(** Lane [i] of a box runs from sample [i] of the start edge to sample [i]
    of the end edge. *)
Definition box_points (x11 y11 x12 y12 x21 y21 x22 y22 : R) (w_count : Z)
  : list (point * point) :=
  map (fun i =>
         ((linspace_at x11 x12 w_count i, linspace_at y11 y12 w_count i),
          (linspace_at x21 x22 w_count i, linspace_at y21 y22 w_count i)))
      (seqZ 0 w_count).

Definition box_pitch (z : R) : Z := if Rgt_dec z 25000 then -60 else -45.

(** The random source after [n] more draws. *)
Definition consume (n : nat) (s : State) : State :=
  mkState (heap s) (rand_src s) (rand_pos s + n).

Definition frames (ks : list SequenceKey) : list Z := map frame ks.

(** ** Derived quantities *)

(** The sample counts of a box, lines 516-520 and 610-614. *)
Definition w_count_of (interval x11 y11 x12 y12 : R) : Z :=
  py_int (fdiv (dist2 x11 y11 x12 y12) interval) + 2.

Definition h_count_of (interval x11 y11 x21 y21 : R) : Z :=
  py_int (fdiv (dist2 x11 y11 x21 y21) interval) + 1.

(** Name the result of the innermost sweep of the goal: the one whose
    starting cursor is a variable. *)
Ltac destruct_sweep :=
  match goal with
  | |- context [sweep ?a ?b ?l ?c] =>
      is_var c;
      let ks := fresh "ks" in
      let c' := fresh "c" in
      destruct (sweep a b l c) as [ks c']; cbn [fst snd]
  end.

(** The sample count of a line, lines 646-650 and 759-760. *)
Definition instance_of (interval x1 y1 x2 y2 : R) : Z :=
  py_int (fdiv (dist2 x1 y1 x2 y2) interval) + 1.

(** The endpoints of a test line after the 570-unit displacement. *)
Definition displaced_start (x1 y1 yaw : R) : point :=
  (fadd x1 (fmul (math_cos (math_radians yaw)) 570),
   fadd y1 (fmul (math_sin (math_radians yaw)) 570)).

Definition displaced_end (x2 y2 yaw : R) : point :=
  (fsub x2 (fmul (math_cos (math_radians yaw)) 570),
   fsub y2 (fmul (math_sin (math_radians yaw)) 570)).

(** All the lanes of a train box: the lanes of the region once per yaw. *)
Definition train_box_lanes (pitch : R) (pts : list (point * point))
    (yaws : list R) : list Lane :=
  concat (map (fun yaw => fixed_lanes (0%R, pitch, yaw) pts) yaws).

(** ** Example stores *)

(** The store of the aerial example of [main]: the two edges of block 1. *)
Definition block1_heap : gmap loc (list R) :=
  <[2%positive := [-100000; 38000; -12000; 38000]%R]>
    (<[1%positive := [-100000; 0; -12000; 0]%R]> ∅).

(** The store of a street example: one segment from (0,0) to (1000,0). *)
Definition street_heap : gmap loc (list R) :=
  <[2%positive := [1000; 0]%R]> (<[1%positive := [0; 0]%R]> ∅).

(** A store of two points with a single coordinate each. *)
Definition short_heap : gmap loc (list R) :=
  <[2%positive := [5]%R]> (<[1%positive := [7]%R]> ∅).

(** ** Any generator call *)

Inductive call : Type :=
| TrainBox (line1 line2 : loc) (z : R) (current_frame : Z)
| TestBox (line1 line2 : loc) (z : R) (current_frame : Z)
| TrainLine (point1 point2 : loc) (z yaw : R) (current_frame : Z)
    (dense : bool)
| TestLine (point1 point2 : loc) (z yaw : R) (current_frame : Z).

Definition run_call (k : call) : M (list SequenceKey * Z) :=
  match k with
  | TrainBox line1 line2 z current_frame =>
      generate_train_box line1 line2 z current_frame
  | TestBox line1 line2 z current_frame =>
      generate_test_box line1 line2 z current_frame
  | TrainLine point1 point2 z yaw current_frame dense =>
      generate_train_line point1 point2 z yaw current_frame dense
  | TestLine point1 point2 z yaw current_frame =>
      generate_test_line point1 point2 z yaw current_frame
  end.

(** The cursor passed in. *)
Definition cursor_in (k : call) : Z :=
  match k with
  | TrainBox _ _ _ c | TestBox _ _ _ c
  | TrainLine _ _ _ _ c _ | TestLine _ _ _ _ c => c
  end.

(** The arguments are as the generator expects them: two aligned edges of
    four numbers each for a box, two points of the plane for a line. *)
Definition well_formed (s : State) (k : call) : Prop :=
  match k with
  | TrainBox line1 line2 _ _ | TestBox line1 line2 _ _ =>
      exists x1 x2 ya yb : R,
        heap s !! line1 = Some [x1; ya; x2; ya] /\
        heap s !! line2 = Some [x1; yb; x2; yb]
  | TrainLine point1 point2 _ _ _ _ | TestLine point1 point2 _ _ _ =>
      exists x1 y1 x2 y2 : R,
        heap s !! point1 = Some [x1; y1] /\
        heap s !! point2 = Some [x2; y2]
  end.

(** A store whose first edge is not horizontal. *)
Definition skew_heap : gmap loc (list R) :=
  <[2%positive := [0; 5; 10; 5]%R]> (<[1%positive := [0; 0; 10; 1]%R]> ∅).

(** The altitude a call is given. *)
Definition altitude (k : call) : R :=
  match k with
  | TrainBox _ _ z _ | TestBox _ _ z _
  | TrainLine _ _ z _ _ _ | TestLine _ _ z _ _ => z
  end.

(** The same call started at another cursor: what a caller does when it
    passes the cursor returned by one generator to the next. *)
Definition with_cursor (k : call) (c : Z) : call :=
  match k with
  | TrainBox line1 line2 z _ => TrainBox line1 line2 z c
  | TestBox line1 line2 z _ => TestBox line1 line2 z c
  | TrainLine point1 point2 z yaw _ dense =>
      TrainLine point1 point2 z yaw c dense
  | TestLine point1 point2 z yaw _ => TestLine point1 point2 z yaw c
  end.

(** ** What a call may change *)

(** A call that only consumes draws. *)
Definition draws_only (s s' : State) : Prop :=
  heap s' = heap s /\ rand_src s' = rand_src s /\
  (rand_pos s <= rand_pos s')%nat.

(** A call that consumes draws and writes to the objects [p1] and [p2]
    only. *)
Definition writes_only (p1 p2 : loc) (s s' : State) : Prop :=
  (forall l, l <> p1 -> l <> p2 -> heap s' !! l = heap s !! l) /\
  rand_src s' = rand_src s /\ (rand_pos s <= rand_pos s')%nat.

(** ** The sequencer session

    The functions that write keyframes into a transform section talk to the
    engine.  An engine object is modelled by what the code reads from it,
    and the calls that change the engine are recorded, in order, in a
    trace: a computation returns the calls it made together with either an
    exception or a result. *)

Inductive api_exn : Type :=
| Raised (e : exn)
| AttributeError
| ZeroDivisionError.

(** [unreal.FrameRate]: the two integers the code reads. *)
Record FrameRate : Type := mkFrameRate {
  numerator : Z;
  denominator : Z
}.

(** [unreal.AnimSequence]: the editor properties the code reads. *)
Record AnimSequence : Type := mkAnimSequence {
  number_of_sampled_frames : Z;
  target_frame_rate : FrameRate;
  sequence_length : R
}.

(** [round(x)]: the nearest integer, a tie going to the even one. *)
Definition py_round (x : R) : Z :=
  let f := Int_part x in
  if Rlt_dec (x - IZR f) (1 / 2) then f
  else if Rlt_dec (1 / 2) (x - IZR f) then f + 1
  else if Z.even f then f else f + 1.

Definition convert_frame_rate_to_fps (frame_rate : FrameRate)
  : api_exn + R :=
  if denominator frame_rate =? 0 then inl ZeroDivisionError
  else inr (fdiv (IZR (numerator frame_rate))
                 (IZR (denominator frame_rate))).

(** [seq_fps] is [None] or a number; [if seq_fps:] holds for a number other
    than zero. *)
Definition get_animation_length (animation_asset : AnimSequence)
    (seq_fps : option R) : api_exn + Z :=
  let anim_len := number_of_sampled_frames animation_asset in
  match seq_fps with
  | Some fps =>
      if negb (py_eq fps 0) then
        match convert_frame_rate_to_fps (target_frame_rate animation_asset)
        with
        | inl e => inl e
        | inr anim_frame_rate =>
            if negb (py_eq anim_frame_rate fps)
            then inr (py_round (fmul (sequence_length animation_asset) fps))
            else inr anim_len
        end
      else inr anim_len
  | None => inr anim_len
  end.

(** [unreal.MovieSceneScriptingChannel]: an object with a name. *)
Record Channel : Type := mkChannel {
  channel_id : nat;
  channel_name : string
}.

Definition channel_eqb (a b : Channel) : bool :=
  Nat.eqb (channel_id a) (channel_id b)
  && String.eqb (channel_name a) (channel_name b).

(** The six slots filled by the loop of
    [get_transform_channels_from_section]. *)
Record Slots : Type := mkSlots {
  channel_x : option Channel;
  channel_y : option Channel;
  channel_z : option Channel;
  channel_roll : option Channel;
  channel_pitch : option Channel;
  channel_yaw : option Channel
}.

(** The body of the loop, lines 43-54. *)
Definition pick_channel (slots : Slots) (channel : Channel) : Slots :=
  if String.eqb (channel_name channel) "Location.X" then
    mkSlots (Some channel) (channel_y slots) (channel_z slots)
      (channel_roll slots) (channel_pitch slots) (channel_yaw slots)
  else if String.eqb (channel_name channel) "Location.Y" then
    mkSlots (channel_x slots) (Some channel) (channel_z slots)
      (channel_roll slots) (channel_pitch slots) (channel_yaw slots)
  else if String.eqb (channel_name channel) "Location.Z" then
    mkSlots (channel_x slots) (channel_y slots) (Some channel)
      (channel_roll slots) (channel_pitch slots) (channel_yaw slots)
  else if String.eqb (channel_name channel) "Rotation.X" then
    mkSlots (channel_x slots) (channel_y slots) (channel_z slots)
      (Some channel) (channel_pitch slots) (channel_yaw slots)
  else if String.eqb (channel_name channel) "Rotation.Y" then
    mkSlots (channel_x slots) (channel_y slots) (channel_z slots)
      (channel_roll slots) (Some channel) (channel_yaw slots)
  else if String.eqb (channel_name channel) "Rotation.Z" then
    mkSlots (channel_x slots) (channel_y slots) (channel_z slots)
      (channel_roll slots) (channel_pitch slots) (Some channel)
  else slots.

(** A transform section is given by the list [get_channels()] returns. *)
Definition get_transform_channels_from_section (trans_section : list Channel)
  : api_exn + (Channel * Channel * Channel * Channel * Channel * Channel) :=
  let slots :=
    fold_left pick_channel trans_section
      (mkSlots None None None None None None) in
  match channel_x slots with
  | None => inl (Raised AssertionError)
  | Some cx =>
  match channel_y slots with
  | None => inl (Raised AssertionError)
  | Some cy =>
  match channel_z slots with
  | None => inl (Raised AssertionError)
  | Some cz =>
  match channel_roll slots with
  | None => inl (Raised AssertionError)
  | Some croll =>
  match channel_pitch slots with
  | None => inl (Raised AssertionError)
  | Some cpitch =>
  match channel_yaw slots with
  | None => inl (Raised AssertionError)
  | Some cyaw => inr (cx, cy, cz, croll, cpitch, cyaw)
  end end end end end end.

(** [a, b, c = xs] *)
Definition unpack3 (xs : list R) : api_exn + (R * R * R) :=
  match xs with
  | [a; b; c] => inr (a, b, c)
  | _ => inl (Raised ValueError)
  end.

Section SequencerModel.
(** [unreal.MovieSceneKeyInterpolation]: the members of the enumeration and
    the table from attribute names to members are the engine's. *)
Variable Interpolation : Type.
Variable key_interpolation : string -> option Interpolation.

(** A call that changes the engine:
    [channel.add_key(FrameNumber(frame), value, interpolation=...)]. *)
Inductive api_call : Type :=
| AddKey (channel : Channel) (key_frame : Z) (value : R)
    (interpolation : Interpolation).

Definition W (A : Type) : Type := list api_call * (api_exn + A).

Definition w_ret {A} (a : A) : W A := ([], inr a).

Definition w_lift {A} (r : api_exn + A) : W A := ([], r).

Definition w_bind {A B} (m : W A) (k : A -> W B) : W B :=
  match m with
  | (calls, inr a) => let '(calls', r) := k a in (calls ++ calls', r)
  | (calls, inl e) => (calls, inl e)
  end.

Definition add_key (channel : Channel) (key_frame : Z) (value : R)
    (interpolation : Interpolation) : W unit :=
  ([AddKey channel key_frame value interpolation], inr tt).

(** [getattr(unreal.MovieSceneKeyInterpolation, key_type)] *)
Definition getattr_interpolation (key_type : string)
  : api_exn + Interpolation :=
  match key_interpolation key_type with
  | Some i => inr i
  | None => inl AttributeError
  end.

Definition set_transform_by_section (trans_section : list Channel)
    (loc rot : list R) (key_frame : Z) (key_type : string) : W unit :=
  w_bind (w_lift (get_transform_channels_from_section trans_section))
    (fun '(channel_x, channel_y, channel_z,
           channel_roll, channel_pitch, channel_yaw) =>
  w_bind (w_lift (unpack3 loc)) (fun '(loc_x, loc_y, loc_z) =>
  w_bind (w_lift (unpack3 rot)) (fun '(rot_x, rot_y, rot_z) =>
  let key_frame_ := key_frame in
  w_bind (w_lift (getattr_interpolation key_type)) (fun key_type_ =>
  w_bind (add_key channel_x key_frame_ loc_x key_type_) (fun _ =>
  w_bind (add_key channel_y key_frame_ loc_y key_type_) (fun _ =>
  w_bind (add_key channel_z key_frame_ loc_z key_type_) (fun _ =>
  w_bind (add_key channel_roll key_frame_ rot_x key_type_) (fun _ =>
  w_bind (add_key channel_pitch key_frame_ rot_y key_type_) (fun _ =>
  add_key channel_yaw key_frame_ rot_z key_type_))))))))).

(** [for x in xs: body(x)] in the trace monad. *)
Fixpoint w_for_each {A} (xs : list A) (body : A -> W unit) : W unit :=
  match xs with
  | [] => w_ret tt
  | x :: xs' => w_bind (body x) (fun _ => w_for_each xs' body)
  end.

Definition set_transforms_by_section (trans_section : list Channel)
    (trans_keys : list SequenceKey) (key_type : string) : W unit :=
  w_bind (w_lift (get_transform_channels_from_section trans_section))
    (fun '(channel_x, channel_y, channel_z,
           channel_roll, channel_pitch, channel_yaw) =>
  w_bind (w_lift (getattr_interpolation key_type)) (fun key_type_ =>
  w_for_each trans_keys (fun trans_key =>
    let key_frame := frame trans_key in
    let '(loc_x, loc_y, loc_z) := location trans_key in
    let '(rot_x, rot_y, rot_z) := rotation trans_key in
    let key_time_ := key_frame in
    w_bind (add_key channel_x key_time_ loc_x key_type_) (fun _ =>
    w_bind (add_key channel_y key_time_ loc_y key_type_) (fun _ =>
    w_bind (add_key channel_z key_time_ loc_z key_type_) (fun _ =>
    w_bind (add_key channel_roll key_time_ rot_x key_type_) (fun _ =>
    w_bind (add_key channel_pitch key_time_ rot_y key_type_) (fun _ =>
    add_key channel_yaw key_time_ rot_z key_type_)))))))).

(** The keys one keyframe puts into the six channels, in the order of the
    calls. *)
Definition keyframe_calls
    (cs : Channel * Channel * Channel * Channel * Channel * Channel)
    (i : Interpolation) (k : SequenceKey) : list api_call :=
  let '(cx, cy, cz, croll, cpitch, cyaw) := cs in
  [ AddKey cx (frame k) (fst (fst (location k))) i;
    AddKey cy (frame k) (snd (fst (location k))) i;
    AddKey cz (frame k) (snd (location k)) i;
    AddKey croll (frame k) (fst (fst (rotation k))) i;
    AddKey cpitch (frame k) (snd (fst (rotation k))) i;
    AddKey cyaw (frame k) (snd (rotation k)) i ].

(** The frames of the keys a trace adds to one channel. *)
Definition channel_frames (c : Channel) (calls : list api_call) : list Z :=
  flat_map (fun call =>
              match call with
              | AddKey c' f _ _ => if channel_eqb c c' then [f] else []
              end) calls.

End SequencerModel.

(** The last channel of a section that carries a name. *)
Definition last_named (name : string) (trans_section : list Channel)
  : option Channel :=
  last (filter (fun ch => String.eqb (channel_name ch) name = true)
          trans_section).

(** [c] is the last channel of the section that carries the name. *)
Definition is_last_named (name : string) (trans_section : list Channel)
    (c : Channel) : Prop :=
  exists before after,
    trans_section = before ++ c :: after /\
    channel_name c = name /\
    Forall (fun ch => channel_name ch <> name) after.

(** The six channel names of a transform section. *)
Definition transform_channel_names : list string :=
  [ "Location.X"; "Location.Y"; "Location.Z";
    "Rotation.X"; "Rotation.Y"; "Rotation.Z" ]%string.

(** An interpolation table with the three key types the docstrings name,
    each standing for itself. *)
Definition documented_key_types (key_type : string) : option string :=
  if (String.eqb key_type "CONSTANT" || String.eqb key_type "LINEAR"
      || String.eqb key_type "AUTO")%bool
  then Some key_type else None.

(** A transform section with its six channels. *)
Definition camera_section : list Channel :=
  [ mkChannel 0 "Location.X"; mkChannel 1 "Location.Y";
    mkChannel 2 "Location.Z"; mkChannel 3 "Rotation.X";
    mkChannel 4 "Rotation.Y"; mkChannel 5 "Rotation.Z" ].

(** [set_transform_by_section] called with the location, rotation and frame
    of one keyframe. *)
Definition set_keyframe_by_section (Interpolation : Type)
    (key_interpolation : string -> option Interpolation)
    (trans_section : list Channel) (key_type : string) (k : SequenceKey)
  : W Interpolation unit :=
  set_transform_by_section Interpolation key_interpolation trans_section
    [fst (fst (location k)); snd (fst (location k)); snd (location k)]
    [fst (fst (rotation k)); snd (fst (rotation k)); snd (rotation k)]
    (frame k) key_type.

(** [respects Rel m]: the final state of [m] is related by [Rel] to its
    initial state, whatever that is. *)
Definition respects (Rel : State -> State -> Prop) {A} (m : M A) : Prop :=
  forall s, Rel s (fst (m s)).

(** ** Facts about sweeps *)

Section Sweep.
Variables (z : R) (dwell : Z).

Lemma sweep_cursor lanes c :
  snd (sweep z dwell lanes c) = c + Z.of_nat (length lanes) * (dwell + 1).
Proof.
  revert c. induction lanes as [|l ls IH]; intros c; simpl.
  - lia.
  - specialize (IH (c + dwell + 1)).
    destruct (sweep z dwell ls (c + dwell + 1)) as [ks c'] eqn:E.
    simpl in *. lia.
Qed.

Lemma sweep_length lanes c :
  length (fst (sweep z dwell lanes c)) = (2 * length lanes)%nat.
Proof.
  revert c. induction lanes as [|l ls IH]; intros c; simpl.
  - reflexivity.
  - specialize (IH (c + dwell + 1)).
    destruct (sweep z dwell ls (c + dwell + 1)) as [ks c'] eqn:E.
    simpl in *. lia.
Qed.

Lemma sweep_app l1 l2 c :
  sweep z dwell (l1 ++ l2) c =
  (fst (sweep z dwell l1 c)
     ++ fst (sweep z dwell l2 (snd (sweep z dwell l1 c))),
   snd (sweep z dwell l2 (snd (sweep z dwell l1 c)))).
Proof.
  revert c. induction l1 as [|l ls IH]; intros c; simpl.
  - destruct (sweep z dwell l2 c); reflexivity.
  - rewrite IH.
    destruct (sweep z dwell ls (c + dwell + 1)) as [ks c']. simpl.
    reflexivity.
Qed.

Lemma sweep_frames_bounds lanes c :
  0 <= dwell ->
  Forall (fun f => c <= f < snd (sweep z dwell lanes c))
         (frames (fst (sweep z dwell lanes c))).
Proof.
  intros Hd. revert c. induction lanes as [|l ls IH]; intros c; simpl.
  - constructor.
  - specialize (IH (c + dwell + 1)).
    pose proof (sweep_cursor ls (c + dwell + 1)) as Hc.
    destruct (sweep z dwell ls (c + dwell + 1)) as [ks c'] eqn:E.
    simpl in *. repeat constructor; simpl; try lia.
    eapply Forall_impl; [exact IH|]. simpl. intros f Hf. lia.
Qed.

Lemma sweep_frames_sorted lanes c :
  1 <= dwell ->
  StronglySorted Z.lt (frames (fst (sweep z dwell lanes c))).
Proof.
  intros Hd. revert c. induction lanes as [|l ls IH]; intros c; simpl.
  - constructor.
  - specialize (IH (c + dwell + 1)).
    pose proof (sweep_frames_bounds ls (c + dwell + 1) ltac:(lia)) as Hb.
    destruct (sweep z dwell ls (c + dwell + 1)) as [ks c'] eqn:E.
    simpl in *. constructor; [constructor; [exact IH|]|].
    + eapply Forall_impl; [exact Hb|]. simpl. intros f Hf. lia.
    + constructor; [lia|].
      eapply Forall_impl; [exact Hb|]. simpl. intros f Hf. lia.
Qed.

Lemma sweep_first l ls c :
  head (frames (fst (sweep z dwell (l :: ls) c))) = Some c.
Proof.
  simpl. destruct (sweep z dwell ls (c + dwell + 1)). reflexivity.
Qed.

Lemma sweep_last l ls c :
  last (frames (fst (sweep z dwell (l :: ls) c))) =
  Some (snd (sweep z dwell (l :: ls) c) - 1).
Proof.
  revert l c. induction ls as [|l' ls IH]; intros l c.
  - simpl. f_equal. lia.
  - specialize (IH l' (c + dwell + 1)).
    change (sweep z dwell (l :: l' :: ls) c) with
      (let '(ks, c') := sweep z dwell (l' :: ls) (c + dwell + 1) in
       (mkSequenceKey c (fst (lane_start l), snd (lane_start l), z)
          (lane_rot l)
        :: mkSequenceKey (c + dwell)
             (fst (lane_end l), snd (lane_end l), z) (lane_rot l)
        :: ks, c')).
    pose proof (sweep_length (l' :: ls) (c + dwell + 1)) as Hl.
    destruct (sweep z dwell (l' :: ls) (c + dwell + 1)) as [ks c'] eqn:E.
    simpl fst in *. simpl snd in *.
    destruct ks as [|k ks]; [simpl in Hl; lia|].
    exact IH.
Qed.

Lemma sweep_rotations lanes c :
  Forall (fun k => exists l, l ∈ lanes /\ rotation k = lane_rot l)
         (fst (sweep z dwell lanes c)).
Proof.
  revert c. induction lanes as [|l ls IH]; intros c; simpl.
  - constructor.
  - specialize (IH (c + dwell + 1)).
    destruct (sweep z dwell ls (c + dwell + 1)) as [ks c'] eqn:E.
    simpl in *.
    constructor; [exists l; split; [left|reflexivity]|].
    constructor; [exists l; split; [left|reflexivity]|].
    eapply Forall_impl; [exact IH|]. simpl.
    intros k (l0 & Hin & Hr). exists l0. split; [right; exact Hin|exact Hr].
Qed.

End Sweep.

(** ** Running the building blocks *)

Lemma py_getitem_samples {A} (g : Z -> A) (n i : Z) :
  0 <= i < n -> py_getitem (map g (seqZ 0 n)) i = inr (g i).
Proof.
  intros Hi. unfold py_getitem.
  destruct (Z.ltb_spec i 0) as [?|_]; [lia|].
  destruct (Z.ltb_spec i 0) as [?|_]; [lia|].
  change (map g (seqZ 0 n)) with (g <$> seqZ 0 n).
  rewrite list_lookup_fmap, lookup_seqZ_lt by lia.
  simpl. do 2 f_equal. lia.
Qed.

Lemma math_dist_plane x1 y1 x2 y2 :
  math_dist [x1; y1] [x2; y2] = inr (dist2 x1 y1 x2 y2).
Proof. reflexivity. Qed.

(** Rounding keeps the integers and their halves, zero among them, and
    the sign. *)
Lemma fl_IZR (n : Z) : Z.abs n <= 2 ^ 53 -> fl lib (IZR n) = IZR n.
Proof.
  intros Hn. pose proof (fl_exact lib n 0 Hn ltac:(lia)) as H.
  cbn [powerRZ] in H. rewrite Rmult_1_r in H. exact H.
Qed.

Lemma fl_half (n : Z) :
  Z.abs n <= 2 ^ 53 -> fl lib (IZR n / 2) = (IZR n / 2)%R.
Proof.
  intros Hn. pose proof (fl_exact lib n (-1) Hn ltac:(lia)) as H.
  replace (powerRZ 2 (-1)) with (/ 2)%R in H by (simpl; f_equal; lra).
  exact H.
Qed.

Lemma fl_0 : fl lib 0 = 0%R.
Proof. apply (fl_IZR 0). simpl. lia. Qed.

Lemma fl_nonneg x : (0 <= x)%R -> (0 <= fl lib x)%R.
Proof. intros Hx. rewrite <- fl_0. apply fl_monotone. exact Hx. Qed.

Lemma fsub_diag x : fsub x x = 0%R.
Proof. unfold fsub. rewrite Rminus_diag. apply fl_0. Qed.

Lemma fdiv_nonneg d k : (0 <= d)%R -> (0 < k)%R -> (0 <= fdiv d k)%R.
Proof.
  intros Hd Hk. apply fl_nonneg.
  apply Rmult_le_pos; [exact Hd|]. left. apply Rinv_0_lt_compat. exact Hk.
Qed.

Lemma dist2_nonneg x1 y1 x2 y2 : (0 <= dist2 x1 y1 x2 y2)%R.
Proof. apply norm_nonneg. Qed.

(** Along an axis [math.dist] is the absolute value of the one difference
    it computes. *)
Lemma dist2_horizontal x1 x2 y : dist2 x1 y x2 y = Rabs (fsub x1 x2).
Proof. unfold dist2. rewrite fsub_diag. apply norm_first. Qed.

Lemma dist2_vertical x y1 y2 : dist2 x y1 x y2 = Rabs (fsub y1 y2).
Proof. unfold dist2. rewrite fsub_diag. apply norm_second. Qed.

Lemma math_dist_nonneg p q d : math_dist p q = inr d -> (0 <= d)%R.
Proof.
  unfold math_dist. destruct (Nat.eqb _ _); [|discriminate].
  intros [= <-]. apply norm_nonneg.
Qed.

(** On a non-negative number [int] is the floor. *)
Lemma py_int_floor x : (0 <= x)%R -> py_int x = Int_part x /\ 0 <= py_int x.
Proof.
  intros Hx. unfold py_int. destruct (Rle_dec 0 x) as [_|?]; [|contradiction].
  split; [reflexivity|].
  destruct (base_Int_part x) as [_ Hlt].
  assert (H : (-1 < IZR (Int_part x))%R) by lra.
  apply lt_IZR in H. lia.
Qed.

Lemma py_int_quotient d k :
  (0 <= d)%R -> (0 < k)%R ->
  py_int (fdiv d k) = Int_part (fdiv d k) /\ 0 <= py_int (fdiv d k).
Proof. intros Hd Hk. apply py_int_floor. apply fdiv_nonneg; assumption. Qed.

(** A quotient that is an integer or half an integer is computed without
    rounding; [int] then gives its floor. *)
Lemma py_int_fdiv_exact d k m :
  (0 < k)%R -> 0 <= m <= 2 ^ 53 -> (2 * d = IZR m * k)%R ->
  fdiv d k = (IZR m / 2)%R /\ py_int (fdiv d k) = m / 2.
Proof.
  intros Hk Hm Hd.
  assert (Hq : (d / k = IZR m / 2)%R) by (field_simplify_eq; lra).
  assert (E : fdiv d k = (IZR m / 2)%R).
  { unfold fdiv. rewrite Hq. apply fl_half. lia. }
  split; [exact E|]. rewrite E.
  assert (Hpos : (0 <= IZR m / 2)%R).
  { assert (H0 : (0 <= IZR m)%R) by (apply IZR_le; lia). lra. }
  destruct (py_int_floor _ Hpos) as [-> _].
  symmetry. apply Int_part_spec.
  pose proof (Z.div_mod m 2 ltac:(lia)) as Hdm.
  pose proof (Z.mod_pos_bound m 2 ltac:(lia)) as Hb.
  assert (Hr : (IZR m = 2 * IZR (m / 2) + IZR (m `mod` 2))%R).
  { rewrite Hdm at 1. rewrite plus_IZR, mult_IZR. reflexivity. }
  assert (H1 : (0 <= IZR (m `mod` 2))%R) by (apply IZR_le; lia).
  assert (H2 : (IZR (m `mod` 2) <= 1)%R) by (apply IZR_le; lia).
  lra.
Qed.

Lemma box_lane_run xs ys xe ye z h rot i acc c s (pq : point * point) :
  py_getitem xs i = inr (fst (fst pq)) ->
  py_getitem ys i = inr (snd (fst pq)) ->
  py_getitem xe i = inr (fst (snd pq)) ->
  py_getitem ye i = inr (snd (snd pq)) ->
  box_lane xs ys xe ye z h rot i (acc, c) s =
  (s, inr ((acc ++ [mkSequenceKey c (fst (fst pq), snd (fst pq), z) rot])
             ++ [mkSequenceKey (c + h) (fst (snd pq), snd (snd pq), z) rot],
           c + h + 1)).
Proof.
  intros H1 H2 H3 H4. unfold box_lane, bind, lift, ret.
  rewrite H1, H2, H3, H4. reflexivity.
Qed.

Lemma test_box_lane_run xs ys xe ye z h i acc c s (pq : point * point) :
  py_getitem xs i = inr (fst (fst pq)) ->
  py_getitem ys i = inr (snd (fst pq)) ->
  py_getitem xe i = inr (fst (snd pq)) ->
  py_getitem ye i = inr (snd (snd pq)) ->
  let rot := (0%R, IZR (randint_of (-60) (-44) (rand_src s (rand_pos s))),
              IZR (randint_of 0 361 (rand_src s (S (rand_pos s))))) in
  test_box_lane xs ys xe ye z h i (acc, c) s =
  (mkState (heap s) (rand_src s) (S (S (rand_pos s))),
   inr ((acc ++ [mkSequenceKey c (fst (fst pq), snd (fst pq), z) rot])
          ++ [mkSequenceKey (c + h) (fst (snd pq), snd (snd pq), z) rot],
        c + h + 1)).
Proof.
  intros H1 H2 H3 H4 rot. unfold test_box_lane.
  unfold bind at 1. unfold np_random_randint at 1. cbn [Z.leb Z.compare].
  unfold bind at 1. unfold np_random_randint at 1.
  cbn [Z.leb Z.compare heap rand_src rand_pos].
  apply box_lane_run; assumption.
Qed.

Lemma for_each_box_lane xs ys xe ye z h rot (f : Z -> point * point)
    (idx : list Z) acc c s :
  (forall i, i ∈ idx ->
     py_getitem xs i = inr (fst (fst (f i))) /\
     py_getitem ys i = inr (snd (fst (f i))) /\
     py_getitem xe i = inr (fst (snd (f i))) /\
     py_getitem ye i = inr (snd (snd (f i)))) ->
  for_each idx (box_lane xs ys xe ye z h rot) (acc, c) s =
  (s, inr (acc ++ fst (sweep z h (fixed_lanes rot (map f idx)) c),
           snd (sweep z h (fixed_lanes rot (map f idx)) c))).
Proof.
  revert acc c. induction idx as [|i idx IH]; intros acc c Hget.
  - simpl. unfold ret. rewrite app_nil_r. reflexivity.
  - destruct (Hget i) as (H1 & H2 & H3 & H4); [left|].
    cbn [for_each]. unfold bind.
    rewrite (box_lane_run _ _ _ _ _ _ _ _ _ _ _ (f i) H1 H2 H3 H4).
    rewrite IH by (intros j Hj; apply Hget; right; exact Hj).
    cbn [map fixed_lanes sweep lane_start lane_end lane_rot].
    change (map (fun pq => mkLane (fst pq) (snd pq) rot) (map f idx))
      with (fixed_lanes rot (map f idx)).
    destruct (sweep z h (fixed_lanes rot (map f idx)) (c + h + 1))
      as [ks c'].
    cbn [fst snd]. rewrite <- !app_assoc. reflexivity.
Qed.

Lemma for_each_drawn_lane xs ys xe ye z h (f : Z -> point * point)
    (idx : list Z) acc c s :
  (forall i, i ∈ idx ->
     py_getitem xs i = inr (fst (fst (f i))) /\
     py_getitem ys i = inr (snd (fst (f i))) /\
     py_getitem xe i = inr (fst (snd (f i))) /\
     py_getitem ye i = inr (snd (snd (f i)))) ->
  for_each idx (test_box_lane xs ys xe ye z h) (acc, c) s =
  (consume (2 * length idx) s,
   inr (acc ++ fst (sweep z h
                      (drawn_lanes (rand_src s) (rand_pos s) (map f idx)) c),
        snd (sweep z h
               (drawn_lanes (rand_src s) (rand_pos s) (map f idx)) c))).
Proof.
  revert acc c s. induction idx as [|i idx IH]; intros acc c s Hget.
  - simpl. unfold ret, consume. rewrite app_nil_r.
    destruct s as [hp src pos]. simpl. rewrite Nat.add_0_r. reflexivity.
  - destruct (Hget i) as (H1 & H2 & H3 & H4); [left|].
    cbn [for_each]. unfold bind.
    rewrite (test_box_lane_run _ _ _ _ _ _ _ _ _ _ (f i) H1 H2 H3 H4).
    rewrite IH by (intros j Hj; apply Hget; right; exact Hj).
    cbn [map drawn_lanes sweep lane_start lane_end lane_rot
         heap rand_src rand_pos].
    destruct (sweep z h
                (drawn_lanes (rand_src s) (S (S (rand_pos s))) (map f idx))
                (c + h + 1)) as [ks c'].
    cbn [fst snd]. rewrite <- !app_assoc. unfold consume.
    cbn [heap rand_src rand_pos length].
    replace (rand_pos s + 2 * S (length idx))%nat
      with (S (S (rand_pos s)) + 2 * length idx)%nat by lia.
    reflexivity.
Qed.

Lemma py_eq_true a b : py_eq a b = true <-> a = b.
Proof.
  unfold py_eq. destruct (Req_dec_T a b); split; intros; congruence.
Qed.

(** The samples start at [start] and, from two samples on, end at [stop],
    the value numpy stores in the last cell. *)
Lemma linspace_at_first a b n : linspace_at a b n 0 = a.
Proof. unfold linspace_at. lra. Qed.


Lemma np_linspace_samples a b n :
  0 <= n -> np_linspace a b n = inr (map (linspace_at a b n) (seqZ 0 n)).
Proof.
  intros Hn. unfold np_linspace.
  destruct (Z.ltb_spec n 0); [lia|reflexivity].
Qed.

Lemma w_count_of_ge interval x11 y11 x12 y12 :
  (0 < interval)%R -> 2 <= w_count_of interval x11 y11 x12 y12.
Proof.
  intros Hk. unfold w_count_of.
  destruct (py_int_quotient (dist2 x11 y11 x12 y12) interval
              (dist2_nonneg _ _ _ _) Hk) as [_ H]. lia.
Qed.

Lemma h_count_of_ge interval x11 y11 x21 y21 :
  (0 < interval)%R -> 1 <= h_count_of interval x11 y11 x21 y21.
Proof.
  intros Hk. unfold h_count_of.
  destruct (py_int_quotient (dist2 x11 y11 x21 y21) interval
              (dist2_nonneg _ _ _ _) Hk) as [_ H]. lia.
Qed.

Lemma box_samples_getitem x11 y11 x12 y12 x21 y21 x22 y22 n i :
  i ∈ seqZ 0 n ->
  let f := fun i =>
    ((linspace_at x11 x12 n i, linspace_at y11 y12 n i),
     (linspace_at x21 x22 n i, linspace_at y21 y22 n i)) in
  py_getitem (map (linspace_at x11 x12 n) (seqZ 0 n)) i
    = inr (fst (fst (f i))) /\
  py_getitem (map (linspace_at y11 y12 n) (seqZ 0 n)) i
    = inr (snd (fst (f i))) /\
  py_getitem (map (linspace_at x21 x22 n) (seqZ 0 n)) i
    = inr (fst (snd (f i))) /\
  py_getitem (map (linspace_at y21 y22 n) (seqZ 0 n)) i
    = inr (snd (snd (f i))).
Proof.
  intros Hi f. apply elem_of_seqZ in Hi. subst f. cbn [fst snd].
  repeat split; apply py_getitem_samples; lia.
Qed.

(** What a box generator returns on an aligned pair of edges. *)
Lemma generate_train_box_run s line1 line2 x11 y11 x12 y12 x21 y21 x22 y22
    z c :
  heap s !! line1 = Some [x11; y11; x12; y12] ->
  heap s !! line2 = Some [x21; y21; x22; y22] ->
  y11 = y12 -> y21 = y22 -> x11 = x21 -> x12 = x22 ->
  generate_train_box line1 line2 z c s =
  (s, inr (yaw_passes z (h_count_of 4000 x11 y11 x21 y21)
             (IZR (box_pitch z))
             (box_points x11 y11 x12 y12 x21 y21 x22 y22
                (w_count_of 4000 x11 y11 x12 y12))
             [0; 90; 180; 270]%R c)).
Proof.
  intros H1 H2 Hy1 Hy2 Hx1 Hx2.
  pose proof (w_count_of_ge 4000 x11 y11 x12 y12 ltac:(lra)) as Hw.
  unfold generate_train_box, bind, deref, lift, py_assert, ret.
  rewrite H1. cbn [unpack4]. rewrite H2. cbn [unpack4].
  rewrite (proj2 (py_eq_true y11 y12) Hy1), (proj2 (py_eq_true y21 y22) Hy2),
    (proj2 (py_eq_true x11 x21) Hx1), (proj2 (py_eq_true x12 x22) Hx2).
  rewrite !math_dist_plane.
  fold (w_count_of 4000 x11 y11 x12 y12).
  fold (h_count_of 4000 x11 y11 x21 y21).
  fold (box_pitch z).
  rewrite !np_linspace_samples by lia.
  unfold py_range.
  set (f := fun i =>
    ((linspace_at x11 x12 (w_count_of 4000 x11 y11 x12 y12) i,
      linspace_at y11 y12 (w_count_of 4000 x11 y11 x12 y12) i),
     (linspace_at x21 x22 (w_count_of 4000 x11 y11 x12 y12) i,
      linspace_at y21 y22 (w_count_of 4000 x11 y11 x12 y12) i))).
  assert (Hget : forall i, i ∈ seqZ 0 (w_count_of 4000 x11 y11 x12 y12) ->
     py_getitem (map (linspace_at x11 x12 (w_count_of 4000 x11 y11 x12 y12))
                   (seqZ 0 (w_count_of 4000 x11 y11 x12 y12))) i
       = inr (fst (fst (f i))) /\
     py_getitem (map (linspace_at y11 y12 (w_count_of 4000 x11 y11 x12 y12))
                   (seqZ 0 (w_count_of 4000 x11 y11 x12 y12))) i
       = inr (snd (fst (f i))) /\
     py_getitem (map (linspace_at x21 x22 (w_count_of 4000 x11 y11 x12 y12))
                   (seqZ 0 (w_count_of 4000 x11 y11 x12 y12))) i
       = inr (fst (snd (f i))) /\
     py_getitem (map (linspace_at y21 y22 (w_count_of 4000 x11 y11 x12 y12))
                   (seqZ 0 (w_count_of 4000 x11 y11 x12 y12))) i
       = inr (snd (snd (f i)))).
  { intros i Hi. apply box_samples_getitem. exact Hi. }
  rewrite (for_each_box_lane _ _ _ _ _ _ _ f _ _ _ _ Hget).
  rewrite (for_each_box_lane _ _ _ _ _ _ _ f _ _ _ _ Hget).
  rewrite (for_each_box_lane _ _ _ _ _ _ _ f _ _ _ _ Hget).
  rewrite (for_each_box_lane _ _ _ _ _ _ _ f _ _ _ _ Hget).
  unfold box_points. fold f. cbn [yaw_passes].
  repeat destruct_sweep.
  rewrite app_nil_r, app_nil_l, <- !app_assoc. reflexivity.
Qed.

Lemma generate_test_box_run s line1 line2 x11 y11 x12 y12 x21 y21 x22 y22
    z c :
  heap s !! line1 = Some [x11; y11; x12; y12] ->
  heap s !! line2 = Some [x21; y21; x22; y22] ->
  y11 = y12 -> y21 = y22 -> x11 = x21 -> x12 = x22 ->
  generate_test_box line1 line2 z c s =
  (consume (2 * Z.to_nat (w_count_of 4501 x11 y11 x12 y12)) s,
   inr (sweep z (h_count_of 4501 x11 y11 x21 y21)
          (drawn_lanes (rand_src s) (rand_pos s)
             (box_points x11 y11 x12 y12 x21 y21 x22 y22
                (w_count_of 4501 x11 y11 x12 y12)))
          c)).
Proof.
  intros H1 H2 Hy1 Hy2 Hx1 Hx2.
  pose proof (w_count_of_ge 4501 x11 y11 x12 y12 ltac:(lra)) as Hw.
  unfold generate_test_box, bind, deref, lift, py_assert, ret.
  rewrite H1. cbn [unpack4]. rewrite H2. cbn [unpack4].
  rewrite (proj2 (py_eq_true y11 y12) Hy1), (proj2 (py_eq_true y21 y22) Hy2),
    (proj2 (py_eq_true x11 x21) Hx1), (proj2 (py_eq_true x12 x22) Hx2).
  rewrite !math_dist_plane.
  fold (w_count_of 4501 x11 y11 x12 y12).
  fold (h_count_of 4501 x11 y11 x21 y21).
  rewrite !np_linspace_samples by lia.
  unfold py_range.
  set (f := fun i =>
    ((linspace_at x11 x12 (w_count_of 4501 x11 y11 x12 y12) i,
      linspace_at y11 y12 (w_count_of 4501 x11 y11 x12 y12) i),
     (linspace_at x21 x22 (w_count_of 4501 x11 y11 x12 y12) i,
      linspace_at y21 y22 (w_count_of 4501 x11 y11 x12 y12) i))).
  rewrite (for_each_drawn_lane _ _ _ _ _ _ f)
    by (intros i Hi; apply box_samples_getitem; exact Hi).
  unfold box_points. fold f. rewrite length_seqZ.
  destruct_sweep. rewrite app_nil_l. reflexivity.
Qed.

Lemma ref_getitem_run p i s xs v :
  heap s !! p = Some xs -> py_getitem xs i = inr v ->
  ref_getitem p i s = (s, inr v).
Proof.
  intros Hp Hv. unfold ref_getitem, bind, deref, lift.
  rewrite Hp, Hv. reflexivity.
Qed.

Lemma ref_setitem_run p i v s xs xs' :
  heap s !! p = Some xs -> py_setitem xs i v = inr xs' ->
  ref_setitem p i v s =
  (mkState (<[p := xs']> (heap s)) (rand_src s) (rand_pos s), inr tt).
Proof.
  intros Hp Hv. unfold ref_setitem, bind, deref, lift.
  rewrite Hp, Hv. reflexivity.
Qed.

Lemma append_key_run acc c p z rot s x y rest :
  heap s !! p = Some (x :: y :: rest) ->
  append_key acc c p z rot s =
  (s, inr (acc ++ [mkSequenceKey c (x, y, z) rot])).
Proof.
  intros Hp. unfold append_key, bind.
  rewrite (ref_getitem_run p 0 s _ x Hp) by reflexivity.
  rewrite (ref_getitem_run p 1 s _ y Hp) by reflexivity.
  reflexivity.
Qed.

Lemma line_emission_run p1 p2 z yaw inst c s x1 y1 r1 x2 y2 r2 :
  heap s !! p1 = Some (x1 :: y1 :: r1) ->
  heap s !! p2 = Some (x2 :: y2 :: r2) ->
  line_emission p1 p2 z yaw inst c s =
  (s, inr (sweep z inst (line_lanes (x1, y1) (x2, y2) yaw) c)).
Proof.
  intros Hp1 Hp2. unfold line_emission, bind.
  repeat (first [ rewrite (append_key_run _ _ p1 z _ s x1 y1 r1 Hp1)
                | rewrite (append_key_run _ _ p2 z _ s x2 y2 r2 Hp2) ]).
  unfold ret. cbn [line_lanes sweep lane_start lane_end lane_rot fst snd app].
  repeat (f_equal; try lia).
Qed.

Lemma instance_of_ge interval x1 y1 x2 y2 :
  (0 < interval)%R -> 1 <= instance_of interval x1 y1 x2 y2.
Proof.
  intros Hk. unfold instance_of.
  destruct (py_int_quotient (dist2 x1 y1 x2 y2) interval
              (dist2_nonneg _ _ _ _) Hk) as [_ H]. lia.
Qed.

Lemma generate_train_line_run s p1 p2 x1 y1 x2 y2 z yaw c dense :
  heap s !! p1 = Some [x1; y1] ->
  heap s !! p2 = Some [x2; y2] ->
  generate_train_line p1 p2 z yaw c dense s =
  (s, inr (sweep z
             (instance_of (if dense then 100 else 500) x1 y1 x2 y2)
             (line_lanes (x1, y1) (x2, y2) yaw) c)).
Proof.
  intros Hp1 Hp2. unfold generate_train_line, bind, deref, lift.
  rewrite Hp1, Hp2, math_dist_plane.
  rewrite (line_emission_run _ _ _ _ _ _ _ _ _ _ _ _ _ Hp1 Hp2).
  destruct dense; reflexivity.
Qed.

Lemma generate_test_line_run s p1 p2 x1 y1 x2 y2 z yaw c :
  p1 <> p2 ->
  heap s !! p1 = Some [x1; y1] ->
  heap s !! p2 = Some [x2; y2] ->
  let q1 := displaced_start x1 y1 yaw in
  let q2 := displaced_end x2 y2 yaw in
  let yaw' := randint_of 0 90 (rand_src s (rand_pos s)) in
  generate_test_line p1 p2 z yaw c s =
  (mkState (<[p2 := [fst q2; snd q2]]> (<[p1 := [fst q1; snd q1]]> (heap s)))
     (rand_src s) (S (rand_pos s)),
   inr (sweep z (instance_of 4830 (fst q1) (snd q1) (fst q2) (snd q2))
          (line_lanes q1 q2 (IZR yaw')) c)).
Proof.
  intros Hne Hp1 Hp2 q1 q2 yaw'. unfold generate_test_line.
  unfold bind at 1. rewrite (ref_getitem_run p1 0 s _ x1 Hp1) by reflexivity.
  unfold bind at 1.
  rewrite (ref_setitem_run p1 0 _ s _ [fst q1; y1] Hp1) by reflexivity.
  set (s1 := mkState (<[p1 := [fst q1; y1]]> (heap s)) (rand_src s)
               (rand_pos s)).
  assert (H11 : heap s1 !! p1 = Some [fst q1; y1])
    by (apply lookup_insert_eq).
  unfold bind at 1. rewrite (ref_getitem_run p1 1 s1 _ y1 H11) by reflexivity.
  unfold bind at 1.
  rewrite (ref_setitem_run p1 1 _ s1 _ [fst q1; snd q1] H11) by reflexivity.
  set (s2 := mkState (<[p1 := [fst q1; snd q1]]> (heap s1)) (rand_src s1)
               (rand_pos s1)).
  assert (H22 : heap s2 !! p2 = Some [x2; y2]).
  { subst s2 s1. cbn [heap]. rewrite !lookup_insert_ne by exact Hne.
    exact Hp2. }
  unfold bind at 1. rewrite (ref_getitem_run p2 0 s2 _ x2 H22) by reflexivity.
  unfold bind at 1.
  rewrite (ref_setitem_run p2 0 _ s2 _ [fst q2; y2] H22) by reflexivity.
  set (s3 := mkState (<[p2 := [fst q2; y2]]> (heap s2)) (rand_src s2)
               (rand_pos s2)).
  assert (H32 : heap s3 !! p2 = Some [fst q2; y2])
    by (apply lookup_insert_eq).
  unfold bind at 1. rewrite (ref_getitem_run p2 1 s3 _ y2 H32) by reflexivity.
  unfold bind at 1.
  rewrite (ref_setitem_run p2 1 _ s3 _ [fst q2; snd q2] H32) by reflexivity.
  set (s4 := mkState (<[p2 := [fst q2; snd q2]]> (heap s3)) (rand_src s3)
               (rand_pos s3)).
  unfold bind at 1. unfold np_random_randint at 1. cbn [Z.leb Z.compare].
  set (s5 := mkState (heap s4) (rand_src s4) (S (rand_pos s4))).
  assert (H52 : heap s5 !! p2 = Some [fst q2; snd q2])
    by (apply lookup_insert_eq).
  assert (H51 : heap s5 !! p1 = Some [fst q1; snd q1]).
  { subst s5 s4 s3 s2. cbn [heap].
    rewrite !lookup_insert_ne by (intros E; apply Hne; symmetry; exact E).
    apply lookup_insert_eq. }
  unfold bind, deref, lift. rewrite H51, H52, math_dist_plane.
  rewrite (line_emission_run _ _ _ _ _ _ _ _ _ _ _ _ _ H51 H52).
  fold (instance_of 4830 (fst q1) (snd q1) (fst q2) (snd q2)).
  assert (Hs5 : s5 = mkState
            (<[p2 := [fst q2; snd q2]]> (<[p1 := [fst q1; snd q1]]> (heap s)))
            (rand_src s) (S (rand_pos s))).
  { subst s5 s4 s3 s2 s1. cbn [heap rand_src rand_pos].
    rewrite !insert_insert_eq. reflexivity. }
  rewrite Hs5. subst yaw' s4 s3 s2 s1. cbn [rand_src rand_pos].
  destruct q1, q2. reflexivity.
Qed.

(** At yaw 0 the displacement is 570 units along x: nothing is rounded on
    integer coordinates. *)
Lemma displacement_yaw_0 :
  fmul (math_cos (math_radians 0)) 570 = 570%R /\
  fmul (math_sin (math_radians 0)) 570 = 0%R.
Proof.
  assert (E : math_radians 0 = 0%R).
  { unfold math_radians, fmul. rewrite Rmult_0_l. apply fl_0. }
  rewrite E. unfold math_cos, math_sin, fmul.
  rewrite libm_cos_0, libm_sin_0, Rmult_1_l, Rmult_0_l.
  split; [apply (fl_IZR 570); apply Z.leb_le; reflexivity|apply fl_0].
Qed.

Lemma displaced_start_yaw_0 (x y : Z) :
  Z.abs (x + 570) <= 2 ^ 53 -> Z.abs y <= 2 ^ 53 ->
  displaced_start (IZR x) (IZR y) 0 = (IZR (x + 570), IZR y).
Proof.
  intros Hx Hy. unfold displaced_start.
  destruct displacement_yaw_0 as [-> ->]. unfold fadd.
  rewrite <- plus_IZR, Rplus_0_r, !fl_IZR by assumption. reflexivity.
Qed.

(** ** Lanes and draws *)

Lemma yaw_passes_sweep z dwell pitch pts yaws c :
  yaw_passes z dwell pitch pts yaws c =
  sweep z dwell (train_box_lanes pitch pts yaws) c.
Proof.
  revert c. induction yaws as [|yaw rest IH]; intros c.
  - reflexivity.
  - unfold train_box_lanes. cbn [yaw_passes map concat].
    rewrite sweep_app.
    destruct (sweep z dwell (fixed_lanes (0%R, pitch, yaw) pts) c)
      as [ks1 c1].
    rewrite IH. unfold train_box_lanes. cbn [fst snd].
    destruct (sweep z dwell _ c1) as [ks2 c2]. reflexivity.
Qed.

Lemma length_fixed_lanes rot pts : length (fixed_lanes rot pts) = length pts.
Proof. unfold fixed_lanes. apply length_map. Qed.

Lemma length_box_points x11 y11 x12 y12 x21 y21 x22 y22 w :
  length (box_points x11 y11 x12 y12 x21 y21 x22 y22 w) = Z.to_nat w.
Proof. unfold box_points. rewrite length_map. apply length_seqZ. Qed.

Lemma length_train_box_lanes pitch pts yaws :
  length (train_box_lanes pitch pts yaws) = (length yaws * length pts)%nat.
Proof.
  unfold train_box_lanes. induction yaws as [|yaw rest IH]; simpl.
  - reflexivity.
  - rewrite length_app, length_fixed_lanes, IH. reflexivity.
Qed.

Lemma train_box_lanes_rot pitch pts yaws l :
  l ∈ train_box_lanes pitch pts yaws ->
  exists yaw, yaw ∈ yaws /\ lane_rot l = (0%R, pitch, yaw).
Proof.
  unfold train_box_lanes. induction yaws as [|yaw rest IH]; cbn [map concat].
  - intros Hl. inversion Hl.
  - intros Hl. apply elem_of_app in Hl. destruct Hl as [Hl|Hl].
    + unfold fixed_lanes in Hl. apply list_elem_of_fmap in Hl.
      destruct Hl as (pq & -> & _). exists yaw. split; [left|reflexivity].
    + destruct (IH Hl) as (yaw' & Hin & Hr). exists yaw'.
      split; [right; exact Hin|exact Hr].
Qed.

Lemma length_drawn_lanes src pos pts :
  length (drawn_lanes src pos pts) = length pts.
Proof.
  revert pos. induction pts as [|pq rest IH]; intros pos; simpl.
  - reflexivity.
  - rewrite IH. reflexivity.
Qed.

Lemma randint_of_range low high raw :
  low < high -> low <= randint_of low high raw < high.
Proof.
  intros H. unfold randint_of.
  pose proof (Z.mod_pos_bound raw (high - low) ltac:(lia)). lia.
Qed.

(** In every window of [high - low] consecutive raw draws each value of
    the range is the outcome of exactly one of them: a uniform raw source
    gives a uniform outcome. *)
Lemma randint_of_uniform low high k v :
  low <= v < high ->
  exists raw,
    k <= raw < k + (high - low) /\ randint_of low high raw = v /\
    forall raw', k <= raw' < k + (high - low) ->
                 randint_of low high raw' = v -> raw' = raw.
Proof.
  intros Hv. set (n := high - low). assert (Hn : 0 < n) by (subst n; lia).
  exists (k + (v - low - k) `mod` n).
  pose proof (Z.mod_pos_bound (v - low - k) n Hn) as Hb.
  split; [lia|]. split.
  - unfold randint_of. fold n. rewrite Zplus_mod_idemp_r.
    replace (k + (v - low - k)) with (v - low) by lia.
    rewrite Z.mod_small by (subst n; lia). lia.
  - intros raw' Hr' E. unfold randint_of in E. fold n in E.
    assert (E' : raw' `mod` n = (v - low) `mod` n)
      by (rewrite (Z.mod_small (v - low)) by (subst n; lia); lia).
    assert (E2 : (k + (v - low - k) `mod` n) `mod` n = (v - low) `mod` n).
    { rewrite Zplus_mod_idemp_r. f_equal. lia. }
    rewrite <- E2 in E'.
    set (raw := k + (v - low - k) `mod` n) in *.
    pose proof (Z.div_mod raw' n ltac:(lia)) as D1.
    pose proof (Z.div_mod raw n ltac:(lia)) as D2.
    rewrite E' in D1.
    assert (Hr : k <= raw < k + n) by (subst raw; lia).
    clear E2 E' Hb E.
    revert D1 D2. generalize (raw' / n) (raw / n) (raw `mod` n).
    intros q' q r D1 D2.
    assert (q' = q) by nia. subst q'. lia.
Qed.

(** Where lane [i] of a sweep lands in the keyframe list. *)
Lemma sweep_lookup z dwell lanes c (i : nat) l :
  lanes !! i = Some l ->
  fst (sweep z dwell lanes c) !! (2 * i)%nat =
    Some (mkSequenceKey (c + Z.of_nat i * (dwell + 1))
            (fst (lane_start l), snd (lane_start l), z) (lane_rot l)) /\
  fst (sweep z dwell lanes c) !! (2 * i + 1)%nat =
    Some (mkSequenceKey (c + Z.of_nat i * (dwell + 1) + dwell)
            (fst (lane_end l), snd (lane_end l), z) (lane_rot l)).
Proof.
  revert c i. induction lanes as [|l0 ls IH]; intros c i Hl.
  - discriminate.
  - cbn [sweep]. specialize (IH (c + dwell + 1)).
    destruct (sweep z dwell ls (c + dwell + 1)) as [ks c'].
    cbn [fst] in *. destruct i as [|i].
    + injection Hl as ->. simpl. split; do 2 f_equal; lia.
    + simpl in Hl. destruct (IH i Hl) as [E1 E2].
      replace (2 * S i)%nat with (S (S (2 * i))) by lia.
      replace (S (S (2 * i)) + 1)%nat with (S (S (2 * i + 1))) by lia.
      rewrite !lookup_cons. rewrite E1, E2.
      split; do 2 f_equal; lia.
Qed.

Lemma train_box_lanes_lookup pitch pts yaws (j i : nat) yaw pq :
  yaws !! j = Some yaw -> pts !! i = Some pq ->
  train_box_lanes pitch pts yaws !! (j * length pts + i)%nat =
  Some (mkLane (fst pq) (snd pq) (0%R, pitch, yaw)).
Proof.
  intros Hj Hi. unfold train_box_lanes.
  revert j Hj. induction yaws as [|y rest IH]; intros j Hj.
  - discriminate.
  - cbn [map concat]. destruct j as [|j].
    + injection Hj as ->. cbn [Nat.mul Nat.add].
      rewrite lookup_app_l
        by (rewrite length_fixed_lanes; eapply lookup_lt_Some; exact Hi).
      unfold fixed_lanes.
      change (map ?f pts) with (f <$> pts).
      rewrite list_lookup_fmap, Hi. reflexivity.
    + simpl in Hj. rewrite lookup_app_r
        by (rewrite length_fixed_lanes; lia).
      rewrite length_fixed_lanes.
      replace (S j * length pts + i - length pts)%nat
        with (j * length pts + i)%nat by lia.
      apply IH. exact Hj.
Qed.

(** ** The claims *)

(** C1. Box-pattern train generation.  On every aligned pair of edges, at
    every altitude and starting cursor, [generate_train_box] returns without
    touching the state, and its keyframes are one full sweep of the
    [w_count] lanes per yaw value 0, 90, 180, 270, in that order.  In a
    sweep each lane emits its start point at the cursor, advances the cursor
    by [h_count], emits its end point with the same rotation and advances
    the cursor by one.  Every rotation is (0, pitch, yaw) with one pitch
    throughout, and there are exactly 4 x [w_count] x 2 keyframes.  The
    counts are the generator's own: [int] of the quotient of the width,
    respectively the height, that [math.dist] returns by 4000, plus two,
    respectively one. *)
Theorem generate_train_box_pattern s line1 line2
    x11 y11 x12 y12 x21 y21 x22 y22 z c :
  heap s !! line1 = Some [x11; y11; x12; y12] ->
  heap s !! line2 = Some [x21; y21; x22; y22] ->
  y11 = y12 -> y21 = y22 -> x11 = x21 -> x12 = x22 ->
  let w_count := w_count_of 4000 x11 y11 x12 y12 in
  let h_count := h_count_of 4000 x11 y11 x21 y21 in
  let pitch := IZR (box_pitch z) in
  let pts := box_points x11 y11 x12 y12 x21 y21 x22 y22 w_count in
  exists keys c',
    generate_train_box line1 line2 z c s = (s, inr (keys, c')) /\
    (keys, c') = yaw_passes z h_count pitch pts [0; 90; 180; 270]%R c /\
    length pts = Z.to_nat w_count /\
    Z.of_nat (length keys) = 4 * w_count * 2 /\
    c' = c + 4 * w_count * (h_count + 1) /\
    Forall (fun k => exists yaw, yaw ∈ [0; 90; 180; 270]%R /\
                                 rotation k = (0%R, pitch, yaw)) keys /\
    (forall (j i : nat) yaw pq,
       [0; 90; 180; 270]%R !! j = Some yaw -> pts !! i = Some pq ->
       let n := (j * Z.to_nat w_count + i)%nat in
       keys !! (2 * n)%nat =
         Some (mkSequenceKey (c + Z.of_nat n * (h_count + 1))
                 (fst (fst pq), snd (fst pq), z) (0%R, pitch, yaw)) /\
       keys !! (2 * n + 1)%nat =
         Some (mkSequenceKey (c + Z.of_nat n * (h_count + 1) + h_count)
                 (fst (snd pq), snd (snd pq), z) (0%R, pitch, yaw))).
Proof.
  intros H1 H2 Hy1 Hy2 Hx1 Hx2 w_count h_count pitch pts.
  pose proof (w_count_of_ge 4000 x11 y11 x12 y12 ltac:(lra)) as Hw.
  fold w_count in Hw.
  rewrite (generate_train_box_run s line1 line2 _ _ _ _ _ _ _ _ z c
             H1 H2 Hy1 Hy2 Hx1 Hx2).
  fold w_count h_count pitch pts.
  assert (Hlen : length pts = Z.to_nat w_count)
    by apply length_box_points.
  rewrite yaw_passes_sweep.
  pose proof (sweep_length z h_count
                (train_box_lanes pitch pts [0; 90; 180; 270]%R) c) as Hkl.
  pose proof (sweep_cursor z h_count
                (train_box_lanes pitch pts [0; 90; 180; 270]%R) c) as Hcur.
  pose proof (sweep_rotations z h_count
                (train_box_lanes pitch pts [0; 90; 180; 270]%R) c) as Hrot.
  pose proof (fun i l => sweep_lookup z h_count
                (train_box_lanes pitch pts [0; 90; 180; 270]%R) c i l)
    as Hlook.
  rewrite length_train_box_lanes in Hkl, Hcur. cbn [length] in Hkl, Hcur.
  destruct (sweep z h_count
              (train_box_lanes pitch pts [0; 90; 180; 270]%R) c)
    as [keys c'].
  cbn [fst snd] in *.
  exists keys, c'.
  split; [reflexivity|]. split; [reflexivity|]. split; [exact Hlen|].
  split; [rewrite Hkl, Hlen; lia|]. split; [rewrite Hcur, Hlen; lia|].
  split.
  - eapply Forall_impl; [exact Hrot|]. cbn beta.
    intros k (l & Hl & Hr). apply train_box_lanes_rot in Hl.
    destruct Hl as (yaw & Hyaw & Hl). exists yaw.
    split; [exact Hyaw|congruence].
  - intros j i yaw pq Hj Hi. rewrite <- Hlen.
    apply (Hlook _ _ (train_box_lanes_lookup pitch pts _ j i yaw pq Hj Hi)).
Qed.

(** C2. The concrete box-train scenario: edges (-100000,0,-12000,0) and
    (-100000,38000,-12000,38000), altitude 15000, starting cursor 0.  The
    pitch is -45, the width 88000, the height 38000, hence 24 lanes and a
    dwell of 10 with the interval 4000; 192 keyframes are emitted and the
    returned cursor is 1056. *)
Theorem generate_train_box_block1 (src : nat -> Z) (pos : nat) :
  let s := mkState block1_heap src pos in
  box_pitch 15000 = -45 /\
  dist2 (-100000) 0 (-12000) 0 = 88000%R /\
  dist2 (-100000) 0 (-100000) 38000 = 38000%R /\
  w_count_of 4000 (-100000) 0 (-12000) 0 = 24 /\
  h_count_of 4000 (-100000) 0 (-100000) 38000 = 10 /\
  exists keys,
    generate_train_box 1%positive 2%positive 15000 0 s = (s, inr (keys, 1056))
    /\ length keys = 192%nat
    /\ Forall (fun k => snd (fst (rotation k)) = (-45)%R) keys.
Proof.
  intros s.
  assert (Hp : box_pitch 15000 = -45).
  { unfold box_pitch. destruct (Rgt_dec 15000 25000); [lra|reflexivity]. }
  assert (Hwd : dist2 (-100000) 0 (-12000) 0 = 88000%R).
  { rewrite dist2_horizontal. unfold fsub.
    replace (-100000 - -12000)%R with (-88000)%R by lra.
    rewrite fl_IZR by (apply Z.leb_le; reflexivity).
    rewrite Rabs_left1 by lra. lra. }
  assert (Hhd : dist2 (-100000) 0 (-100000) 38000 = 38000%R).
  { rewrite dist2_vertical. unfold fsub.
    replace (0 - 38000)%R with (-38000)%R by lra.
    rewrite fl_IZR by (apply Z.leb_le; reflexivity).
    rewrite Rabs_left1 by lra. lra. }
  assert (Hw : w_count_of 4000 (-100000) 0 (-12000) 0 = 24).
  { unfold w_count_of. rewrite Hwd.
    destruct (py_int_fdiv_exact 88000 4000 44) as [_ ->];
      [lra|split; [lia|apply Z.leb_le; reflexivity]|lra|reflexivity]. }
  assert (Hh : h_count_of 4000 (-100000) 0 (-100000) 38000 = 10).
  { unfold h_count_of. rewrite Hhd.
    destruct (py_int_fdiv_exact 38000 4000 19) as [_ ->];
      [lra|split; [lia|apply Z.leb_le; reflexivity]|lra|reflexivity]. }
  do 5 (split; [assumption|]).
  assert (H1 : heap s !! 1%positive = Some [-100000; 0; -12000; 0]%R).
  { subst s. unfold block1_heap. cbn [heap].
    rewrite lookup_insert_ne by discriminate. apply lookup_insert_eq. }
  assert (H2 : heap s !! 2%positive = Some [-100000; 38000; -12000; 38000]%R).
  { subst s. unfold block1_heap. cbn [heap]. apply lookup_insert_eq. }
  rewrite (generate_train_box_run s 1%positive 2%positive _ _ _ _ _ _ _ _
             15000 0 H1 H2 eq_refl eq_refl eq_refl eq_refl).
  rewrite Hw, Hh, Hp, yaw_passes_sweep.
  set (lanes := train_box_lanes (-45) _ _).
  pose proof (sweep_length 15000 10 lanes 0) as Hkl.
  pose proof (sweep_cursor 15000 10 lanes 0) as Hcur.
  pose proof (sweep_rotations 15000 10 lanes 0) as Hrot.
  assert (Hll : length lanes = 96%nat).
  { subst lanes. rewrite length_train_box_lanes, length_box_points.
    reflexivity. }
  rewrite Hll in Hkl, Hcur.
  destruct (sweep 15000 10 lanes 0) as [keys c']. cbn [fst snd] in *.
  exists keys. split; [|split].
  - rewrite Hcur. reflexivity.
  - rewrite Hkl. reflexivity.
  - eapply Forall_impl; [exact Hrot|]. cbn beta.
    intros k (l & Hl & Hr). apply train_box_lanes_rot in Hl.
    destruct Hl as (yaw & _ & Hl). rewrite Hr, Hl. reflexivity.
Qed.

Lemma block1_line1 src pos :
  heap (mkState block1_heap src pos) !! 1%positive
  = Some [-100000; 0; -12000; 0]%R.
Proof.
  unfold block1_heap. cbn [heap].
  rewrite lookup_insert_ne by discriminate. apply lookup_insert_eq.
Qed.

Lemma block1_line2 src pos :
  heap (mkState block1_heap src pos) !! 2%positive
  = Some [-100000; 38000; -12000; 38000]%R.
Proof. unfold block1_heap. cbn [heap]. apply lookup_insert_eq. Qed.

Lemma street_point1 src pos :
  heap (mkState street_heap src pos) !! 1%positive = Some [0; 0]%R.
Proof.
  unfold street_heap. cbn [heap].
  rewrite lookup_insert_ne by discriminate. apply lookup_insert_eq.
Qed.

Lemma street_point2 src pos :
  heap (mkState street_heap src pos) !! 2%positive = Some [1000; 0]%R.
Proof. unfold street_heap. cbn [heap]. apply lookup_insert_eq. Qed.

Lemma sweep_line_lanes z inst p1 p2 yaw c :
  sweep z inst (line_lanes p1 p2 yaw) c =
  ([ mkSequenceKey c (fst p1, snd p1, z) (0, 0, yaw)%R;
     mkSequenceKey (c + inst) (fst p2, snd p2, z) (0, 0, yaw)%R;
     mkSequenceKey (c + (inst + 1)) (fst p1, snd p1, z)
       (0%R, 0%R, fadd 90 yaw);
     mkSequenceKey (c + (inst + 1) + inst) (fst p2, snd p2, z)
       (0%R, 0%R, fadd 90 yaw);
     mkSequenceKey (c + 2 * (inst + 1)) (fst p1, snd p1, z)
       (0%R, 0%R, fadd 180 yaw);
     mkSequenceKey (c + 2 * (inst + 1) + inst) (fst p2, snd p2, z)
       (0%R, 0%R, fadd 180 yaw);
     mkSequenceKey (c + 3 * (inst + 1)) (fst p1, snd p1, z)
       (0%R, 0%R, fadd 270 yaw);
     mkSequenceKey (c + 3 * (inst + 1) + inst) (fst p2, snd p2, z)
       (0%R, 0%R, fadd 270 yaw);
     mkSequenceKey (c + 4 * (inst + 1)) (fst p1, snd p1, z) (0, 90, yaw)%R;
     mkSequenceKey (c + 4 * (inst + 1) + inst) (fst p2, snd p2, z)
       (0, 90, yaw)%R ],
   c + 5 * (inst + 1)).
Proof.
  unfold line_lanes. cbn [sweep lane_start lane_end lane_rot].
  repeat (f_equal; try lia).
Qed.

(** C3. Line-pattern train generation.  For every pair of endpoints,
    altitude, base yaw and starting cursor, [generate_train_line] leaves the
    state alone and emits exactly ten keyframes: five point1/point2 pairs,
    with rotations (0,0,yaw), (0,0,90+yaw), (0,0,180+yaw), (0,0,270+yaw) and
    (0,90,yaw).  No pose has pitch -90.  The two keyframes of a pair share
    rotation and altitude; the cursor advances by [instance] after a point1
    keyframe and by one after a point2 keyframe, [instance] being [int] of
    the quotient of the distance [math.dist] returns by the interval, plus
    one.  On the segment from (0,0)
    to (1000,0) at altitude 300, yaw 0, sparse, from cursor 0: the distance
    is 1000, [instance] is 3 and the returned cursor is 20. *)
Theorem generate_train_line_pattern :
  (forall s p1 p2 (x1 y1 x2 y2 z yaw : R) (c : Z) (dense : bool),
     heap s !! p1 = Some [x1; y1] ->
     heap s !! p2 = Some [x2; y2] ->
     let inst := instance_of (if dense then 100 else 500) x1 y1 x2 y2 in
     exists keys,
       generate_train_line p1 p2 z yaw c dense s
       = (s, inr (keys, c + 5 * (inst + 1))) /\
       keys =
       [ mkSequenceKey c (x1, y1, z) (0, 0, yaw)%R;
         mkSequenceKey (c + inst) (x2, y2, z) (0, 0, yaw)%R;
         mkSequenceKey (c + (inst + 1)) (x1, y1, z)
           (0%R, 0%R, fadd 90 yaw);
         mkSequenceKey (c + (inst + 1) + inst) (x2, y2, z)
           (0%R, 0%R, fadd 90 yaw);
         mkSequenceKey (c + 2 * (inst + 1)) (x1, y1, z)
           (0%R, 0%R, fadd 180 yaw);
         mkSequenceKey (c + 2 * (inst + 1) + inst) (x2, y2, z)
           (0%R, 0%R, fadd 180 yaw);
         mkSequenceKey (c + 3 * (inst + 1)) (x1, y1, z)
           (0%R, 0%R, fadd 270 yaw);
         mkSequenceKey (c + 3 * (inst + 1) + inst) (x2, y2, z)
           (0%R, 0%R, fadd 270 yaw);
         mkSequenceKey (c + 4 * (inst + 1)) (x1, y1, z) (0, 90, yaw)%R;
         mkSequenceKey (c + 4 * (inst + 1) + inst) (x2, y2, z)
           (0, 90, yaw)%R ] /\
       length keys = 10%nat /\
       Forall (fun k => snd (fst (rotation k)) <> (-90)%R) keys)
  /\
  (forall src pos,
     let s := mkState street_heap src pos in
     dist2 0 0 1000 0 = 1000%R /\
     instance_of 500 0 0 1000 0 = 3 /\
     exists keys,
       generate_train_line 1%positive 2%positive 300 0 0 false s
       = (s, inr (keys, 20)) /\
       length keys = 10%nat).
Proof.
  split.
  - intros s p1 p2 x1 y1 x2 y2 z yaw c dense Hp1 Hp2 inst.
    rewrite (generate_train_line_run s p1 p2 x1 y1 x2 y2 z yaw c dense
               Hp1 Hp2).
    fold inst. rewrite sweep_line_lanes. cbn [fst snd].
    eexists. split; [reflexivity|]. split; [reflexivity|].
    split; [reflexivity|].
    repeat constructor; cbn [rotation fst snd]; lra.
  - intros src pos s.
    assert (Hd : dist2 0 0 1000 0 = 1000%R).
    { rewrite dist2_horizontal. unfold fsub.
      replace (0 - 1000)%R with (-1000)%R by lra.
      rewrite fl_IZR by (apply Z.leb_le; reflexivity).
      rewrite Rabs_left1 by lra. lra. }
    assert (Hi : instance_of 500 0 0 1000 0 = 3).
    { unfold instance_of. rewrite Hd.
      destruct (py_int_fdiv_exact 1000 500 4) as [_ ->];
        [lra|split; [lia|apply Z.leb_le; reflexivity]|lra|reflexivity]. }
    split; [exact Hd|]. split; [exact Hi|].
    rewrite (generate_train_line_run s 1%positive 2%positive 0 0 1000 0
               300 0 0 false (street_point1 _ _) (street_point2 _ _)).
    rewrite Hi, sweep_line_lanes.
    eexists. split; reflexivity.
Qed.

Lemma drawn_lanes_lookup src pos pts (i : nat) pq :
  pts !! i = Some pq ->
  drawn_lanes src pos pts !! i =
  Some (mkLane (fst pq) (snd pq)
          (0%R, IZR (randint_of (-60) (-44) (src (pos + 2 * i)%nat)),
           IZR (randint_of 0 361 (src (pos + 2 * i + 1)%nat)))).
Proof.
  revert pos i. induction pts as [|pq0 rest IH]; intros pos i Hi.
  - discriminate.
  - destruct i as [|i].
    + injection Hi as ->. cbn [drawn_lanes]. rewrite lookup_cons.
      replace (pos + 2 * 0)%nat with pos by lia.
      replace (pos + 1)%nat with (S pos) by lia. reflexivity.
    + simpl in Hi. cbn [drawn_lanes]. rewrite lookup_cons.
      rewrite (IH (S (S pos)) i Hi).
      replace (S (S pos) + 2 * i)%nat with (pos + 2 * S i)%nat by lia.
      reflexivity.
Qed.

(** C4. Box-pattern test generation.  On every aligned pair of edges and
    every starting cursor, [generate_test_box] makes a single pass over the
    [w_count] lanes, so it emits exactly 2 x [w_count] keyframes; the counts
    come from the interval 4501 and the distances [math.dist] returns.
    Lane [i] draws one pitch from the integers of [-60, -44) and then one
    yaw from the integers 0..360, every value of either range being the
    outcome of exactly one raw draw in every window of consecutive raw
    draws as long as the range, and both keyframes of the lane carry that
    pair.  The cursor advances by [h_count] and then by one per lane; two
    draws are consumed per lane and the store is left alone. *)
Theorem generate_test_box_pattern s line1 line2
    x11 y11 x12 y12 x21 y21 x22 y22 z c :
  heap s !! line1 = Some [x11; y11; x12; y12] ->
  heap s !! line2 = Some [x21; y21; x22; y22] ->
  y11 = y12 -> y21 = y22 -> x11 = x21 -> x12 = x22 ->
  let w_count := w_count_of 4501 x11 y11 x12 y12 in
  let h_count := h_count_of 4501 x11 y11 x21 y21 in
  let pts := box_points x11 y11 x12 y12 x21 y21 x22 y22 w_count in
  let lanes := drawn_lanes (rand_src s) (rand_pos s) pts in
  exists keys c',
    generate_test_box line1 line2 z c s
    = (consume (2 * Z.to_nat w_count) s, inr (keys, c')) /\
    (keys, c') = sweep z h_count lanes c /\
    length lanes = Z.to_nat w_count /\
    Z.of_nat (length keys) = 2 * w_count /\
    c' = c + w_count * (h_count + 1) /\
    (forall (i : nat) pq,
       pts !! i = Some pq ->
       exists pitch yaw : Z,
         pitch = randint_of (-60) (-44)
                   (rand_src s (rand_pos s + 2 * i)%nat) /\
         yaw = randint_of 0 361 (rand_src s (rand_pos s + 2 * i + 1)%nat) /\
         -60 <= pitch < -44 /\ 0 <= yaw <= 360 /\
         keys !! (2 * i)%nat =
           Some (mkSequenceKey (c + Z.of_nat i * (h_count + 1))
                   (fst (fst pq), snd (fst pq), z)
                   (0%R, IZR pitch, IZR yaw)) /\
         keys !! (2 * i + 1)%nat =
           Some (mkSequenceKey (c + Z.of_nat i * (h_count + 1) + h_count)
                   (fst (snd pq), snd (snd pq), z)
                   (0%R, IZR pitch, IZR yaw))) /\
    (forall v k, -60 <= v < -44 ->
       exists raw, k <= raw < k + 16 /\ randint_of (-60) (-44) raw = v /\
         forall raw', k <= raw' < k + 16 ->
                      randint_of (-60) (-44) raw' = v -> raw' = raw)
    /\
    (forall v k, 0 <= v <= 360 ->
       exists raw, k <= raw < k + 361 /\ randint_of 0 361 raw = v /\
         forall raw', k <= raw' < k + 361 ->
                      randint_of 0 361 raw' = v -> raw' = raw).
Proof.
  intros H1 H2 Hy1 Hy2 Hx1 Hx2 w_count h_count pts lanes.
  pose proof (w_count_of_ge 4501 x11 y11 x12 y12 ltac:(lra)) as Hw.
  fold w_count in Hw.
  rewrite (generate_test_box_run s line1 line2 _ _ _ _ _ _ _ _ z c
             H1 H2 Hy1 Hy2 Hx1 Hx2).
  fold w_count h_count pts lanes.
  assert (Hlen : length lanes = Z.to_nat w_count).
  { subst lanes. rewrite length_drawn_lanes. apply length_box_points. }
  pose proof (sweep_length z h_count lanes c) as Hkl.
  pose proof (sweep_cursor z h_count lanes c) as Hcur.
  pose proof (fun i l => sweep_lookup z h_count lanes c i l) as Hlook.
  destruct (sweep z h_count lanes c) as [keys c'].
  cbn [fst snd] in Hkl, Hcur, Hlook.
  exists keys, c'.
  split; [reflexivity|]. split; [reflexivity|]. split; [exact Hlen|].
  split; [rewrite Hkl, Hlen; lia|]. split; [rewrite Hcur, Hlen; lia|].
  split; [|split].
  - intros i pq Hi.
    exists (randint_of (-60) (-44) (rand_src s (rand_pos s + 2 * i)%nat)),
           (randint_of 0 361 (rand_src s (rand_pos s + 2 * i + 1)%nat)).
    split; [reflexivity|]. split; [reflexivity|].
    pose proof (randint_of_range (-60) (-44)
                  (rand_src s (rand_pos s + 2 * i)%nat) ltac:(lia)).
    pose proof (randint_of_range 0 361
                  (rand_src s (rand_pos s + 2 * i + 1)%nat) ltac:(lia)).
    split; [lia|]. split; [lia|].
    apply (Hlook i _
             (drawn_lanes_lookup (rand_src s) (rand_pos s) pts i pq Hi)).
  - intros v k Hv. apply (randint_of_uniform (-60) (-44) k v). lia.
  - intros v k Hv. apply (randint_of_uniform 0 361 k v). lia.
Qed.

(** C5, amended.  On two distinct endpoint lists [x1; y1] and [x2; y2],
    [generate_test_line] first overwrites the first list with
    (x1, y1) + 570 (cos yaw, sin yaw) and the second with
    (x2, y2) - 570 (cos yaw, sin yaw), the yaw being read in degrees and
    the sums and products being those of the floats; it then replaces the
    yaw by one draw from the integers 0..89, every one of them the outcome
    of exactly one raw draw in every window of 90 consecutive raw draws;
    [instance] is the floor of the quotient of the distance [math.dist]
    returns on the displaced endpoints by 4830, plus one, hence at least
    one; and the ten keyframes are the five-orientation emission of the
    train line on the displaced endpoints, with that [instance] and the
    redrawn yaw. *)
Theorem generate_test_line_pattern s p1 p2 (x1 y1 x2 y2 z yaw : R) (c : Z) :
  p1 <> p2 ->
  heap s !! p1 = Some [x1; y1] ->
  heap s !! p2 = Some [x2; y2] ->
  let a := math_radians yaw in
  let q1 := (fadd x1 (fmul (math_cos a) 570),
             fadd y1 (fmul (math_sin a) 570)) in
  let q2 := (fsub x2 (fmul (math_cos a) 570),
             fsub y2 (fmul (math_sin a) 570)) in
  let yaw' := randint_of 0 90 (rand_src s (rand_pos s)) in
  let inst := instance_of 4830 (fst q1) (snd q1) (fst q2) (snd q2) in
  0 <= yaw' <= 89 /\
  (forall v k, 0 <= v <= 89 ->
     exists raw, k <= raw < k + 90 /\ randint_of 0 90 raw = v /\
       forall raw', k <= raw' < k + 90 ->
                    randint_of 0 90 raw' = v -> raw' = raw) /\
  math_dist [fst q1; snd q1] [fst q2; snd q2]
  = inr (dist2 (fst q1) (snd q1) (fst q2) (snd q2)) /\
  inst = Int_part (fdiv (dist2 (fst q1) (snd q1) (fst q2) (snd q2)) 4830) + 1
  /\ 1 <= inst /\
  exists s' keys,
    generate_test_line p1 p2 z yaw c s = (s', inr (keys, c + 5 * (inst + 1)))
    /\ heap s' = <[p2 := [fst q2; snd q2]]>
                   (<[p1 := [fst q1; snd q1]]> (heap s))
    /\ rand_pos s' = S (rand_pos s)
    /\ line_emission p1 p2 z (IZR yaw') inst c s'
       = (s', inr (keys, c + 5 * (inst + 1)))
    /\ keys = fst (sweep z inst (line_lanes q1 q2 (IZR yaw')) c)
    /\ length keys = 10%nat.
Proof.
  intros Hne Hp1 Hp2 a q1 q2 yaw' inst.
  pose proof (randint_of_range 0 90 (rand_src s (rand_pos s)) ltac:(lia))
    as Hyaw.
  fold yaw' in Hyaw.
  split; [lia|].
  split; [intros v k Hv; apply (randint_of_uniform 0 90 k v); lia|].
  split; [apply math_dist_plane|].
  split.
  { unfold inst, instance_of.
    destruct (py_int_quotient (dist2 (fst q1) (snd q1) (fst q2) (snd q2))
                4830 (dist2_nonneg _ _ _ _) ltac:(lra)) as [-> _].
    reflexivity. }
  split; [apply instance_of_ge; lra|].
  rewrite (generate_test_line_run s p1 p2 x1 y1 x2 y2 z yaw c Hne Hp1 Hp2).
  unfold displaced_start, displaced_end. fold a. fold q1 q2. fold inst.
  fold yaw'.
  eexists. eexists. split; [rewrite sweep_line_lanes; reflexivity|].
  split; [reflexivity|]. split; [reflexivity|].
  split; [|split; [rewrite sweep_line_lanes; reflexivity|reflexivity]].
  rewrite (line_emission_run p1 p2 z (IZR yaw') inst c _
             (fst q1) (snd q1) [] (fst q2) (snd q2) []).
  - rewrite sweep_line_lanes. reflexivity.
  - cbn [heap]. rewrite lookup_insert_ne
      by (intros E; apply Hne; symmetry; exact E).
    apply lookup_insert_eq.
  - cbn [heap]. apply lookup_insert_eq.
Qed.

(** C6. Sampler counts.  For every rectangular region and positive
    interval, the width and the height are what [math.dist] returns along
    the edges, [w_count] is the floor of the quotient width / interval plus
    2 and [h_count] the floor of the quotient height / interval plus 1, the
    quotients being those of the floats; so [w_count] is at least 2 and
    [h_count] at least 1, also on a region of zero width or height.  For
    every segment and positive interval, [instance] is the floor of the
    quotient distance / interval plus 1, hence at least 1; the train line
    generator uses the interval 100 when dense and 500 when sparse. *)
Theorem sample_counts :
  (forall interval x1 x2 ya yb : R,
     (0 < interval)%R ->
     let width := Rabs (fsub x1 x2) in
     let height := Rabs (fsub ya yb) in
     math_dist [x1; ya] [x2; ya] = inr width /\
     math_dist [x1; ya] [x1; yb] = inr height /\
     w_count_of interval x1 ya x2 ya = Int_part (fdiv width interval) + 2 /\
     2 <= w_count_of interval x1 ya x2 ya /\
     h_count_of interval x1 ya x1 yb = Int_part (fdiv height interval) + 1 /\
     1 <= h_count_of interval x1 ya x1 yb)
  /\
  (forall interval x1 y1 x2 y2 : R,
     (0 < interval)%R ->
     math_dist [x1; y1] [x2; y2] = inr (dist2 x1 y1 x2 y2) /\
     instance_of interval x1 y1 x2 y2
     = Int_part (fdiv (dist2 x1 y1 x2 y2) interval) + 1 /\
     1 <= instance_of interval x1 y1 x2 y2)
  /\
  (forall (interval : R) (p q : list R) (d : R),
     (0 < interval)%R ->
     math_dist p q = inr d ->
     py_int (fdiv d interval) + 1 = Int_part (fdiv d interval) + 1 /\
     1 <= py_int (fdiv d interval) + 1)
  /\
  (forall s p1 p2 (x1 y1 x2 y2 z yaw : R) (c : Z) (dense : bool),
     heap s !! p1 = Some [x1; y1] ->
     heap s !! p2 = Some [x2; y2] ->
     let interval := if dense then 100%R else 500%R in
     exists keys,
       generate_train_line p1 p2 z yaw c dense s
       = (s, inr (keys,
                  c + 5 * (Int_part (fdiv (dist2 x1 y1 x2 y2) interval)
                           + 1 + 1))))
  /\
  (forall s line1 line2 (x1 x2 ya yb z : R) (c : Z),
     heap s !! line1 = Some [x1; ya; x2; ya] ->
     heap s !! line2 = Some [x1; yb; x2; yb] ->
     let w_count := Int_part (fdiv (Rabs (fsub x1 x2)) 4000) + 2 in
     let h_count := Int_part (fdiv (Rabs (fsub ya yb)) 4000) + 1 in
     exists keys,
       generate_train_box line1 line2 z c s
       = (s, inr (keys, c + 4 * w_count * (h_count + 1))) /\
       Z.of_nat (length keys) = 4 * w_count * 2).
Proof.
  assert (Hbox : forall interval x1 x2 ya yb : R,
     (0 < interval)%R ->
     math_dist [x1; ya] [x2; ya] = inr (Rabs (fsub x1 x2)) /\
     math_dist [x1; ya] [x1; yb] = inr (Rabs (fsub ya yb)) /\
     w_count_of interval x1 ya x2 ya
     = Int_part (fdiv (Rabs (fsub x1 x2)) interval) + 2 /\
     2 <= w_count_of interval x1 ya x2 ya /\
     h_count_of interval x1 ya x1 yb
     = Int_part (fdiv (Rabs (fsub ya yb)) interval) + 1 /\
     1 <= h_count_of interval x1 ya x1 yb).
  { intros interval x1 x2 ya yb Hk.
    pose proof (dist2_horizontal x1 x2 ya) as Hw.
    pose proof (dist2_vertical x1 ya yb) as Hh.
    rewrite !math_dist_plane, Hw, Hh.
    split; [reflexivity|]. split; [reflexivity|].
    pose proof (w_count_of_ge interval x1 ya x2 ya Hk) as Hw2.
    pose proof (h_count_of_ge interval x1 ya x1 yb Hk) as Hh1.
    unfold w_count_of, h_count_of in *. rewrite Hw, Hh in *.
    destruct (py_int_quotient (Rabs (fsub x1 x2)) interval
                (Rabs_pos _) Hk) as [Ew _].
    destruct (py_int_quotient (Rabs (fsub ya yb)) interval
                (Rabs_pos _) Hk) as [Eh _].
    rewrite Ew, Eh in *. repeat split; (reflexivity || assumption). }
  split; [exact Hbox|]. split; [|split; [|split]].
  - intros interval x1 y1 x2 y2 Hk.
    split; [apply math_dist_plane|].
    pose proof (instance_of_ge interval x1 y1 x2 y2 Hk) as Hi.
    unfold instance_of in *.
    destruct (py_int_quotient (dist2 x1 y1 x2 y2) interval
                (dist2_nonneg _ _ _ _) Hk) as [E _].
    rewrite E in *. split; [reflexivity|assumption].
  - intros interval p q d Hk Hd.
    destruct (py_int_quotient d interval (math_dist_nonneg p q d Hd) Hk)
      as [E Hge].
    rewrite <- E. split; [reflexivity|lia].
  - intros s p1 p2 x1 y1 x2 y2 z yaw c dense Hp1 Hp2 interval.
    rewrite (generate_train_line_run s p1 p2 x1 y1 x2 y2 z yaw c dense
               Hp1 Hp2).
    rewrite sweep_line_lanes. eexists. do 3 f_equal.
    unfold instance_of. fold interval.
    assert (Hk : (0 < interval)%R) by (subst interval; destruct dense; lra).
    destruct (py_int_quotient (dist2 x1 y1 x2 y2) interval
                (dist2_nonneg _ _ _ _) Hk) as [-> _].
    reflexivity.
  - intros s line1 line2 x1 x2 ya yb z c H1 H2 w_count h_count.
    destruct (Hbox 4000%R x1 x2 ya yb ltac:(lra))
      as (_ & _ & Ew & Hw & Eh & _).
    fold w_count in Ew. fold h_count in Eh.
    rewrite (generate_train_box_run s line1 line2 _ _ _ _ _ _ _ _ z c
               H1 H2 eq_refl eq_refl eq_refl eq_refl).
    rewrite Ew, Eh, yaw_passes_sweep. rewrite Ew in Hw.
    set (lanes := train_box_lanes _ _ _).
    pose proof (sweep_length z h_count lanes c) as Hkl.
    pose proof (sweep_cursor z h_count lanes c) as Hcur.
    assert (Hll : length lanes = (4 * Z.to_nat w_count)%nat).
    { subst lanes. rewrite length_train_box_lanes, length_box_points.
      reflexivity. }
    rewrite Hll in Hkl, Hcur.
    destruct (sweep z h_count lanes c) as [keys c']. cbn [fst snd] in *.
    exists keys. split; [do 3 f_equal; lia|lia].
Qed.

(** ** The frames of any generator call *)

(** The test line on one list passed as both endpoints: the second pair of
    assignments subtracts from what the first pair wrote to the same
    object. *)
Lemma generate_test_line_run_aliased s p x y z yaw c :
  heap s !! p = Some [x; y] ->
  let q := (fsub (fadd x (fmul (math_cos (math_radians yaw)) 570))
                  (fmul (math_cos (math_radians yaw)) 570),
            fsub (fadd y (fmul (math_sin (math_radians yaw)) 570))
                  (fmul (math_sin (math_radians yaw)) 570)) in
  let yaw' := randint_of 0 90 (rand_src s (rand_pos s)) in
  generate_test_line p p z yaw c s =
  (mkState (<[p := [fst q; snd q]]> (heap s)) (rand_src s) (S (rand_pos s)),
   inr (sweep z (instance_of 4830 (fst q) (snd q) (fst q) (snd q))
          (line_lanes q q (IZR yaw')) c)).
Proof.
  intros Hp q yaw'. unfold generate_test_line.
  set (C := fmul (math_cos (math_radians yaw)) 570) in *.
  set (S' := fmul (math_sin (math_radians yaw)) 570) in *.
  unfold bind at 1. rewrite (ref_getitem_run p 0 s _ x Hp) by reflexivity.
  unfold bind at 1.
  rewrite (ref_setitem_run p 0 _ s _ [(fadd x C); y] Hp) by reflexivity.
  set (s1 := mkState (<[p := [(fadd x C); y]]> (heap s)) (rand_src s)
               (rand_pos s)).
  assert (H1 : heap s1 !! p = Some [(fadd x C); y])
    by (apply lookup_insert_eq).
  unfold bind at 1. rewrite (ref_getitem_run p 1 s1 _ y H1) by reflexivity.
  unfold bind at 1.
  rewrite (ref_setitem_run p 1 _ s1 _ [(fadd x C); (fadd y S')] H1)
    by reflexivity.
  set (s2 := mkState (<[p := [(fadd x C); (fadd y S')]]> (heap s1))
               (rand_src s1) (rand_pos s1)).
  assert (H2 : heap s2 !! p = Some [(fadd x C); (fadd y S')])
    by (apply lookup_insert_eq).
  unfold bind at 1.
  rewrite (ref_getitem_run p 0 s2 _ (fadd x C) H2) by reflexivity.
  unfold bind at 1.
  rewrite (ref_setitem_run p 0 _ s2 _ [fst q; (fadd y S')] H2) by reflexivity.
  set (s3 := mkState (<[p := [fst q; (fadd y S')]]> (heap s2)) (rand_src s2)
               (rand_pos s2)).
  assert (H3 : heap s3 !! p = Some [fst q; (fadd y S')])
    by (apply lookup_insert_eq).
  unfold bind at 1.
  rewrite (ref_getitem_run p 1 s3 _ (fadd y S') H3) by reflexivity.
  unfold bind at 1.
  rewrite (ref_setitem_run p 1 _ s3 _ [fst q; snd q] H3) by reflexivity.
  set (s4 := mkState (<[p := [fst q; snd q]]> (heap s3)) (rand_src s3)
               (rand_pos s3)).
  unfold bind at 1. unfold np_random_randint at 1. cbn [Z.leb Z.compare].
  set (s5 := mkState (heap s4) (rand_src s4) (S (rand_pos s4))).
  assert (H5 : heap s5 !! p = Some [fst q; snd q])
    by (apply lookup_insert_eq).
  unfold bind, deref, lift. rewrite H5. cbv beta iota.
  rewrite H5, math_dist_plane.
  rewrite (line_emission_run _ _ _ _ _ _ _ _ _ _ _ _ _ H5 H5).
  fold (instance_of 4830 (fst q) (snd q) (fst q) (snd q)).
  assert (Hs5 : s5 = mkState (<[p := [fst q; snd q]]> (heap s))
                       (rand_src s) (S (rand_pos s))).
  { subst s5 s4 s3 s2 s1. cbn [heap rand_src rand_pos].
    rewrite !insert_insert_eq. reflexivity. }
  rewrite Hs5. subst yaw' s4 s3 s2 s1. cbn [rand_src rand_pos].
  destruct q. reflexivity.
Qed.

(** Every well-formed call returns one sweep, of at least one lane and with
    a dwell of at least one frame, started at the cursor passed in. *)
Lemma run_call_sweep s k :
  well_formed s k ->
  exists s' z dwell lanes,
    1 <= dwell /\ (0 < length lanes)%nat /\
    run_call k s = (s', inr (sweep z dwell lanes (cursor_in k))).
Proof.
  destruct k as [l1 l2 z c|l1 l2 z c|p1 p2 z yaw c dense|p1 p2 z yaw c];
    cbn [well_formed run_call cursor_in].
  - intros (x1 & x2 & ya & yb & H1 & H2).
    rewrite (generate_train_box_run s l1 l2 _ _ _ _ _ _ _ _ z c
               H1 H2 eq_refl eq_refl eq_refl eq_refl).
    rewrite yaw_passes_sweep.
    pose proof (w_count_of_ge 4000 x1 ya x2 ya ltac:(lra)).
    pose proof (h_count_of_ge 4000 x1 ya x1 yb ltac:(lra)).
    do 4 eexists. split; [|split; [|reflexivity]]; [assumption|].
    rewrite length_train_box_lanes, length_box_points. cbn [length]. lia.
  - intros (x1 & x2 & ya & yb & H1 & H2).
    rewrite (generate_test_box_run s l1 l2 _ _ _ _ _ _ _ _ z c
               H1 H2 eq_refl eq_refl eq_refl eq_refl).
    pose proof (w_count_of_ge 4501 x1 ya x2 ya ltac:(lra)).
    pose proof (h_count_of_ge 4501 x1 ya x1 yb ltac:(lra)).
    do 4 eexists. split; [|split; [|reflexivity]]; [assumption|].
    rewrite length_drawn_lanes, length_box_points. lia.
  - intros (x1 & y1 & x2 & y2 & H1 & H2).
    rewrite (generate_train_line_run s p1 p2 x1 y1 x2 y2 z yaw c dense
               H1 H2).
    pose proof (instance_of_ge (if dense then 100 else 500) x1 y1 x2 y2
                  ltac:(destruct dense; lra)).
    do 4 eexists. split; [|split; [|reflexivity]]; [assumption|].
    cbn [line_lanes length]. lia.
  - intros (x1 & y1 & x2 & y2 & H1 & H2).
    destruct (decide (p1 = p2)) as [->|Hne].
    + rewrite (generate_test_line_run_aliased s p2 x1 y1 z yaw c H1).
      do 4 eexists. split; [|split; [|reflexivity]].
      * apply instance_of_ge. lra.
      * cbn [line_lanes length]. lia.
    + rewrite (generate_test_line_run s p1 p2 x1 y1 x2 y2 z yaw c
                 Hne H1 H2).
      do 4 eexists. split; [|split; [|reflexivity]].
      * apply instance_of_ge. lra.
      * cbn [line_lanes length]. lia.
Qed.

Lemma StronglySorted_lt_le (l : list Z) :
  StronglySorted Z.lt l -> StronglySorted Z.le l.
Proof.
  induction 1 as [|a l Hs IH Ha]; constructor.
  - exact IH.
  - eapply Forall_impl; [exact Ha|]. cbn beta. intros b Hb. lia.
Qed.

Lemma StronglySorted_lt_NoDup (l : list Z) :
  StronglySorted Z.lt l -> NoDup l.
Proof.
  induction 1 as [|a l Hs IH Ha]; constructor.
  - intros Hin. rewrite Forall_forall in Ha. specialize (Ha a Hin). lia.
  - exact IH.
Qed.

(** C7. Cursor monotonicity and frame order.  Every well-formed call of a
    generator, from a non-negative cursor, returns a cursor strictly above
    the one passed in; every emitted frame is a non-negative integer; the
    frames of the call are strictly increasing, hence non-decreasing and
    never shared between two keyframes, lanes or orientations. *)
Theorem run_call_frames_increase s k :
  well_formed s k ->
  0 <= cursor_in k ->
  exists s' keys c',
    run_call k s = (s', inr (keys, c')) /\
    cursor_in k < c' /\
    Forall (fun f => 0 <= f) (frames keys) /\
    StronglySorted Z.lt (frames keys) /\
    StronglySorted Z.le (frames keys) /\
    NoDup (frames keys).
Proof.
  intros Hwf Hc.
  destruct (run_call_sweep s k Hwf)
    as (s' & z & dwell & lanes & Hd & Hn & Hrun).
  rewrite Hrun.
  pose proof (sweep_cursor z dwell lanes (cursor_in k)) as Hcur.
  pose proof (sweep_frames_bounds z dwell lanes (cursor_in k) ltac:(lia))
    as Hb.
  pose proof (sweep_frames_sorted z dwell lanes (cursor_in k) Hd) as Hs.
  destruct (sweep z dwell lanes (cursor_in k)) as [keys c'].
  cbn [fst snd] in *.
  exists s', keys, c'. split; [reflexivity|]. split; [nia|].
  split; [|split; [exact Hs|split]].
  - eapply Forall_impl; [exact Hb|]. cbn beta. intros f Hf. lia.
  - apply StronglySorted_lt_le. exact Hs.
  - apply StronglySorted_lt_NoDup. exact Hs.
Qed.

(** C10. Cursor and last frame.  For each of the four generators, on every
    well-formed call, the first emitted keyframe sits at the cursor passed
    in and the returned cursor is the frame of the last emitted keyframe
    plus one. *)
Theorem run_call_first_last s k :
  well_formed s k ->
  exists s' keys c' first last_key,
    run_call k s = (s', inr (keys, c')) /\
    head keys = Some first /\ frame first = cursor_in k /\
    last keys = Some last_key /\ c' = frame last_key + 1.
Proof.
  intros Hwf.
  destruct (run_call_sweep s k Hwf)
    as (s' & z & dwell & lanes & Hd & Hn & Hrun).
  rewrite Hrun. destruct lanes as [|l ls]; [simpl in Hn; lia|].
  pose proof (sweep_first z dwell l ls (cursor_in k)) as Hf.
  pose proof (sweep_last z dwell l ls (cursor_in k)) as Hl.
  destruct (sweep z dwell (l :: ls) (cursor_in k)) as [keys c'].
  cbn [fst snd] in *. unfold frames in *.
  destruct keys as [|k0 keys]; [discriminate|].
  cbn [map head] in Hf. injection Hf as Hf.
  change (map frame (k0 :: keys)) with (frame <$> (k0 :: keys)) in Hl.
  rewrite fmap_last in Hl.
  destruct (last (k0 :: keys)) as [kl|] eqn:El; [|discriminate].
  cbn [fmap option_fmap option_map] in Hl. injection Hl as Hl.
  exists s', (k0 :: keys), c', k0, kl.
  split; [reflexivity|]. split; [reflexivity|]. split; [exact Hf|].
  split; [exact El|lia].
Qed.

Lemma py_eq_false a b : a <> b -> py_eq a b = false.
Proof.
  intros H. unfold py_eq. destruct (Req_dec_T a b); [contradiction|].
  reflexivity.
Qed.

Lemma box_asserts_cases (y11 y12 y21 y22 x11 x21 x12 x22 : R) :
  y11 <> y12 \/ y21 <> y22 \/ x11 <> x21 \/ x12 <> x22 ->
  py_eq y11 y12 = false \/
  (py_eq y11 y12 = true /\ py_eq y21 y22 = false) \/
  (py_eq y11 y12 = true /\ py_eq y21 y22 = true /\ py_eq x11 x21 = false) \/
  (py_eq y11 y12 = true /\ py_eq y21 y22 = true /\ py_eq x11 x21 = true /\
   py_eq x12 x22 = false).
Proof.
  intros H.
  destruct (py_eq y11 y12) eqn:E1; [|left; reflexivity].
  destruct (py_eq y21 y22) eqn:E2; [|right; left; split; reflexivity].
  destruct (py_eq x11 x21) eqn:E3;
    [|right; right; left; repeat split; reflexivity].
  destruct (py_eq x12 x22) eqn:E4;
    [|right; right; right; repeat split; reflexivity].
  apply py_eq_true in E1, E2, E3, E4. tauto.
Qed.

Lemma skew_line1 src pos :
  heap (mkState skew_heap src pos) !! 1%positive = Some [0; 0; 10; 1]%R.
Proof.
  unfold skew_heap. cbn [heap].
  rewrite lookup_insert_ne by discriminate. apply lookup_insert_eq.
Qed.

Lemma skew_line2 src pos :
  heap (mkState skew_heap src pos) !! 2%positive = Some [0; 5; 10; 5]%R.
Proof. unfold skew_heap. cbn [heap]. apply lookup_insert_eq. Qed.

(** C8. Precondition failure.  When the edges handed to a box generator,
    train or test, are not aligned (an edge whose endpoints differ in Y, or
    corresponding endpoints that differ in X), the call raises
    [AssertionError] from the untouched state: nothing was sampled, no draw
    was consumed and no keyframe list is returned.  Aligned edges do not
    raise: both generators return a result. *)
Theorem box_precondition s line1 line2
    (x11 y11 x12 y12 x21 y21 x22 y22 z : R) (c : Z) :
  heap s !! line1 = Some [x11; y11; x12; y12] ->
  heap s !! line2 = Some [x21; y21; x22; y22] ->
  ((y11 <> y12 \/ y21 <> y22 \/ x11 <> x21 \/ x12 <> x22) ->
   generate_train_box line1 line2 z c s = (s, inl AssertionError) /\
   generate_test_box line1 line2 z c s = (s, inl AssertionError))
  /\
  ((y11 = y12 /\ y21 = y22 /\ x11 = x21 /\ x12 = x22) ->
   (exists r, generate_train_box line1 line2 z c s = (s, inr r)) /\
   (exists s' r, generate_test_box line1 line2 z c s = (s', inr r))).
Proof.
  intros H1 H2. split.
  - intros Hbad. apply box_asserts_cases in Hbad.
    unfold generate_train_box, generate_test_box, bind, deref, lift,
      py_assert, ret, raise.
    rewrite H1. cbn [unpack4]. rewrite H2. cbn [unpack4].
    destruct Hbad as [E1|[[E1 E2]|[(E1 & E2 & E3)|(E1 & E2 & E3 & E4)]]].
    + rewrite E1. split; reflexivity.
    + rewrite E1, E2. split; reflexivity.
    + rewrite E1, E2, E3. split; reflexivity.
    + rewrite E1, E2, E3, E4. split; reflexivity.
  - intros (Hy1 & Hy2 & Hx1 & Hx2). split.
    + eexists. apply (generate_train_box_run s line1 line2 _ _ _ _ _ _ _ _
                        z c H1 H2 Hy1 Hy2 Hx1 Hx2).
    + eexists. eexists.
      apply (generate_test_box_run s line1 line2 _ _ _ _ _ _ _ _
               z c H1 H2 Hy1 Hy2 Hx1 Hx2).
Qed.

(** ** Frame conditions *)

Section Frame.
(** [Rel s s'] bounds how the final state [s'] of a computation may
    differ from its initial state [s]. *)
Variable Rel : State -> State -> Prop.
Hypothesis Rel_refl : forall s, Rel s s.
Hypothesis Rel_trans : forall a b c, Rel a b -> Rel b c -> Rel a c.

Lemma respects_ret {A} (a : A) : respects Rel (ret a).
Proof. intros s. apply Rel_refl. Qed.

Lemma respects_raise {A} (e : exn) : respects Rel (@raise A e).
Proof. intros s. apply Rel_refl. Qed.

Lemma respects_lift {A} (r : exn + A) : respects Rel (lift r).
Proof. intros s. apply Rel_refl. Qed.

Lemma respects_deref l : respects Rel (deref l).
Proof.
  intros s. unfold deref. destruct (heap s !! l); apply Rel_refl.
Qed.

Lemma respects_assert b : respects Rel (py_assert b).
Proof. destruct b; [apply respects_ret|apply respects_raise]. Qed.

Lemma respects_bind {A B} (m : M A) (k : A -> M B) :
  respects Rel m -> (forall a, respects Rel (k a)) -> respects Rel (bind m k).
Proof.
  intros Hm Hk s. unfold bind. specialize (Hm s).
  destruct (m s) as [s' [e|a]]; cbn [fst] in *.
  - exact Hm.
  - eapply Rel_trans; [exact Hm|apply Hk].
Qed.

Lemma respects_for_each {A St} (xs : list A) (body : A -> St -> M St) st :
  (forall x st', respects Rel (body x st')) -> respects Rel (for_each xs body st).
Proof.
  intros Hb. revert st. induction xs as [|x xs IH]; intros st.
  - apply respects_ret.
  - cbn [for_each]. apply respects_bind; [apply Hb|exact IH].
Qed.

Lemma respects_ref_getitem p i : respects Rel (ref_getitem p i).
Proof.
  unfold ref_getitem. apply respects_bind; [apply respects_deref|].
  intros xs. apply respects_lift.
Qed.

Lemma respects_append_key acc c p z rot :
  respects Rel (append_key acc c p z rot).
Proof.
  unfold append_key.
  apply respects_bind; [apply respects_ref_getitem|intros x].
  apply respects_bind; [apply respects_ref_getitem|intros y].
  apply respects_ret.
Qed.

Lemma respects_box_lane xs ys xe ye z h rot i st :
  respects Rel (box_lane xs ys xe ye z h rot i st).
Proof.
  unfold box_lane. destruct st as [camera_trans current_frame].
  repeat (apply respects_bind; [apply respects_lift|intros ?]).
  apply respects_ret.
Qed.

Lemma respects_line_emission p1 p2 z yaw inst c :
  respects Rel (line_emission p1 p2 z yaw inst c).
Proof.
  unfold line_emission.
  repeat (apply respects_bind; [apply respects_append_key|intros ?]).
  apply respects_ret.
Qed.

Lemma respects_generate_train_box line1 line2 z c :
  respects Rel (generate_train_box line1 line2 z c).
Proof.
  unfold generate_train_box.
  apply respects_bind; [apply respects_deref|intros l1].
  apply respects_bind; [apply respects_lift|intros [[[x11 y11] x12] y12]].
  apply respects_bind; [apply respects_deref|intros l2].
  apply respects_bind; [apply respects_lift|intros [[[x21 y21] x22] y22]].
  do 4 (apply respects_bind; [apply respects_assert|intros _]).
  do 6 (apply respects_bind; [apply respects_lift|intros ?]).
  do 4 (apply respects_bind;
        [apply respects_for_each; intros; apply respects_box_lane
        |intros ?]).
  apply respects_ret.
Qed.

Lemma respects_generate_train_line p1 p2 z yaw c dense :
  respects Rel (generate_train_line p1 p2 z yaw c dense).
Proof.
  unfold generate_train_line.
  do 2 (apply respects_bind; [apply respects_deref|intros ?]).
  apply respects_bind; [apply respects_lift|intros ?].
  apply respects_line_emission.
Qed.

(** The random source may be consumed. *)
Hypothesis Rel_draw :
  forall s, Rel s (mkState (heap s) (rand_src s) (S (rand_pos s))).

Lemma respects_randint low high : respects Rel (np_random_randint low high).
Proof.
  intros s. unfold np_random_randint.
  destruct (high <=? low); [apply Rel_refl|apply Rel_draw].
Qed.

Lemma respects_generate_test_box line1 line2 z c :
  respects Rel (generate_test_box line1 line2 z c).
Proof.
  unfold generate_test_box.
  apply respects_bind; [apply respects_deref|intros l1].
  apply respects_bind; [apply respects_lift|intros [[[x11 y11] x12] y12]].
  apply respects_bind; [apply respects_deref|intros l2].
  apply respects_bind; [apply respects_lift|intros [[[x21 y21] x22] y22]].
  do 4 (apply respects_bind; [apply respects_assert|intros _]).
  do 6 (apply respects_bind; [apply respects_lift|intros ?]).
  apply respects_bind; [|intros ?; apply respects_ret].
  apply respects_for_each. intros i st. unfold test_box_lane.
  do 2 (apply respects_bind; [apply respects_randint|intros ?]).
  apply respects_box_lane.
Qed.

(** The two endpoint lists [p1] and [p2] may be overwritten. *)
Variables p1 p2 : loc.
Hypothesis Rel_store :
  forall s p xs, p = p1 \/ p = p2 ->
    Rel s (mkState (<[p := xs]> (heap s)) (rand_src s) (rand_pos s)).

Lemma respects_ref_setitem p i v :
  p = p1 \/ p = p2 -> respects Rel (ref_setitem p i v).
Proof.
  intros Hp. unfold ref_setitem.
  apply respects_bind; [apply respects_deref|intros xs].
  apply respects_bind; [apply respects_lift|intros xs'].
  intros s. apply Rel_store. exact Hp.
Qed.

Lemma respects_generate_test_line z yaw c :
  respects Rel (generate_test_line p1 p2 z yaw c).
Proof.
  unfold generate_test_line.
  do 2 (apply respects_bind; [apply respects_ref_getitem|intros ?];
        apply respects_bind;
        [apply respects_ref_setitem; left; reflexivity|intros _]).
  do 2 (apply respects_bind; [apply respects_ref_getitem|intros ?];
        apply respects_bind;
        [apply respects_ref_setitem; right; reflexivity|intros _]).
  apply respects_bind; [apply respects_randint|intros ?].
  do 2 (apply respects_bind; [apply respects_deref|intros ?]).
  apply respects_bind; [apply respects_lift|intros ?].
  apply respects_line_emission.
Qed.

End Frame.

(** C9, amended.  [generate_train_box] and [generate_train_line] return the
    state they were given, whatever their arguments: no list in the store
    is changed and no draw is consumed.  [generate_test_box] only consumes
    draws.  [generate_test_line] consumes draws and writes to its two
    endpoint lists only: every other object of the store is unchanged, and
    on two distinct points of the plane the endpoint lists end up holding
    the displaced endpoints.  Altitude, yaw and cursor are numbers, passed
    by value. *)
Theorem generators_frame :
  (forall line1 line2 z c s,
     fst (generate_train_box line1 line2 z c s) = s) /\
  (forall p1 p2 z yaw c dense s,
     fst (generate_train_line p1 p2 z yaw c dense s) = s) /\
  (forall line1 line2 z c s,
     draws_only s (fst (generate_test_box line1 line2 z c s))) /\
  (forall p1 p2 z yaw c s,
     writes_only p1 p2 s (fst (generate_test_line p1 p2 z yaw c s))) /\
  (forall s p1 p2 (x1 y1 x2 y2 z yaw : R) (c : Z),
     p1 <> p2 ->
     heap s !! p1 = Some [x1; y1] ->
     heap s !! p2 = Some [x2; y2] ->
     heap (fst (generate_test_line p1 p2 z yaw c s))
     = <[p2 := [fsub x2 (fmul (math_cos (math_radians yaw)) 570);
                fsub y2 (fmul (math_sin (math_radians yaw)) 570)]]>
         (<[p1 := [fadd x1 (fmul (math_cos (math_radians yaw)) 570);
                   fadd y1 (fmul (math_sin (math_radians yaw)) 570)]]>
            (heap s))).
Proof.
  assert (Hdo_refl : forall s, draws_only s s)
    by (intros s; repeat split; lia).
  assert (Hdo_trans : forall a b c,
            draws_only a b -> draws_only b c -> draws_only a c).
  { intros a b c (E1 & E2 & E3) (F1 & F2 & F3).
    repeat split; [congruence|congruence|lia]. }
  split; [|split; [|split; [|split]]].
  - intros line1 line2 z c s. symmetry.
    apply (respects_generate_train_box eq (@eq_refl State)
             (@eq_trans State)).
  - intros p1 p2 z yaw c dense s. symmetry.
    apply (respects_generate_train_line eq (@eq_refl State)
             (@eq_trans State)).
  - intros line1 line2 z c s.
    apply (respects_generate_test_box draws_only Hdo_refl Hdo_trans).
    intros s0. repeat split. cbn [rand_pos]. lia.
  - intros p1 p2 z yaw c s.
    apply (respects_generate_test_line (writes_only p1 p2)).
    + intros s0. repeat split. lia.
    + intros a b c0 (E1 & E2 & E3) (F1 & F2 & F3).
      repeat split; [|congruence|lia].
      intros l Hl1 Hl2. rewrite F1, E1 by assumption. reflexivity.
    + intros s0. repeat split. cbn [rand_pos]. lia.
    + intros s0 p xs Hp. repeat split; [|cbn [rand_pos]; lia].
      intros l Hl1 Hl2. cbn [heap]. apply lookup_insert_ne.
      destruct Hp as [->| ->]; congruence.
  - intros s p1 p2 x1 y1 x2 y2 z yaw c Hne Hp1 Hp2.
    rewrite (generate_test_line_run s p1 p2 x1 y1 x2 y2 z yaw c
               Hne Hp1 Hp2).
    reflexivity.
Qed.

(** ** Further properties of the generators *)





Lemma Int_part_monotone x y : (x <= y)%R -> Int_part x <= Int_part y.
Proof.
  intros Hxy. destruct (base_Int_part x) as [Hx _].
  destruct (base_Int_part y) as [_ Hy].
  assert (H : (IZR (Int_part x) < IZR (Int_part y + 1))%R)
    by (rewrite plus_IZR; lra).
  apply lt_IZR in H. lia.
Qed.

(** A coarser interval never gives more samples. *)
Lemma py_int_coarser d k1 k2 :
  (0 <= d)%R -> (0 < k1 <= k2)%R ->
  py_int (fdiv d k2) <= py_int (fdiv d k1).
Proof.
  intros Hd [Hk1 Hk].
  destruct (py_int_quotient d k1 Hd Hk1) as [-> _].
  destruct (py_int_quotient d k2 Hd ltac:(lra)) as [-> _].
  apply Int_part_monotone. apply fl_monotone. unfold Rdiv.
  apply Rmult_le_compat_l; [exact Hd|].
  apply Rinv_le_contravar; lra.
Qed.

(** X3. Test boxes are sampled more coarsely than train boxes.  On one
    aligned region, from one cursor, [generate_test_box] has at most as
    many lanes and at most as long a dwell as [generate_train_box]: it
    emits at most a quarter of the keyframes and advances the cursor by at
    most a quarter as much. *)
Theorem test_box_coarser s line1 line2 (x1 x2 ya yb z : R) (c : Z) :
  heap s !! line1 = Some [x1; ya; x2; ya] ->
  heap s !! line2 = Some [x1; yb; x2; yb] ->
  exists keys_train c_train s' keys_test c_test,
    generate_train_box line1 line2 z c s = (s, inr (keys_train, c_train)) /\
    generate_test_box line1 line2 z c s = (s', inr (keys_test, c_test)) /\
    w_count_of 4501 x1 ya x2 ya <= w_count_of 4000 x1 ya x2 ya /\
    h_count_of 4501 x1 ya x1 yb <= h_count_of 4000 x1 ya x1 yb /\
    (4 * length keys_test <= length keys_train)%nat /\
    4 * (c_test - c) <= c_train - c.
Proof.
  intros H1 H2.
  rewrite (generate_train_box_run s line1 line2 _ _ _ _ _ _ _ _ z c
             H1 H2 eq_refl eq_refl eq_refl eq_refl).
  rewrite (generate_test_box_run s line1 line2 _ _ _ _ _ _ _ _ z c
             H1 H2 eq_refl eq_refl eq_refl eq_refl).
  rewrite yaw_passes_sweep.
  assert (Hw : w_count_of 4501 x1 ya x2 ya <= w_count_of 4000 x1 ya x2 ya).
  { unfold w_count_of.
    pose proof (py_int_coarser (dist2 x1 ya x2 ya) 4000 4501
                  (dist2_nonneg _ _ _ _) ltac:(lra)). lia. }
  assert (Hh : h_count_of 4501 x1 ya x1 yb <= h_count_of 4000 x1 ya x1 yb).
  { unfold h_count_of.
    pose proof (py_int_coarser (dist2 x1 ya x1 yb) 4000 4501
                  (dist2_nonneg _ _ _ _) ltac:(lra)). lia. }
  pose proof (w_count_of_ge 4501 x1 ya x2 ya ltac:(lra)) as Hw2.
  pose proof (h_count_of_ge 4501 x1 ya x1 yb ltac:(lra)) as Hh1.
  set (wt := w_count_of 4000 x1 ya x2 ya) in *.
  set (we := w_count_of 4501 x1 ya x2 ya) in *.
  set (ht := h_count_of 4000 x1 ya x1 yb) in *.
  set (he := h_count_of 4501 x1 ya x1 yb) in *.
  set (lt := train_box_lanes _ _ _).
  set (le := drawn_lanes _ _ _).
  pose proof (sweep_length z ht lt c) as Lt.
  pose proof (sweep_cursor z ht lt c) as Ct.
  pose proof (sweep_length z he le c) as Le.
  pose proof (sweep_cursor z he le c) as Ce.
  assert (Llt : length lt = (4 * Z.to_nat wt)%nat).
  { subst lt. rewrite length_train_box_lanes, length_box_points.
    reflexivity. }
  assert (Lle : length le = Z.to_nat we).
  { subst le. rewrite length_drawn_lanes, length_box_points. reflexivity. }
  rewrite Llt in Lt, Ct. rewrite Lle in Le, Ce.
  destruct (sweep z ht lt c) as [kt ct].
  destruct (sweep z he le c) as [ke ce]. cbn [fst snd] in *.
  exists kt, ct. eexists. exists ke, ce.
  split; [reflexivity|]. split; [reflexivity|].
  split; [exact Hw|]. split; [exact Hh|]. split; [lia|nia].
Qed.

(** X4. Dense and sparse train lines.  On one segment, the dense and the
    sparse call of [generate_train_line] emit keyframes at the same
    locations with the same rotations, in the same order; only the frames
    differ, the dense call dwelling at least as long on the segment and
    returning a cursor at least as large. *)
Theorem train_line_dense_sparse s p1 p2 (x1 y1 x2 y2 z yaw : R) (c : Z) :
  heap s !! p1 = Some [x1; y1] ->
  heap s !! p2 = Some [x2; y2] ->
  exists keys_d c_d keys_s c_s,
    generate_train_line p1 p2 z yaw c true s = (s, inr (keys_d, c_d)) /\
    generate_train_line p1 p2 z yaw c false s = (s, inr (keys_s, c_s)) /\
    map location keys_d = map location keys_s /\
    map rotation keys_d = map rotation keys_s /\
    instance_of 500 x1 y1 x2 y2 <= instance_of 100 x1 y1 x2 y2 /\
    c_s <= c_d.
Proof.
  intros Hp1 Hp2.
  rewrite (generate_train_line_run s p1 p2 x1 y1 x2 y2 z yaw c true Hp1 Hp2).
  rewrite (generate_train_line_run s p1 p2 x1 y1 x2 y2 z yaw c false
             Hp1 Hp2).
  rewrite !sweep_line_lanes.
  assert (Hi : instance_of 500 x1 y1 x2 y2 <= instance_of 100 x1 y1 x2 y2).
  { unfold instance_of.
    pose proof (py_int_coarser (dist2 x1 y1 x2 y2) 100 500
                  (dist2_nonneg _ _ _ _) ltac:(lra)). lia. }
  do 4 eexists. split; [reflexivity|]. split; [reflexivity|].
  split; [reflexivity|]. split; [reflexivity|]. split; [exact Hi|lia].
Qed.

Lemma sweep_altitude z dwell lanes c :
  Forall (fun k => snd (location k) = z) (fst (sweep z dwell lanes c)).
Proof.
  revert c. induction lanes as [|l ls IH]; intros c; cbn [sweep].
  - constructor.
  - specialize (IH (c + dwell + 1)).
    destruct (sweep z dwell ls (c + dwell + 1)) as [ks c'].
    cbn [fst] in *. repeat constructor. exact IH.
Qed.

Lemma drawn_lanes_roll src pos pts :
  Forall (fun l => fst (fst (lane_rot l)) = 0%R) (drawn_lanes src pos pts).
Proof.
  revert pos. induction pts as [|pq rest IH]; intros pos; cbn [drawn_lanes].
  - constructor.
  - constructor; [reflexivity|apply IH].
Qed.

Lemma train_box_lanes_roll pitch pts yaws :
  Forall (fun l => fst (fst (lane_rot l)) = 0%R)
         (train_box_lanes pitch pts yaws).
Proof.
  apply Forall_forall. intros l Hl.
  destruct (train_box_lanes_rot pitch pts yaws l Hl) as (yaw & _ & ->).
  reflexivity.
Qed.

(** Every well-formed call returns one sweep at the altitude it was given,
    over lanes whose roll is zero. *)
Lemma run_call_sweep_level s k :
  well_formed s k ->
  exists s' dwell lanes,
    Forall (fun l => fst (fst (lane_rot l)) = 0%R) lanes /\
    run_call k s = (s', inr (sweep (altitude k) dwell lanes (cursor_in k))).
Proof.
  destruct k as [l1 l2 z c|l1 l2 z c|p1 p2 z yaw c dense|p1 p2 z yaw c];
    cbn [well_formed run_call cursor_in altitude].
  - intros (x1 & x2 & ya & yb & H1 & H2).
    rewrite (generate_train_box_run s l1 l2 _ _ _ _ _ _ _ _ z c
               H1 H2 eq_refl eq_refl eq_refl eq_refl).
    rewrite yaw_passes_sweep.
    do 3 eexists. split; [apply train_box_lanes_roll|reflexivity].
  - intros (x1 & x2 & ya & yb & H1 & H2).
    rewrite (generate_test_box_run s l1 l2 _ _ _ _ _ _ _ _ z c
               H1 H2 eq_refl eq_refl eq_refl eq_refl).
    do 3 eexists. split; [apply drawn_lanes_roll|reflexivity].
  - intros (x1 & y1 & x2 & y2 & H1 & H2).
    rewrite (generate_train_line_run s p1 p2 x1 y1 x2 y2 z yaw c dense
               H1 H2).
    do 3 eexists. split; [|reflexivity].
    unfold line_lanes. repeat constructor.
  - intros (x1 & y1 & x2 & y2 & H1 & H2).
    destruct (decide (p1 = p2)) as [->|Hne].
    + rewrite (generate_test_line_run_aliased s p2 x1 y1 z yaw c H1).
      do 3 eexists. split; [|reflexivity].
      unfold line_lanes. repeat constructor.
    + rewrite (generate_test_line_run s p1 p2 x1 y1 x2 y2 z yaw c
                 Hne H1 H2).
      do 3 eexists. split; [|reflexivity].
      unfold line_lanes. repeat constructor.
Qed.

(** X5. Altitude and roll.  Every keyframe emitted by a well-formed call of
    any of the four generators lies at the altitude passed to the call and
    has roll 0: the generators vary pitch and yaw only, and a third
    coordinate never comes from the input lists. *)
Theorem keys_level s k :
  well_formed s k ->
  exists s' keys c',
    run_call k s = (s', inr (keys, c')) /\
    Forall (fun key => snd (location key) = altitude k /\
                       fst (fst (rotation key)) = 0%R) keys.
Proof.
  intros Hwf.
  destruct (run_call_sweep_level s k Hwf) as (s' & dwell & lanes & Hr & Hrun).
  rewrite Hrun.
  pose proof (sweep_altitude (altitude k) dwell lanes (cursor_in k)) as Ha.
  pose proof (sweep_rotations (altitude k) dwell lanes (cursor_in k)) as Hrot.
  destruct (sweep (altitude k) dwell lanes (cursor_in k)) as [keys c'].
  cbn [fst] in *. exists s', keys, c'. split; [reflexivity|].
  rewrite Forall_forall in Ha. rewrite Forall_forall in Hrot.
  rewrite Forall_forall in Hr. apply Forall_forall.
  intros key Hkey. split; [apply Ha; exact Hkey|].
  destruct (Hrot key Hkey) as (l & Hl & ->). apply Hr. exact Hl.
Qed.

Lemma well_formed_with_cursor s k c :
  well_formed s k -> well_formed s (with_cursor k c).
Proof. destruct k; exact (fun H => H). Qed.

Lemma cursor_in_with_cursor k c : cursor_in (with_cursor k c) = c.
Proof. destruct k; reflexivity. Qed.

(** A call that keeps every list of length four and the length of every
    list of length two keeps every call well-formed. *)
Lemma well_formed_kept s s1 k :
  (forall l a b c d,
     heap s !! l = Some [a; b; c; d] -> heap s1 !! l = Some [a; b; c; d]) ->
  (forall l a b,
     heap s !! l = Some [a; b] -> exists a' b', heap s1 !! l = Some [a'; b'])
  ->
  well_formed s k -> well_formed s1 k.
Proof.
  intros H4 H2.
  destruct k as [l1 l2 z c|l1 l2 z c|p1 p2 z yaw c dense|p1 p2 z yaw c];
    cbn [well_formed].
  - intros (x1 & x2 & ya & yb & E1 & E2).
    exists x1, x2, ya, yb. split; apply H4; assumption.
  - intros (x1 & x2 & ya & yb & E1 & E2).
    exists x1, x2, ya, yb. split; apply H4; assumption.
  - intros (x1 & y1 & x2 & y2 & E1 & E2).
    destruct (H2 _ _ _ E1) as (a1 & b1 & F1).
    destruct (H2 _ _ _ E2) as (a2 & b2 & F2).
    exists a1, b1, a2, b2. split; assumption.
  - intros (x1 & y1 & x2 & y2 & E1 & E2).
    destruct (H2 _ _ _ E1) as (a1 & b1 & F1).
    destruct (H2 _ _ _ E2) as (a2 & b2 & F2).
    exists a1, b1, a2, b2. split; assumption.
Qed.

(** A well-formed call leaves every call well-formed: the only lists ever
    written are points, and they stay points. *)
Lemma run_call_keeps_well_formed s k1 k2 :
  well_formed s k1 -> well_formed s k2 ->
  well_formed (fst (run_call k1 s)) k2.
Proof.
  intros Hwf1.
  destruct k1 as [l1 l2 z c|l1 l2 z c|p1 p2 z yaw c dense|p1 p2 z yaw c];
    cbn [well_formed run_call] in *.
  - destruct Hwf1 as (x1 & x2 & ya & yb & H1 & H2).
    rewrite (generate_train_box_run s l1 l2 _ _ _ _ _ _ _ _ z c
               H1 H2 eq_refl eq_refl eq_refl eq_refl).
    exact (fun H => H).
  - destruct Hwf1 as (x1 & x2 & ya & yb & H1 & H2).
    rewrite (generate_test_box_run s l1 l2 _ _ _ _ _ _ _ _ z c
               H1 H2 eq_refl eq_refl eq_refl eq_refl).
    apply well_formed_kept; cbn [fst consume heap]; eauto.
  - destruct Hwf1 as (x1 & y1 & x2 & y2 & H1 & H2).
    rewrite (generate_train_line_run s p1 p2 x1 y1 x2 y2 z yaw c dense
               H1 H2).
    exact (fun H => H).
  - destruct Hwf1 as (x1 & y1 & x2 & y2 & H1 & H2).
    destruct (decide (p1 = p2)) as [->|Hne].
    + rewrite (generate_test_line_run_aliased s p2 x1 y1 z yaw c H1).
      apply well_formed_kept; cbn [fst heap].
      * intros l a b c0 d Hl. rewrite lookup_insert_ne; [exact Hl|].
        intros <-. rewrite H1 in Hl. discriminate.
      * intros l a b Hl. destruct (decide (p2 = l)) as [<-|Hn].
        -- rewrite lookup_insert_eq. eauto.
        -- rewrite lookup_insert_ne by exact Hn. eauto.
    + rewrite (generate_test_line_run s p1 p2 x1 y1 x2 y2 z yaw c
                 Hne H1 H2).
      apply well_formed_kept; cbn [fst heap].
      * intros l a b c0 d Hl. rewrite !lookup_insert_ne; [exact Hl| |].
        -- intros <-. rewrite H1 in Hl. discriminate.
        -- intros <-. rewrite H2 in Hl. discriminate.
      * intros l a b Hl. destruct (decide (p2 = l)) as [<-|Hn2].
        -- rewrite lookup_insert_eq. eauto.
        -- rewrite lookup_insert_ne by exact Hn2.
           destruct (decide (p1 = l)) as [<-|Hn1].
           ++ rewrite lookup_insert_eq. eauto.
           ++ rewrite lookup_insert_ne by exact Hn1. eauto.
Qed.

Lemma StronglySorted_lt_app (l1 l2 : list Z) (m : Z) :
  StronglySorted Z.lt l1 -> StronglySorted Z.lt l2 ->
  Forall (fun a => a < m) l1 -> Forall (fun b => m <= b) l2 ->
  StronglySorted Z.lt (l1 ++ l2).
Proof.
  intros S1 S2 B1 B2. induction S1 as [|a l1 S1 IH Ha]; cbn [app].
  - exact S2.
  - inversion B1 as [|? ? Ba B1']; subst.
    constructor; [apply IH; exact B1'|].
    apply Forall_app. split; [exact Ha|].
    eapply Forall_impl; [exact B2|]. cbn beta. intros b Hb. lia.
Qed.

(** X6. Trajectory assembly.  When the cursor returned by one well-formed
    call is passed to a second call that was well-formed before the first
    ran, the second call succeeds as well, whatever the first one wrote;
    the cursor keeps growing, and the frames of the two keyframe lists, one
    after the other, are strictly increasing: keyframes of consecutive
    calls never share a frame. *)
Theorem calls_compose s k1 k2 :
  well_formed s k1 -> well_formed s k2 ->
  exists s1 keys1 c1 s2 keys2 c2,
    run_call k1 s = (s1, inr (keys1, c1)) /\
    run_call (with_cursor k2 c1) s1 = (s2, inr (keys2, c2)) /\
    cursor_in k1 < c1 < c2 /\
    StronglySorted Z.lt (frames (keys1 ++ keys2)) /\
    Forall (fun f => cursor_in k1 <= f < c2) (frames (keys1 ++ keys2)).
Proof.
  intros Hwf1 Hwf2.
  pose proof (run_call_keeps_well_formed s k1 k2 Hwf1 Hwf2) as Hwf2'.
  destruct (run_call_sweep s k1 Hwf1)
    as (s1 & z1 & d1 & lanes1 & Hd1 & Hn1 & Hrun1).
  rewrite Hrun1 in Hwf2'. cbn [fst] in Hwf2'.
  pose proof (sweep_cursor z1 d1 lanes1 (cursor_in k1)) as Hc1.
  pose proof (sweep_frames_bounds z1 d1 lanes1 (cursor_in k1) ltac:(lia))
    as Hb1.
  pose proof (sweep_frames_sorted z1 d1 lanes1 (cursor_in k1) Hd1) as Hs1.
  destruct (sweep z1 d1 lanes1 (cursor_in k1)) as [keys1 c1].
  cbn [fst snd] in *.
  destruct (run_call_sweep s1 (with_cursor k2 c1)
              (well_formed_with_cursor s1 k2 c1 Hwf2'))
    as (s2 & z2 & d2 & lanes2 & Hd2 & Hn2 & Hrun2).
  rewrite cursor_in_with_cursor in Hrun2.
  pose proof (sweep_cursor z2 d2 lanes2 c1) as Hc2.
  pose proof (sweep_frames_bounds z2 d2 lanes2 c1 ltac:(lia)) as Hb2.
  pose proof (sweep_frames_sorted z2 d2 lanes2 c1 Hd2) as Hs2.
  destruct (sweep z2 d2 lanes2 c1) as [keys2 c2]. cbn [fst snd] in *.
  exists s1, keys1, c1, s2, keys2, c2.
  split; [exact Hrun1|]. split; [exact Hrun2|]. split; [nia|].
  unfold frames in *. rewrite map_app. split.
  - apply (StronglySorted_lt_app _ _ c1); [exact Hs1|exact Hs2| |].
    + eapply Forall_impl; [exact Hb1|]. cbn beta. intros f Hf. lia.
    + eapply Forall_impl; [exact Hb2|]. cbn beta. intros f Hf. lia.
  - apply Forall_app. split.
    + eapply Forall_impl; [exact Hb1|]. cbn beta. intros f Hf. nia.
    + eapply Forall_impl; [exact Hb2|]. cbn beta. intros f Hf. nia.
Qed.

(** ** Failing calls *)

Lemma unpack4_short (l : list R) :
  length l <> 4%nat -> unpack4 l = inl ValueError.
Proof.
  intros Hl. destruct l as [|a [|b [|c [|d [|e l]]]]]; try reflexivity.
  cbn [length] in Hl. lia.
Qed.

Lemma unpack4_four (l : list R) :
  length l = 4%nat -> exists a b c d, l = [a; b; c; d].
Proof.
  intros Hl. destruct l as [|a [|b [|c [|d [|e l]]]]]; try discriminate.
  eauto.
Qed.

(** X7. Edges of the wrong length.  When one of the two edge lists handed
    to a box generator does not hold exactly four numbers, the call raises
    [ValueError] from the untouched state: the unpacking fails before any
    alignment check, so the error is [ValueError] and not
    [AssertionError] even when the coordinates that are there are
    misaligned, and the test generator has consumed no draw. *)
Theorem box_unpack_error s line1 line2 (l1 l2 : list R) (z : R) (c : Z) :
  heap s !! line1 = Some l1 ->
  heap s !! line2 = Some l2 ->
  length l1 <> 4%nat \/ length l2 <> 4%nat ->
  generate_train_box line1 line2 z c s = (s, inl ValueError) /\
  generate_test_box line1 line2 z c s = (s, inl ValueError).
Proof.
  intros H1 H2 Hlen.
  unfold generate_train_box, generate_test_box, bind, deref, lift.
  rewrite H1.
  destruct (Nat.eq_dec (length l1) 4%nat) as [E1|N1].
  - destruct (unpack4_four l1 E1) as (a & b & c0 & d & ->).
    cbn [unpack4]. rewrite H2.
    destruct Hlen as [N|N2]; [cbn [length] in N; lia|].
    rewrite (unpack4_short l2 N2). split; reflexivity.
  - rewrite (unpack4_short l1 N1). split; reflexivity.
Qed.

Lemma math_dist_lengths (p q : list R) :
  length p <> length q -> math_dist p q = inl ValueError.
Proof.
  intros H. unfold math_dist.
  destruct (Nat.eqb_spec (length p) (length q)); [contradiction|reflexivity].
Qed.

Lemma math_dist_defined (p q : list R) :
  length p = length q -> exists d, math_dist p q = inr d.
Proof.
  intros H. unfold math_dist. rewrite H, Nat.eqb_refl. eauto.
Qed.

(** X8. Malformed endpoints of a train line.  When the two endpoint lists
    have different lengths, [generate_train_line] raises [ValueError]
    ([math.dist] refuses them); when they have the same length but fewer
    than two coordinates, it raises [IndexError] when the first keyframe
    reads the missing coordinate.  In both cases the state is untouched
    and no keyframe list is returned. *)
Theorem train_line_malformed s p1 p2 (l1 l2 : list R) (z yaw : R) (c : Z)
    (dense : bool) :
  heap s !! p1 = Some l1 ->
  heap s !! p2 = Some l2 ->
  (length l1 <> length l2 ->
   generate_train_line p1 p2 z yaw c dense s = (s, inl ValueError)) /\
  (length l1 = length l2 -> (length l1 < 2)%nat ->
   generate_train_line p1 p2 z yaw c dense s = (s, inl IndexError)).
Proof.
  intros H1 H2. split.
  - intros Hne. unfold generate_train_line, bind, deref, lift.
    rewrite H1, H2, (math_dist_lengths l1 l2 Hne). reflexivity.
  - intros Heq Hlt. unfold generate_train_line, bind, deref, lift.
    rewrite H1, H2.
    destruct (math_dist_defined l1 l2 Heq) as [d ->].
    unfold line_emission. unfold bind at 1. unfold append_key at 1.
    destruct l1 as [|a [|b l1]]; [| |cbn [length] in Hlt; lia].
    + unfold bind at 1. unfold ref_getitem at 1.
      unfold bind, deref, lift. rewrite H1. reflexivity.
    + unfold bind at 1.
      rewrite (ref_getitem_run p1 0 s [a] a H1) by reflexivity.
      unfold bind at 1. unfold ref_getitem at 1.
      unfold bind, deref, lift. rewrite H1. reflexivity.
Qed.

Lemma short_point1 src pos :
  heap (mkState short_heap src pos) !! 1%positive = Some [7]%R.
Proof.
  unfold short_heap. cbn [heap].
  rewrite lookup_insert_ne by discriminate. apply lookup_insert_eq.
Qed.

Lemma short_point2 src pos :
  heap (mkState short_heap src pos) !! 2%positive = Some [5]%R.
Proof. unfold short_heap. cbn [heap]. apply lookup_insert_eq. Qed.

(** X9. A failing test line has already written.  [generate_test_line]
    displaces the endpoints coordinate by coordinate before it checks
    anything.  On a first endpoint with a single coordinate it raises
    [IndexError] after having displaced that coordinate.  On two distinct
    endpoints of different lengths, each with at least two coordinates, it
    raises [ValueError] (from [math.dist]) after having displaced both
    endpoints and consumed one draw.  The caller's lists stay modified. *)
Theorem test_line_failure_writes s p1 p2 (z yaw : R) (c : Z) :
  (forall x : R,
     heap s !! p1 = Some [x] ->
     generate_test_line p1 p2 z yaw c s =
     (mkState
        (<[p1 := [fadd x (fmul (math_cos (math_radians yaw)) 570)]]>
           (heap s))
        (rand_src s) (rand_pos s),
      inl IndexError))
  /\
  (forall (x1 y1 x2 y2 : R) (r1 r2 : list R),
     p1 <> p2 ->
     heap s !! p1 = Some (x1 :: y1 :: r1) ->
     heap s !! p2 = Some (x2 :: y2 :: r2) ->
     length r1 <> length r2 ->
     generate_test_line p1 p2 z yaw c s =
     (mkState
        (<[p2 := fsub x2 (fmul (math_cos (math_radians yaw)) 570)
                 :: fsub y2 (fmul (math_sin (math_radians yaw)) 570)
                 :: r2]>
           (<[p1 := fadd x1 (fmul (math_cos (math_radians yaw)) 570)
                    :: fadd y1 (fmul (math_sin (math_radians yaw)) 570)
                    :: r1]>
              (heap s)))
        (rand_src s) (S (rand_pos s)),
      inl ValueError)).
Proof.
  set (C := fmul (math_cos (math_radians yaw)) 570).
  set (S' := fmul (math_sin (math_radians yaw)) 570).
  split.
  - intros x Hp1. unfold generate_test_line.
    unfold bind at 1. rewrite (ref_getitem_run p1 0 s _ x Hp1) by reflexivity.
    unfold bind at 1.
    rewrite (ref_setitem_run p1 0 _ s _ [(fadd x C)] Hp1) by reflexivity.
    set (s1 := mkState (<[p1 := [(fadd x C)]]> (heap s)) (rand_src s)
                 (rand_pos s)).
    assert (H11 : heap s1 !! p1 = Some [(fadd x C)])
      by (apply lookup_insert_eq).
    unfold bind at 1. unfold ref_getitem at 1. unfold bind, deref, lift.
    rewrite H11. reflexivity.
  - intros x1 y1 x2 y2 r1 r2 Hne Hp1 Hp2 Hlen. unfold generate_test_line.
    unfold bind at 1. rewrite (ref_getitem_run p1 0 s _ x1 Hp1) by reflexivity.
    unfold bind at 1.
    rewrite (ref_setitem_run p1 0 _ s _ ((fadd x1 C) :: y1 :: r1) Hp1)
      by reflexivity.
    set (s1 := mkState (<[p1 := (fadd x1 C) :: y1 :: r1]> (heap s))
                 (rand_src s) (rand_pos s)).
    assert (H11 : heap s1 !! p1 = Some ((fadd x1 C) :: y1 :: r1))
      by (apply lookup_insert_eq).
    unfold bind at 1.
    rewrite (ref_getitem_run p1 1 s1 _ y1 H11) by reflexivity.
    unfold bind at 1.
    rewrite (ref_setitem_run p1 1 _ s1 _
               ((fadd x1 C) :: (fadd y1 S') :: r1) H11) by reflexivity.
    set (s2 := mkState (<[p1 := (fadd x1 C) :: (fadd y1 S') :: r1]> (heap s1))
                 (rand_src s1) (rand_pos s1)).
    assert (H22 : heap s2 !! p2 = Some (x2 :: y2 :: r2)).
    { subst s2 s1. cbn [heap]. rewrite !lookup_insert_ne by exact Hne.
      exact Hp2. }
    unfold bind at 1.
    rewrite (ref_getitem_run p2 0 s2 _ x2 H22) by reflexivity.
    unfold bind at 1.
    rewrite (ref_setitem_run p2 0 _ s2 _ ((fsub x2 C) :: y2 :: r2) H22)
      by reflexivity.
    set (s3 := mkState (<[p2 := (fsub x2 C) :: y2 :: r2]> (heap s2))
                 (rand_src s2) (rand_pos s2)).
    assert (H32 : heap s3 !! p2 = Some ((fsub x2 C) :: y2 :: r2))
      by (apply lookup_insert_eq).
    unfold bind at 1.
    rewrite (ref_getitem_run p2 1 s3 _ y2 H32) by reflexivity.
    unfold bind at 1.
    rewrite (ref_setitem_run p2 1 _ s3 _
               ((fsub x2 C) :: (fsub y2 S') :: r2) H32) by reflexivity.
    set (s4 := mkState (<[p2 := (fsub x2 C) :: (fsub y2 S') :: r2]> (heap s3))
                 (rand_src s3) (rand_pos s3)).
    unfold bind at 1. unfold np_random_randint at 1. cbn [Z.leb Z.compare].
    set (s5 := mkState (heap s4) (rand_src s4) (S (rand_pos s4))).
    assert (H52 : heap s5 !! p2 = Some ((fsub x2 C) :: (fsub y2 S') :: r2))
      by (apply lookup_insert_eq).
    assert (H51 : heap s5 !! p1 = Some ((fadd x1 C) :: (fadd y1 S') :: r1)).
    { subst s5 s4 s3 s2. cbn [heap].
      rewrite !lookup_insert_ne by (intros E; apply Hne; symmetry; exact E).
      apply lookup_insert_eq. }
    unfold bind, deref, lift. rewrite H51, H52.
    rewrite math_dist_lengths by (cbn [length]; lia).
    subst s5 s4 s3 s2 s1. cbn [heap rand_src rand_pos].
    rewrite !insert_insert_eq. reflexivity.
Qed.


(** ** The sequencer session *)

Arguments AddKey {Interpolation}.
Arguments w_ret {Interpolation A}.
Arguments w_lift {Interpolation A}.
Arguments w_bind {Interpolation A B}.
Arguments add_key {Interpolation}.
Arguments w_for_each {Interpolation A}.
Arguments keyframe_calls {Interpolation}.
Arguments channel_frames {Interpolation}.

(** [round] lands within half a unit, and on an even integer when the
    number lies halfway between two integers. *)
Lemma py_round_near (x : R) :
  (Rabs (IZR (py_round x) - x) <= 1 / 2)%R /\
  (Rabs (IZR (py_round x) - x) = 1 / 2 -> Z.even (py_round x) = true)%R.
Proof.
  unfold py_round. destruct (base_Int_part x) as [Hlo Hhi].
  set (f := Int_part x) in *.
  destruct (Rlt_dec (x - IZR f) (1 / 2)) as [H1|H1].
  - split.
    + rewrite Rabs_left1 by lra. lra.
    + rewrite Rabs_left1 by lra. intros E. lra.
  - destruct (Rlt_dec (1 / 2) (x - IZR f)) as [H2|H2].
    + rewrite plus_IZR. split.
      * rewrite Rabs_right by lra. lra.
      * rewrite Rabs_right by lra. intros E. lra.
    + destruct (Z.even f) eqn:Ev.
      * split; [|intros _; exact Ev].
        rewrite Rabs_left1 by lra. lra.
      * split.
        -- rewrite plus_IZR, Rabs_right by lra. lra.
        -- intros _. rewrite Z.even_add, Ev. reflexivity.
Qed.

(** X12. Length of an animation.  [get_animation_length] returns the
    asset's own number of sampled frames when no sequence rate is given or
    the rate given is zero, without reading the frame rate of the asset,
    and also when the asset's rate equals the one given.  With a non-zero
    rate and an asset whose frame rate has denominator zero it raises
    [ZeroDivisionError].  Otherwise it returns the rounding of
    [sequence_length * seq_fps]: an integer within half a frame of that
    product, the even one when the product lies halfway.  The rate of the
    asset and the product are the quotient and the product the floats
    give. *)
Theorem get_animation_length_cases (animation_asset : AnimSequence) :
  let native := number_of_sampled_frames animation_asset in
  let num := numerator (target_frame_rate animation_asset) in
  let den := denominator (target_frame_rate animation_asset) in
  let rate := fdiv (IZR num) (IZR den) in
  let product := fun fps => fmul (sequence_length animation_asset) fps in
  get_animation_length animation_asset None = inr native /\
  get_animation_length animation_asset (Some 0%R) = inr native /\
  (forall fps : R,
     fps <> 0%R -> den = 0 ->
     get_animation_length animation_asset (Some fps)
     = inl ZeroDivisionError) /\
  (forall fps : R,
     fps <> 0%R -> den <> 0 -> rate = fps ->
     get_animation_length animation_asset (Some fps) = inr native) /\
  (forall fps : R,
     fps <> 0%R -> den <> 0 -> rate <> fps ->
     exists n,
       get_animation_length animation_asset (Some fps) = inr n /\
       n = py_round (product fps) /\
       (Rabs (IZR n - product fps) <= 1 / 2)%R /\
       (Rabs (IZR n - product fps) = 1 / 2 -> Z.even n = true)%R).
Proof.
  intros native num den rate product.
  split; [reflexivity|]. split.
  { unfold get_animation_length. rewrite (proj2 (py_eq_true 0 0) eq_refl).
    reflexivity. }
  split; [|split].
  - intros fps Hfps Hden. unfold get_animation_length.
    rewrite (py_eq_false fps 0 Hfps). cbn [negb].
    unfold convert_frame_rate_to_fps. fold den. rewrite Hden. reflexivity.
  - intros fps Hfps Hden Hrate. unfold get_animation_length.
    rewrite (py_eq_false fps 0 Hfps). cbn [negb].
    unfold convert_frame_rate_to_fps. fold den num.
    destruct (Z.eqb_spec den 0) as [E|_]; [contradiction|].
    fold rate. rewrite (proj2 (py_eq_true _ _) Hrate). reflexivity.
  - intros fps Hfps Hden Hrate. unfold get_animation_length.
    rewrite (py_eq_false fps 0 Hfps). cbn [negb].
    unfold convert_frame_rate_to_fps. fold den num.
    destruct (Z.eqb_spec den 0) as [E|_]; [contradiction|].
    fold rate. rewrite (py_eq_false _ _ Hrate). cbn [negb].
    eexists. split; [reflexivity|]. split; [reflexivity|].
    apply py_round_near.
Qed.

Lemma last_named_cons name ch sec :
  last_named name (ch :: sec) =
  match last_named name sec with
  | Some c => Some c
  | None => if String.eqb (channel_name ch) name then Some ch else None
  end.
Proof.
  unfold last_named. rewrite filter_cons.
  destruct (decide (String.eqb (channel_name ch) name = true)) as [E|E].
  - rewrite last_cons, E. reflexivity.
  - apply not_true_is_false in E. rewrite E.
    destruct (last _); reflexivity.
Qed.

Lemma last_named_none name sec :
  last_named name sec = None ->
  Forall (fun ch => channel_name ch <> name) sec.
Proof.
  induction sec as [|ch sec IH]; [constructor|].
  rewrite last_named_cons.
  destruct (last_named name sec) as [c|]; [discriminate|].
  destruct (String.eqb_spec (channel_name ch) name) as [_|Hne];
    [discriminate|].
  intros _. constructor; [exact Hne|apply IH; reflexivity].
Qed.

Lemma last_named_some name sec c :
  last_named name sec = Some c -> is_last_named name sec c.
Proof.
  induction sec as [|ch sec IH]; [discriminate|].
  rewrite last_named_cons.
  destruct (last_named name sec) as [c'|] eqn:E.
  - intros [= ->]. destruct (IH eq_refl) as (pre & post & -> & Hn & Hp).
    exists (ch :: pre), post. split; [reflexivity|]. split; assumption.
  - destruct (String.eqb_spec (channel_name ch) name) as [Hn|_];
      [|discriminate].
    intros [= ->]. exists [], sec. split; [reflexivity|].
    split; [exact Hn|apply last_named_none; exact E].
Qed.

(** What one step of the loop does to each slot: the six names are
    different, so a channel fills at most the slot of its name. *)
Lemma pick_channel_slots slots ch :
  let named n := String.eqb (channel_name ch) n in
  channel_x (pick_channel slots ch)
    = (if named "Location.X" then Some ch else channel_x slots) /\
  channel_y (pick_channel slots ch)
    = (if named "Location.Y" then Some ch else channel_y slots) /\
  channel_z (pick_channel slots ch)
    = (if named "Location.Z" then Some ch else channel_z slots) /\
  channel_roll (pick_channel slots ch)
    = (if named "Rotation.X" then Some ch else channel_roll slots) /\
  channel_pitch (pick_channel slots ch)
    = (if named "Rotation.Y" then Some ch else channel_pitch slots) /\
  channel_yaw (pick_channel slots ch)
    = (if named "Rotation.Z" then Some ch else channel_yaw slots).
Proof.
  intros named. subst named. cbv beta. unfold pick_channel.
  destruct (String.eqb_spec (channel_name ch) "Location.X") as [E|_];
    [try rewrite E; cbn; repeat split; reflexivity|].
  destruct (String.eqb_spec (channel_name ch) "Location.Y") as [E|_];
    [try rewrite E; cbn; repeat split; reflexivity|].
  destruct (String.eqb_spec (channel_name ch) "Location.Z") as [E|_];
    [try rewrite E; cbn; repeat split; reflexivity|].
  destruct (String.eqb_spec (channel_name ch) "Rotation.X") as [E|_];
    [try rewrite E; cbn; repeat split; reflexivity|].
  destruct (String.eqb_spec (channel_name ch) "Rotation.Y") as [E|_];
    [try rewrite E; cbn; repeat split; reflexivity|].
  destruct (String.eqb_spec (channel_name ch) "Rotation.Z") as [E|_];
    [try rewrite E; cbn; repeat split; reflexivity|].
  repeat split; reflexivity.
Qed.

Lemma fold_pick_channel sec init :
  let or_else name old :=
    match last_named name sec with Some c => Some c | None => old end in
  fold_left pick_channel sec init =
  mkSlots (or_else "Location.X" (channel_x init))
          (or_else "Location.Y" (channel_y init))
          (or_else "Location.Z" (channel_z init))
          (or_else "Rotation.X" (channel_roll init))
          (or_else "Rotation.Y" (channel_pitch init))
          (or_else "Rotation.Z" (channel_yaw init)).
Proof.
  cbv zeta. revert init. induction sec as [|ch sec IH]; intros init.
  - destruct init; reflexivity.
  - cbn [fold_left]. rewrite IH. rewrite !last_named_cons.
    destruct (pick_channel_slots init ch)
      as (-> & -> & -> & -> & -> & ->).
    clear IH.
    f_equal;
      match goal with
      | |- context [last_named ?n sec] => destruct (last_named n sec)
      end; try reflexivity; destruct (String.eqb _ _); reflexivity.
Qed.

(** X13. Finding the six transform channels.  The call succeeds exactly
    when each of the names Location.X/Y/Z and Rotation.X/Y/Z is carried by
    some channel of the section, and then returns, for each name, the last
    channel of the section that carries it; channels with other names are
    ignored.  When a name is missing the call raises [AssertionError]. *)
Theorem transform_channels_lookup (trans_section : list Channel) :
  (exists name,
     name ∈ transform_channel_names /\
     Forall (fun ch => channel_name ch <> name) trans_section /\
     get_transform_channels_from_section trans_section
     = inl (Raised AssertionError))
  \/
  (exists cx cy cz croll cpitch cyaw,
     get_transform_channels_from_section trans_section
     = inr (cx, cy, cz, croll, cpitch, cyaw) /\
     is_last_named "Location.X" trans_section cx /\
     is_last_named "Location.Y" trans_section cy /\
     is_last_named "Location.Z" trans_section cz /\
     is_last_named "Rotation.X" trans_section croll /\
     is_last_named "Rotation.Y" trans_section cpitch /\
     is_last_named "Rotation.Z" trans_section cyaw).
Proof.
  unfold get_transform_channels_from_section.
  rewrite fold_pick_channel. cbn [channel_x channel_y channel_z
    channel_roll channel_pitch channel_yaw].
  assert (Hin : forall n, In n transform_channel_names ->
                          n ∈ transform_channel_names)
    by (intros n Hn; apply list_elem_of_In; exact Hn).
  destruct (last_named "Location.X" trans_section) as [cx|] eqn:Ex;
    [|left; exists "Location.X"%string;
      split; [apply Hin; cbn; tauto|];
      split; [apply last_named_none; exact Ex|reflexivity]].
  destruct (last_named "Location.Y" trans_section) as [cy|] eqn:Ey;
    [|left; exists "Location.Y"%string;
      split; [apply Hin; cbn; tauto|];
      split; [apply last_named_none; exact Ey|reflexivity]].
  destruct (last_named "Location.Z" trans_section) as [cz|] eqn:Ez;
    [|left; exists "Location.Z"%string;
      split; [apply Hin; cbn; tauto|];
      split; [apply last_named_none; exact Ez|reflexivity]].
  destruct (last_named "Rotation.X" trans_section) as [cr|] eqn:Er;
    [|left; exists "Rotation.X"%string;
      split; [apply Hin; cbn; tauto|];
      split; [apply last_named_none; exact Er|reflexivity]].
  destruct (last_named "Rotation.Y" trans_section) as [cp|] eqn:Ep;
    [|left; exists "Rotation.Y"%string;
      split; [apply Hin; cbn; tauto|];
      split; [apply last_named_none; exact Ep|reflexivity]].
  destruct (last_named "Rotation.Z" trans_section) as [cw|] eqn:Ew;
    [|left; exists "Rotation.Z"%string;
      split; [apply Hin; cbn; tauto|];
      split; [apply last_named_none; exact Ew|reflexivity]].
  right. exists cx, cy, cz, cr, cp, cw.
  split; [reflexivity|].
  repeat split; apply last_named_some; assumption.
Qed.

Lemma camera_section_channels :
  get_transform_channels_from_section camera_section
  = inr (mkChannel 0 "Location.X", mkChannel 1 "Location.Y",
         mkChannel 2 "Location.Z", mkChannel 3 "Rotation.X",
         mkChannel 4 "Rotation.Y", mkChannel 5 "Rotation.Z").
Proof. reflexivity. Qed.

Lemma unpack3_short (xs : list R) :
  length xs <> 3%nat -> unpack3 xs = inl (Raised ValueError).
Proof.
  intros H. destruct xs as [|a [|b [|c [|d xs]]]]; try reflexivity.
  cbn [length] in H. lia.
Qed.

Section SequencerFacts.
Variable Interpolation : Type.
Variable key_interpolation : string -> option Interpolation.

Lemma set_transforms_by_section_run trans_section trans_keys key_type cs i :
  get_transform_channels_from_section trans_section = inr cs ->
  key_interpolation key_type = Some i ->
  set_transforms_by_section Interpolation key_interpolation trans_section trans_keys key_type
  = (flat_map (keyframe_calls cs i) trans_keys, inr tt).
Proof.
  intros Hcs Hi. unfold set_transforms_by_section.
  rewrite Hcs. unfold getattr_interpolation. rewrite Hi.
  destruct cs as [[[[[cx cy] cz] cr] cp] cw].
  cbn [w_bind w_lift].
  match goal with
  | |- context [w_for_each trans_keys ?body] =>
      assert (Hloop : w_for_each trans_keys body
                = (flat_map (keyframe_calls (cx, cy, cz, cr, cp, cw) i)
                     trans_keys, inr tt))
  end.
  { induction trans_keys as [|k keys IH]; [reflexivity|].
    cbn [w_for_each flat_map]. rewrite IH.
    destruct k as [f [[lx ly] lz] [[rx ry] rz]]. reflexivity. }
  rewrite Hloop. reflexivity.
Qed.

Lemma set_transforms_by_section_no_channels trans_section trans_keys key_type
    e :
  get_transform_channels_from_section trans_section = inl e ->
  set_transforms_by_section Interpolation key_interpolation trans_section trans_keys key_type
  = ([], inl e).
Proof.
  intros Hcs. unfold set_transforms_by_section. rewrite Hcs. reflexivity.
Qed.

Lemma set_transforms_by_section_no_type trans_section trans_keys key_type cs :
  get_transform_channels_from_section trans_section = inr cs ->
  key_interpolation key_type = None ->
  set_transforms_by_section Interpolation key_interpolation trans_section trans_keys key_type
  = ([], inl AttributeError).
Proof.
  intros Hcs Hi. unfold set_transforms_by_section.
  rewrite Hcs. unfold getattr_interpolation. rewrite Hi.
  destruct cs as [[[[[cx cy] cz] cr] cp] cw]. reflexivity.
Qed.

Lemma set_keyframe_by_section_run trans_section key_type cs i k :
  get_transform_channels_from_section trans_section = inr cs ->
  key_interpolation key_type = Some i ->
  set_keyframe_by_section Interpolation key_interpolation trans_section key_type k
  = (keyframe_calls cs i k, inr tt).
Proof.
  intros Hcs Hi. unfold set_keyframe_by_section, set_transform_by_section.
  rewrite Hcs. unfold getattr_interpolation. rewrite Hi.
  destruct cs as [[[[[cx cy] cz] cr] cp] cw]. reflexivity.
Qed.

Lemma set_keyframe_by_section_no_channels trans_section key_type e k :
  get_transform_channels_from_section trans_section = inl e ->
  set_keyframe_by_section Interpolation key_interpolation trans_section key_type k = ([], inl e).
Proof.
  intros Hcs. unfold set_keyframe_by_section, set_transform_by_section.
  rewrite Hcs. reflexivity.
Qed.

Lemma set_keyframe_by_section_no_type trans_section key_type cs k :
  get_transform_channels_from_section trans_section = inr cs ->
  key_interpolation key_type = None ->
  set_keyframe_by_section Interpolation key_interpolation trans_section key_type k
  = ([], inl AttributeError).
Proof.
  intros Hcs Hi. unfold set_keyframe_by_section, set_transform_by_section.
  rewrite Hcs. unfold getattr_interpolation. rewrite Hi.
  destruct cs as [[[[[cx cy] cz] cr] cp] cw]. reflexivity.
Qed.

Lemma length_keyframe_calls cs (i : Interpolation) keys :
  length (flat_map (keyframe_calls cs i) keys) = (6 * length keys)%nat.
Proof.
  destruct cs as [[[[[cx cy] cz] cr] cp] cw].
  induction keys as [|k keys IH]; [reflexivity|].
  cbn [flat_map keyframe_calls app length]. rewrite IH. lia.
Qed.

(** X14. Writing a list of keyframes.  [set_transforms_by_section] checks
    the section and the key type before it writes anything: a section
    without its six channels gives [AssertionError] and an unknown key
    type gives [AttributeError], in that order of precedence, with no key
    added, also for an empty list of keyframes.  Otherwise every keyframe,
    in list order, adds six keys at its frame: x, y, z, roll, pitch, yaw,
    each into the channel of that name with the interpolation asked for;
    nothing else is written, so [6 * len(trans_keys)] keys are added. *)
Theorem set_transforms_by_section_trace trans_section trans_keys key_type :
  (forall e,
     get_transform_channels_from_section trans_section = inl e ->
     set_transforms_by_section Interpolation key_interpolation trans_section trans_keys key_type
     = ([], inl e)) /\
  (forall cs,
     get_transform_channels_from_section trans_section = inr cs ->
     key_interpolation key_type = None ->
     set_transforms_by_section Interpolation key_interpolation trans_section trans_keys key_type
     = ([], inl AttributeError)) /\
  (forall cx cy cz croll cpitch cyaw i,
     get_transform_channels_from_section trans_section
     = inr (cx, cy, cz, croll, cpitch, cyaw) ->
     key_interpolation key_type = Some i ->
     exists calls,
       set_transforms_by_section Interpolation key_interpolation trans_section trans_keys key_type
       = (calls, inr tt) /\
       length calls = (6 * length trans_keys)%nat /\
       calls =
       flat_map (fun k =>
         [ AddKey cx (frame k) (fst (fst (location k))) i;
           AddKey cy (frame k) (snd (fst (location k))) i;
           AddKey cz (frame k) (snd (location k)) i;
           AddKey croll (frame k) (fst (fst (rotation k))) i;
           AddKey cpitch (frame k) (snd (fst (rotation k))) i;
           AddKey cyaw (frame k) (snd (rotation k)) i ]) trans_keys).
Proof.
  split; [|split].
  - intros e He. apply set_transforms_by_section_no_channels. exact He.
  - intros cs Hcs Hi.
    apply (set_transforms_by_section_no_type _ _ _ cs); assumption.
  - intros cx cy cz cr cp cw i Hcs Hi.
    rewrite (set_transforms_by_section_run _ trans_keys _ _ i Hcs Hi).
    eexists. split; [reflexivity|].
    split; [apply length_keyframe_calls|reflexivity].
Qed.

(** X15. One batch or one keyframe at a time.  For every section, key type
    and list of keyframes, [set_transforms_by_section] adds exactly the
    keys that [set_transform_by_section], called once per keyframe in list
    order, adds; and each of those calls ends as the batch does: all
    succeed, or all raise the same exception and no key is added. *)
Theorem set_transforms_by_section_iterates trans_section trans_keys key_type :
  fst (set_transforms_by_section Interpolation key_interpolation trans_section trans_keys key_type)
  = flat_map
      (fun k => fst (set_keyframe_by_section Interpolation key_interpolation trans_section key_type k))
      trans_keys /\
  forall k,
    snd (set_keyframe_by_section Interpolation key_interpolation trans_section key_type k)
    = snd (set_transforms_by_section Interpolation key_interpolation trans_section trans_keys key_type).
Proof.
  destruct (get_transform_channels_from_section trans_section)
    as [e|cs] eqn:Hcs.
  - rewrite (set_transforms_by_section_no_channels _ _ _ e Hcs).
    split.
    + cbn [fst]. induction trans_keys as [|k keys IH]; [reflexivity|].
      cbn [flat_map].
      rewrite (set_keyframe_by_section_no_channels _ _ e k Hcs).
      exact IH.
    + intros k.
      rewrite (set_keyframe_by_section_no_channels _ _ e k Hcs).
      reflexivity.
  - destruct (key_interpolation key_type) as [i|] eqn:Hi.
    + rewrite (set_transforms_by_section_run _ _ _ cs i Hcs Hi).
      split.
      * cbn [fst]. induction trans_keys as [|k keys IH]; [reflexivity|].
        cbn [flat_map].
        rewrite (set_keyframe_by_section_run _ _ cs i k Hcs Hi).
        cbn [fst]. f_equal. exact IH.
      * intros k.
        rewrite (set_keyframe_by_section_run _ _ cs i k Hcs Hi).
        reflexivity.
    + rewrite (set_transforms_by_section_no_type _ _ _ cs Hcs Hi).
      split.
      * cbn [fst]. induction trans_keys as [|k keys IH]; [reflexivity|].
        cbn [flat_map].
        rewrite (set_keyframe_by_section_no_type _ _ cs k Hcs Hi).
        exact IH.
      * intros k.
        rewrite (set_keyframe_by_section_no_type _ _ cs k Hcs Hi).
        reflexivity.
Qed.

(** X16. Writing one transform.  [set_transform_by_section] adds either
    all six keys or none.  It checks in this order: the six channels
    ([AssertionError]), the length of [loc] and of [rot] ([ValueError]
    unless both hold three numbers), the key type ([AttributeError]); the
    first check that fails decides the exception, whatever the later ones
    would say.  When all pass it adds six keys at [key_frame]. *)
Theorem set_transform_by_section_checks trans_section (loc rot : list R)
    (key_frame : Z) (key_type : string) :
  let r := set_transform_by_section Interpolation key_interpolation trans_section loc rot key_frame
             key_type in
  (forall e,
     get_transform_channels_from_section trans_section = inl e ->
     r = ([], inl e)) /\
  (forall cs,
     get_transform_channels_from_section trans_section = inr cs ->
     length loc <> 3%nat \/ length rot <> 3%nat ->
     r = ([], inl (Raised ValueError))) /\
  (forall cs,
     get_transform_channels_from_section trans_section = inr cs ->
     length loc = 3%nat -> length rot = 3%nat ->
     key_interpolation key_type = None ->
     r = ([], inl AttributeError)) /\
  (forall cx cy cz croll cpitch cyaw i x y z roll pitch yaw,
     get_transform_channels_from_section trans_section
     = inr (cx, cy, cz, croll, cpitch, cyaw) ->
     loc = [x; y; z] -> rot = [roll; pitch; yaw] ->
     key_interpolation key_type = Some i ->
     r = ([ AddKey cx key_frame x i; AddKey cy key_frame y i;
            AddKey cz key_frame z i; AddKey croll key_frame roll i;
            AddKey cpitch key_frame pitch i; AddKey cyaw key_frame yaw i ],
          inr tt)).
Proof.
  intros r. subst r. unfold set_transform_by_section.
  split; [|split; [|split]].
  - intros e He. rewrite He. reflexivity.
  - intros cs Hcs Hlen. rewrite Hcs.
    destruct cs as [[[[[cx cy] cz] cr] cp] cw]. cbn [w_bind w_lift app].
    destruct (unpack3 loc) as [e|[[lx ly] lz]] eqn:El.
    + destruct (Nat.eq_dec (length loc) 3%nat) as [E3|N3].
      * destruct loc as [|a [|b [|c [|d l]]]]; discriminate.
      * rewrite (unpack3_short loc N3) in El. injection El as <-.
        reflexivity.
    + destruct Hlen as [N|N].
      * rewrite (unpack3_short loc N) in El. discriminate.
      * cbn [w_bind w_lift app]. rewrite (unpack3_short rot N).
        reflexivity.
  - intros cs Hcs Hl Hr Hi. rewrite Hcs.
    destruct cs as [[[[[cx cy] cz] cr] cp] cw].
    destruct loc as [|a [|b [|c [|d l]]]]; try discriminate.
    destruct rot as [|a' [|b' [|c' [|d' l']]]]; try discriminate.
    unfold getattr_interpolation. rewrite Hi. reflexivity.
  - intros cx cy cz cr cp cw i x y z roll pitch yaw Hcs -> -> Hi.
    rewrite Hcs. unfold getattr_interpolation. rewrite Hi. reflexivity.
Qed.

End SequencerFacts.

Lemma documented_linear : documented_key_types "LINEAR" = Some "LINEAR"%string.
Proof. reflexivity. Qed.

Lemma channel_eqb_refl c : channel_eqb c c = true.
Proof.
  unfold channel_eqb. rewrite Nat.eqb_refl, String.eqb_refl. reflexivity.
Qed.

Lemma channel_eqb_names a b :
  channel_name a <> channel_name b -> channel_eqb a b = false.
Proof.
  intros H. unfold channel_eqb.
  destruct (String.eqb_spec (channel_name a) (channel_name b));
    [contradiction|].
  apply andb_false_r.
Qed.

(** The channels found carry the six names. *)
Lemma transform_channels_names trans_section cx cy cz croll cpitch cyaw :
  get_transform_channels_from_section trans_section
  = inr (cx, cy, cz, croll, cpitch, cyaw) ->
  channel_name cx = "Location.X"%string /\
  channel_name cy = "Location.Y"%string /\
  channel_name cz = "Location.Z"%string /\
  channel_name croll = "Rotation.X"%string /\
  channel_name cpitch = "Rotation.Y"%string /\
  channel_name cyaw = "Rotation.Z"%string.
Proof.
  unfold get_transform_channels_from_section.
  rewrite fold_pick_channel. cbn [channel_x channel_y channel_z
    channel_roll channel_pitch channel_yaw].
  destruct (last_named "Location.X" trans_section) eqn:Ex; [|discriminate].
  destruct (last_named "Location.Y" trans_section) eqn:Ey; [|discriminate].
  destruct (last_named "Location.Z" trans_section) eqn:Ez; [|discriminate].
  destruct (last_named "Rotation.X" trans_section) eqn:Er; [|discriminate].
  destruct (last_named "Rotation.Y" trans_section) eqn:Ep; [|discriminate].
  destruct (last_named "Rotation.Z" trans_section) eqn:Ew; [|discriminate].
  intros [= <- <- <- <- <- <-].
  apply last_named_some in Ex, Ey, Ez, Er, Ep, Ew.
  destruct Ex as (? & ? & _ & Hx & _). destruct Ey as (? & ? & _ & Hy & _).
  destruct Ez as (? & ? & _ & Hz & _). destruct Er as (? & ? & _ & Hr & _).
  destruct Ep as (? & ? & _ & Hp & _). destruct Ew as (? & ? & _ & Hw & _).
  repeat split; assumption.
Qed.

(** Each of the six channels receives one key per keyframe, at the frame
    of the keyframe. *)
Lemma channel_frames_keyframe_calls {Interpolation : Type}
    (i : Interpolation) cx cy cz croll cpitch cyaw keys :
  channel_name cx = "Location.X"%string ->
  channel_name cy = "Location.Y"%string ->
  channel_name cz = "Location.Z"%string ->
  channel_name croll = "Rotation.X"%string ->
  channel_name cpitch = "Rotation.Y"%string ->
  channel_name cyaw = "Rotation.Z"%string ->
  Forall (fun c =>
            channel_frames c
              (flat_map (keyframe_calls (cx, cy, cz, croll, cpitch, cyaw) i)
                 keys)
            = frames keys)
         [cx; cy; cz; croll; cpitch; cyaw].
Proof.
  intros Hx Hy Hz Hr Hp Hw.
  assert (Hstep : forall c,
            In c [cx; cy; cz; croll; cpitch; cyaw] ->
            forall k,
              channel_frames c
                (keyframe_calls (cx, cy, cz, croll, cpitch, cyaw) i k)
              = [frame k]).
  { intros c Hc k. unfold channel_frames, keyframe_calls.
    cbn [flat_map app].
    cbn [In] in Hc.
    destruct Hc as [<-|[<-|[<-|[<-|[<-|[<-|[]]]]]]];
      rewrite channel_eqb_refl;
      rewrite !channel_eqb_names
        by (rewrite ?Hx, ?Hy, ?Hz, ?Hr, ?Hp, ?Hw; discriminate);
      reflexivity. }
  apply Forall_forall. intros c Hc. apply list_elem_of_In in Hc.
  induction keys as [|k keys IH]; [reflexivity|].
  cbn [flat_map frames map]. unfold channel_frames in *.
  rewrite flat_map_app. fold (frames keys). rewrite IH.
  rewrite (Hstep c Hc k). reflexivity.
Qed.

(** X17. From a generator to the channels.  When the keyframes returned
    by a well-formed call of any generator are written with
    [set_transforms_by_section] into a section that has its six channels,
    with a known key type, the write succeeds and adds six keys per
    keyframe; each of the six channels receives exactly one key per
    keyframe, at the frames of the keyframes in order, so the frames of
    the keys of a channel are strictly increasing: no key is ever added
    twice at one frame of one channel. *)
Theorem generated_keys_written (Interpolation : Type)
    (key_interpolation : string -> option Interpolation)
    s k trans_section key_type i cx cy cz croll cpitch cyaw :
  well_formed s k ->
  get_transform_channels_from_section trans_section
  = inr (cx, cy, cz, croll, cpitch, cyaw) ->
  key_interpolation key_type = Some i ->
  exists s' keys c' calls,
    run_call k s = (s', inr (keys, c')) /\
    set_transforms_by_section Interpolation key_interpolation
      trans_section keys key_type = (calls, inr tt) /\
    length calls = (6 * length keys)%nat /\
    Forall (fun c => channel_frames c calls = frames keys /\
                     StronglySorted Z.lt (channel_frames c calls))
           [cx; cy; cz; croll; cpitch; cyaw].
Proof.
  intros Hwf Hcs Hi.
  destruct (run_call_sweep s k Hwf)
    as (s' & z & dwell & lanes & Hd & _ & Hrun).
  pose proof (sweep_frames_sorted z dwell lanes (cursor_in k) Hd) as Hs.
  destruct (sweep z dwell lanes (cursor_in k)) as [keys c'].
  cbn [fst] in Hs.
  exists s', keys, c'. eexists. split; [exact Hrun|].
  split; [apply (set_transforms_by_section_run _ _ _ keys _ _ i Hcs Hi)|].
  split; [apply length_keyframe_calls|].
  destruct (transform_channels_names _ _ _ _ _ _ _ Hcs)
    as (Hx & Hy & Hz & Hr & Hp & Hw).
  pose proof (channel_frames_keyframe_calls i cx cy cz croll cpitch cyaw
                keys Hx Hy Hz Hr Hp Hw) as Hf.
  eapply Forall_impl; [exact Hf|]. cbn beta.
  intros c Hc. rewrite Hc. split; [reflexivity|exact Hs].
Qed.

End Generators.

(** ** The generators at given inputs

    The lemmas below run the generators on the examples.  Where a library
    has to be named it is [exact_lib]; on these inputs every library gives
    the same results. *)

(** C5, as stated, has the redrawn yaw range over 0..90 inclusive.  On the
    street segment no random source makes the base yaw, the yaw of the
    first keyframe, equal to 90, whatever the arithmetic. *)
Lemma generate_test_line_yaw_never_90 :
  ~ exists (lib : FloatLib) (src : nat -> Z) s' keys c' k,
      generate_test_line lib 1%positive 2%positive 300 0 0
        (mkState street_heap src 0) = (s', inr (keys, c')) /\
      head keys = Some k /\ rotation k = (0, 0, 90)%R.
Proof.
  intros (lib & src & s' & keys & c' & k & Hrun & Hk & Hr).
  rewrite (generate_test_line_run lib (mkState street_heap src 0)
             1%positive 2%positive 0 0 1000 0 300 0 0
             ltac:(discriminate) (street_point1 _ _) (street_point2 _ _))
    in Hrun.
  rewrite sweep_line_lanes in Hrun.
  injection Hrun as _ <- _. cbn [head] in Hk. injection Hk as <-.
  cbn [rotation rand_src rand_pos] in Hr.
  injection Hr as Hr. apply eq_IZR in Hr.
  pose proof (randint_of_range 0 90 (src 0%nat) ltac:(lia)). lia.
Qed.

(** C9, as stated, has every generator leave its arguments unchanged.  On
    the street segment [generate_test_line], called with yaw 0, turns the
    caller's first endpoint list [0; 0] into [570; 0]: under no arithmetic
    is the first endpoint anything else after the call, or the store what
    it was. *)
Lemma generate_test_line_mutates_point1 :
  let s := mkState street_heap (fun _ => 0) 0 in
  heap s !! 1%positive = Some [0; 0]%R /\
  ~ exists lib : FloatLib,
      let s' :=
        fst (generate_test_line lib 1%positive 2%positive 300 0 0 s) in
      heap s' !! 1%positive <> Some [570; 0]%R \/ heap s' = heap s.
Proof.
  intros s.
  assert (H0 : heap s !! 1%positive = Some [0; 0]%R)
    by apply street_point1.
  split; [exact H0|].
  intros (lib & H). cbv zeta in H.
  assert (H1 : heap (fst (generate_test_line lib 1%positive 2%positive
                            300 0 0 s)) !! 1%positive
               = Some [570; 0]%R).
  { rewrite (generate_test_line_run lib s 1%positive 2%positive 0 0 1000 0
               300 0 0 ltac:(discriminate)
               (street_point1 _ _) (street_point2 _ _)).
    cbn [fst heap]. rewrite lookup_insert_ne by discriminate.
    rewrite lookup_insert_eq.
    rewrite (displaced_start_yaw_0 lib 0 0)
      by (apply Z.leb_le; reflexivity).
    reflexivity. }
  destruct H as [H|H]; [exact (H H1)|].
  rewrite H, H0 in H1. injection H1 as H1. lra.
Qed.

Lemma generate_train_box_pattern_witness :
  exists keys c',
    generate_train_box exact_lib 1%positive 2%positive 15000 0
      (mkState block1_heap (fun _ => 0) 0)
    = (mkState block1_heap (fun _ => 0) 0, inr (keys, c')) /\
    Z.of_nat (length keys)
    = 4 * w_count_of exact_lib 4000 (-100000) 0 (-12000) 0 * 2.
Proof.
  destruct (generate_train_box_pattern exact_lib
              (mkState block1_heap (fun _ => 0) 0) 1%positive 2%positive
              (-100000) 0 (-12000) 0 (-100000) 38000 (-12000) 38000
              15000 0
              (block1_line1 _ _) (block1_line2 _ _)
              eq_refl eq_refl eq_refl eq_refl)
    as (keys & c' & Hrun & _ & _ & Hlen & _).
  exists keys, c'. split; [exact Hrun|exact Hlen].
Defined.

Lemma generate_train_line_pattern_witness :
  exists keys,
    generate_train_line exact_lib 1%positive 2%positive 300 0 0 true
      (mkState street_heap (fun _ => 0) 0)
    = (mkState street_heap (fun _ => 0) 0,
       inr (keys, 0 + 5 * (instance_of exact_lib 100 0 0 1000 0 + 1))) /\
    length keys = 10%nat.
Proof.
  destruct (proj1 (generate_train_line_pattern exact_lib)
              (mkState street_heap (fun _ => 0) 0) 1%positive 2%positive
              0%R 0%R 1000%R 0%R 300%R 0%R 0 true
              (street_point1 _ _) (street_point2 _ _))
    as (keys & Hrun & _ & Hlen & _).
  exists keys. split; [exact Hrun|exact Hlen].
Defined.

Lemma generate_test_box_pattern_witness :
  exists keys c',
    generate_test_box exact_lib 1%positive 2%positive 15000 0
      (mkState block1_heap (fun _ => 0) 0)
    = (consume
         (2 * Z.to_nat (w_count_of exact_lib 4501 (-100000) 0 (-12000) 0))
         (mkState block1_heap (fun _ => 0) 0),
       inr (keys, c')) /\
    Z.of_nat (length keys)
    = 2 * w_count_of exact_lib 4501 (-100000) 0 (-12000) 0.
Proof.
  destruct (generate_test_box_pattern exact_lib
              (mkState block1_heap (fun _ => 0) 0) 1%positive 2%positive
              (-100000) 0 (-12000) 0 (-100000) 38000 (-12000) 38000
              15000 0
              (block1_line1 _ _) (block1_line2 _ _)
              eq_refl eq_refl eq_refl eq_refl)
    as (keys & c' & Hrun & _ & _ & Hlen & _).
  exists keys, c'. split; [exact Hrun|exact Hlen].
Defined.

Lemma generate_test_line_pattern_witness :
  exists s' keys c',
    generate_test_line exact_lib 1%positive 2%positive 300 0 0
      (mkState street_heap (fun _ => 0) 0) = (s', inr (keys, c')) /\
    length keys = 10%nat.
Proof.
  destruct (generate_test_line_pattern exact_lib
              (mkState street_heap (fun _ => 0) 0) 1%positive 2%positive
              0 0 1000 0 300 0 0
              ltac:(discriminate) (street_point1 _ _) (street_point2 _ _))
    as (_ & _ & _ & _ & _ & s' & keys & Hrun & _ & _ & _ & _ & Hlen).
  exists s', keys. eexists. split; [exact Hrun|exact Hlen].
Defined.

Lemma sample_counts_witness :
  w_count_of exact_lib 4000 0 0 0 0
  = Int_part (fdiv exact_lib (Rabs (fsub exact_lib 0 0)) 4000) + 2 /\
  2 <= w_count_of exact_lib 4000 0 0 0 0 /\
  1 <= h_count_of exact_lib 4000 0 0 0 0.
Proof.
  destruct (proj1 (sample_counts exact_lib) 4000%R 0%R 0%R 0%R 0%R
              ltac:(lra))
    as (_ & _ & Ew & Hw & _ & Hh).
  split; [exact Ew|]. split; [exact Hw|exact Hh].
Defined.

Lemma run_call_frames_increase_witness :
  exists s' keys c',
    run_call exact_lib (TestLine 1%positive 2%positive 300 0 0)
      (mkState street_heap (fun _ => 0) 0) = (s', inr (keys, c')) /\
    0 < c' /\ StronglySorted Z.lt (frames keys).
Proof.
  destruct (run_call_frames_increase exact_lib
              (mkState street_heap (fun _ => 0) 0)
              (TestLine 1%positive 2%positive 300 0 0)
              (ex_intro _ 0%R (ex_intro _ 0%R (ex_intro _ 1000%R
                 (ex_intro _ 0%R
                    (conj (street_point1 _ _) (street_point2 _ _))))))
              (Z.le_refl 0))
    as (s' & keys & c' & Hrun & Hc & _ & Hs & _).
  exists s', keys, c'. split; [exact Hrun|]. split; [exact Hc|exact Hs].
Defined.

Lemma run_call_first_last_witness :
  exists s' keys c' first last_key,
    run_call exact_lib (TrainBox 1%positive 2%positive 15000 0)
      (mkState block1_heap (fun _ => 0) 0) = (s', inr (keys, c')) /\
    head keys = Some first /\ frame first = 0 /\
    last keys = Some last_key /\ c' = frame last_key + 1.
Proof.
  exact (run_call_first_last exact_lib
           (mkState block1_heap (fun _ => 0) 0)
           (TrainBox 1%positive 2%positive 15000 0)
           (ex_intro _ (-100000)%R (ex_intro _ (-12000)%R (ex_intro _ 0%R
              (ex_intro _ 38000%R
                 (conj (block1_line1 _ _) (block1_line2 _ _))))))).
Defined.

Lemma box_precondition_witness :
  generate_train_box exact_lib 1%positive 2%positive 15000 0
    (mkState skew_heap (fun _ => 0) 0)
  = (mkState skew_heap (fun _ => 0) 0, inl AssertionError) /\
  generate_test_box exact_lib 1%positive 2%positive 15000 0
    (mkState skew_heap (fun _ => 0) 0)
  = (mkState skew_heap (fun _ => 0) 0, inl AssertionError).
Proof.
  apply (proj1 (box_precondition exact_lib
                  (mkState skew_heap (fun _ => 0) 0)
                  1%positive 2%positive 0 0 10 1 0 5 10 5 15000 0
                  (skew_line1 _ _) (skew_line2 _ _))).
  left. apply Rlt_not_eq. apply Rlt_0_1.
Defined.

Lemma generators_frame_witness :
  heap (fst (generate_test_line exact_lib 1%positive 2%positive 300 0 0
               (mkState street_heap (fun _ => 0) 0)))
  = <[2%positive := [fst (displaced_end exact_lib 1000 0 0);
                     snd (displaced_end exact_lib 1000 0 0)]]>
      (<[1%positive := [fst (displaced_start exact_lib 0 0 0);
                        snd (displaced_start exact_lib 0 0 0)]]>
         street_heap).
Proof.
  apply (proj2 (proj2 (proj2 (proj2 (generators_frame exact_lib))))
           (mkState street_heap (fun _ => 0) 0) 1%positive 2%positive
           0%R 0%R 1000%R 0%R 300%R 0%R 0).
  - discriminate.
  - apply street_point1.
  - apply street_point2.
Defined.


Lemma test_box_coarser_witness :
  w_count_of exact_lib 4501 (-100000) 0 (-12000) 0
  <= w_count_of exact_lib 4000 (-100000) 0 (-12000) 0.
Proof.
  destruct (test_box_coarser exact_lib (mkState block1_heap (fun _ => 0) 0)
              1%positive 2%positive (-100000) (-12000) 0 38000 15000 0
              (block1_line1 _ _) (block1_line2 _ _))
    as (? & ? & ? & ? & ? & _ & _ & Hw & _).
  exact Hw.
Defined.

Lemma train_line_dense_sparse_witness :
  instance_of exact_lib 500 0 0 1000 0
  <= instance_of exact_lib 100 0 0 1000 0.
Proof.
  destruct (train_line_dense_sparse exact_lib
              (mkState street_heap (fun _ => 0) 0)
              1%positive 2%positive 0 0 1000 0 300 0 0
              (street_point1 _ _) (street_point2 _ _))
    as (? & ? & ? & ? & _ & _ & _ & _ & Hi & _).
  exact Hi.
Defined.

Lemma keys_level_witness :
  exists s' keys c',
    run_call exact_lib (TestBox 1%positive 2%positive 15000 0)
      (mkState block1_heap (fun _ => 0) 0) = (s', inr (keys, c')) /\
    Forall (fun key => snd (location key) = 15000%R /\
                       fst (fst (rotation key)) = 0%R) keys.
Proof.
  exact (keys_level exact_lib
           (mkState block1_heap (fun _ => 0) 0)
           (TestBox 1%positive 2%positive 15000 0)
           (ex_intro _ (-100000)%R (ex_intro _ (-12000)%R (ex_intro _ 0%R
              (ex_intro _ 38000%R
                 (conj (block1_line1 _ _) (block1_line2 _ _))))))).
Defined.

Lemma calls_compose_witness :
  exists s1 keys1 c1 s2 keys2 c2,
    run_call exact_lib (TestLine 1%positive 2%positive 300 0 0)
      (mkState street_heap (fun _ => 0) 0) = (s1, inr (keys1, c1)) /\
    run_call exact_lib
      (with_cursor (TrainLine 1%positive 2%positive 300 0 0 true) c1)
      s1 = (s2, inr (keys2, c2)) /\
    StronglySorted Z.lt (frames (keys1 ++ keys2)).
Proof.
  destruct (calls_compose exact_lib
              (mkState street_heap (fun _ => 0) 0)
              (TestLine 1%positive 2%positive 300 0 0)
              (TrainLine 1%positive 2%positive 300 0 0 true)
              (ex_intro _ 0%R (ex_intro _ 0%R (ex_intro _ 1000%R
                 (ex_intro _ 0%R
                    (conj (street_point1 _ _) (street_point2 _ _))))))
              (ex_intro _ 0%R (ex_intro _ 0%R (ex_intro _ 1000%R
                 (ex_intro _ 0%R
                    (conj (street_point1 _ _) (street_point2 _ _)))))))
    as (s1 & keys1 & c1 & s2 & keys2 & c2 & R1 & R2 & _ & Hs & _).
  exists s1, keys1, c1, s2, keys2, c2.
  split; [exact R1|]. split; [exact R2|exact Hs].
Defined.

Lemma box_unpack_error_witness :
  generate_train_box exact_lib 1%positive 2%positive 300 0
    (mkState street_heap (fun _ => 0) 0)
  = (mkState street_heap (fun _ => 0) 0, inl ValueError) /\
  generate_test_box exact_lib 1%positive 2%positive 300 0
    (mkState street_heap (fun _ => 0) 0)
  = (mkState street_heap (fun _ => 0) 0, inl ValueError).
Proof.
  apply (box_unpack_error exact_lib (mkState street_heap (fun _ => 0) 0)
           1%positive 2%positive [0; 0]%R [1000; 0]%R 300 0
           (street_point1 _ _) (street_point2 _ _)).
  left. cbn [length]. discriminate.
Defined.

Lemma train_line_malformed_witness :
  generate_train_line exact_lib 1%positive 2%positive 300 0 0 false
    (mkState short_heap (fun _ => 0) 0)
  = (mkState short_heap (fun _ => 0) 0, inl IndexError).
Proof.
  apply (proj2 (train_line_malformed exact_lib
                  (mkState short_heap (fun _ => 0) 0)
                  1%positive 2%positive [7]%R [5]%R 300 0 0 false
                  (short_point1 _ _) (short_point2 _ _))).
  - reflexivity.
  - cbn [length]. lia.
Defined.

Lemma test_line_failure_writes_witness :
  generate_test_line exact_lib 1%positive 2%positive 300 0 0
    (mkState short_heap (fun _ => 0) 0)
  = (mkState
       (<[1%positive := [fst (displaced_start exact_lib 7 0 0)]]>
          short_heap)
       (fun _ => 0) 0,
     inl IndexError).
Proof.
  exact (proj1 (test_line_failure_writes exact_lib
                  (mkState short_heap (fun _ => 0) 0)
                  1%positive 2%positive 300 0 0)
           7%R (short_point1 _ _)).
Defined.


Lemma get_animation_length_cases_witness :
  get_animation_length exact_lib
    (mkAnimSequence 90 (mkFrameRate 30 0) 3) (Some 24%R)
  = inl ZeroDivisionError.
Proof.
  apply (proj1 (proj2 (proj2 (get_animation_length_cases exact_lib
                 (mkAnimSequence 90 (mkFrameRate 30 0) 3))))).
  - apply not_0_IZR. discriminate.
  - reflexivity.
Defined.

Lemma set_transforms_by_section_trace_witness :
  exists calls,
    set_transforms_by_section string documented_key_types camera_section
      [mkSequenceKey 0 (1, 2, 3)%R (0, -45, 90)%R] "LINEAR"
    = (calls, inr tt) /\
    length calls = (6 * 1)%nat.
Proof.
  destruct (proj2 (proj2 (set_transforms_by_section_trace
              string documented_key_types camera_section
              [mkSequenceKey 0 (1, 2, 3)%R (0, -45, 90)%R] "LINEAR"))
              _ _ _ _ _ _ "LINEAR"%string
              camera_section_channels documented_linear)
    as (calls & Hrun & Hlen & _).
  exists calls. split; [exact Hrun|exact Hlen].
Defined.

Lemma set_transform_by_section_checks_witness :
  set_transform_by_section string documented_key_types camera_section
    [1; 2]%R [0; -45; 90]%R 0 "SMOOTH"
  = ([], inl (Raised ValueError)).
Proof.
  apply (proj1 (proj2 (set_transform_by_section_checks
           string documented_key_types camera_section
           [1; 2]%R [0; -45; 90]%R 0 "SMOOTH"))
           _ camera_section_channels).
  left. cbn [length]. discriminate.
Defined.

Lemma generated_keys_written_witness :
  exists s' keys c' calls,
    run_call exact_lib (TrainBox 1%positive 2%positive 15000 0)
      (mkState block1_heap (fun _ => 0) 0) = (s', inr (keys, c')) /\
    set_transforms_by_section string documented_key_types
      camera_section keys "LINEAR" = (calls, inr tt) /\
    length calls = (6 * length keys)%nat.
Proof.
  destruct (generated_keys_written exact_lib string documented_key_types
              (mkState block1_heap (fun _ => 0) 0)
              (TrainBox 1%positive 2%positive 15000 0)
              camera_section "LINEAR" "LINEAR"%string _ _ _ _ _ _
              (ex_intro _ (-100000)%R (ex_intro _ (-12000)%R
                 (ex_intro _ 0%R (ex_intro _ 38000%R
                    (conj (block1_line1 _ _) (block1_line2 _ _))))))
              camera_section_channels documented_linear)
    as (s' & keys & c' & calls & R1 & R2 & Hl & _).
  exists s', keys, c', calls. split; [exact R1|]. split; [exact R2|exact Hl].
Defined.
